(** * The sentiment-signal API route ([src/pages/api/signal.ts])

    A shallow embedding of the signal computation of the news-sentiment
    service, and the properties its specification states about it.

    Conventions of the embedding.
    - A JavaScript [number] that carries a weight, a score or a probability
      is an exact rational [Q]: the rounding of binary floating point is
      not modelled.  The results of [Math.round], counters and time values
      (milliseconds since the epoch) are integers [Z].  The non-finite
      numbers are represented only where the source tests for them
      ([Number.isFinite] on the configured offset).
    - A JavaScript string is a [string] of bytes, read as UTF-8.
    - What the route obtains from its runtime (the clock, the feed and news
      clients, the classifier, the [URL] and [Date] classes) is an explicit
      input: a field of [Platform] or of [World]. *)

From Stdlib Require Import ZArith QArith Qround Qabs Qminmax Lqa Lia.
From Stdlib Require Import List String Ascii Permutation Sorted.
From Stdlib Require SpecFloat.
From stdpp Require Import gmap strings list fin_maps.

Local Open Scope Q_scope.

(** ** Numbers *)

Module JSNumber.

(** [Math.round]: the nearest integer, ties towards +infinity. *)
Definition Math_round (x : Q) : Z := Qfloor (x + 0.5).

(** [Math.sign] on a finite number. *)
Definition Math_sign (x : Q) : Q :=
  if Qlt_le_dec 0 x then 1 else if Qlt_le_dec x 0 then -1 else 0.

(** [ToIntegerOrInfinity] on a finite number, as [new Date(ms)] applies it
    to its argument: truncation towards zero. *)
Definition truncate (x : Q) : Z :=
  if Qlt_le_dec x 0 then Qceiling x else Qfloor x.

(** [Number(x.toFixed(4))]: the multiple of 10^-4 nearest to [x], ties
    away from zero. *)
Definition toFixed4 (x : Q) : Q :=
  if Qlt_le_dec x 0
  then - (inject_Z (Qfloor (- x * 10000 + 0.5)) / 10000)
  else inject_Z (Qfloor (x * 10000 + 0.5)) / 10000.

(** [a || b] on numbers: [a] unless it is zero. *)
Definition or_number (a b : Q) : Q := if Qeq_dec a 0 then b else a.

(** The comparison operators, as booleans. *)
Definition ltb (a b : Q) : bool := if Qlt_le_dec a b then true else false.
Definition leb (a b : Q) : bool := if Qlt_le_dec b a then false else true.
Definition eqb (a b : Q) : bool := if Qeq_dec a b then true else false.

End JSNumber.
Import JSNumber.

Declare Scope js_scope.
Delimit Scope js_scope with js.
Notation "a <? b" := (ltb a b) : js_scope.
Notation "a >? b" := (ltb b a) : js_scope.
Notation "a <=? b" := (leb a b) : js_scope.
Notation "a >=? b" := (leb b a) : js_scope.
Notation "a =? b" := (eqb a b) : js_scope.
Notation "a <>? b" := (negb (eqb a b)) (at level 70) : js_scope.
Local Open Scope js_scope.

(** ** Data model *)

Inductive Sentiment := positive | negative | neutral.

Definition Sentiment_eqb (a b : Sentiment) : bool :=
  match a, b with
  | positive, positive | negative, negative | neutral, neutral => true
  | _, _ => false
  end.

Record SignalItem := {
  title : string;
  link : string;
  pubDate : string;
  source : string;
  sentiment : Sentiment;
  score : Q;
  weight : Q
}.

Inductive Recommendation := LONG | SHORT | NEUTRAL.

Record Counts := { c_positive : Z; c_negative : Z; c_neutral : Z }.
Record Weights := { posW : Q; negW : Q; neuW : Q }.

Record SignalResponse := {
  windowMinutes : Z;
  timezoneOffsetMinutes : Q;
  generatedAt : string;
  counts : Counts;
  weights : Weights;
  longPct : Z;
  shortPct : Z;
  recommendation : Recommendation;
  items : list SignalItem
}.

Record SentimentScore := { s_label : Sentiment; s_score : Q }.

(** ** Time window and decay *)

Definition clamp (min max value : Q) : Q := Qmin max (Qmax min value).

Definition toMinutesAgo (date now : Z) : Q :=
  inject_Z (now - date) / inject_Z (1000 * 60).

Definition linearTimeDecay (minutesAgo windowMinutes : Q) : Q :=
  let safeWindow := Qmax windowMinutes 1 in
  let clamped := clamp 0 safeWindow minutesAgo in
  let decay := 1 - (clamped / safeWindow) * 0.3 in
  clamp 0.7 1 decay.

Definition decayWeight (date now : Z) (windowMinutes : Q) : Q :=
  let minutesAgo := toMinutesAgo date now in
  if (minutesAgo <? 0) || (minutesAgo >? windowMinutes) then 0
  else linearTimeDecay minutesAgo windowMinutes.

(** ** Dates

    A valid [Date] is its time value, an integer number of milliseconds
    since the epoch, within the range where [new Date] and [Date.UTC] give
    valid dates.  The calendar is the proleptic Gregorian one of ECMA-262,
    computed by eras of 400 years. *)

Module JSDate.

Definition msPerDay : Z := 86400000.

(** [Day(t)] *)
Definition Day (t : Z) : Z := (t / msPerDay)%Z.

(** The day number of a civil date, month 1 to 12. *)
Definition days_from_civil (y m d : Z) : Z :=
  let y := if (m <=? 2)%Z then (y - 1)%Z else y in
  let era := (y / 400)%Z in
  let yoe := (y - era * 400)%Z in
  let doy := ((153 * (if (m >? 2)%Z then m - 3 else m + 9) + 2) / 5 + d - 1)%Z in
  let doe := (yoe * 365 + yoe / 4 - yoe / 100 + doy)%Z in
  (era * 146097 + doe - 719468)%Z.

(** The civil date of a day number: year, month 1 to 12, day of month. *)
Definition civil_from_days (z : Z) : Z * Z * Z :=
  let z := (z + 719468)%Z in
  let era := (z / 146097)%Z in
  let doe := (z - era * 146097)%Z in
  let yoe := ((doe - doe / 1460 + doe / 36524 - doe / 146096) / 365)%Z in
  let y := (yoe + era * 400)%Z in
  let doy := (doe - (365 * yoe + yoe / 4 - yoe / 100))%Z in
  let mp := ((5 * doy + 2) / 153)%Z in
  let d := (doy - (153 * mp + 2) / 5 + 1)%Z in
  let m := if (mp <? 10)%Z then (mp + 3)%Z else (mp - 9)%Z in
  (if (m <=? 2)%Z then y + 1 else y, m, d)%Z.

Definition getUTCFullYear (t : Z) : Z := fst (fst (civil_from_days (Day t))).

(** Months count from 0. *)
Definition getUTCMonth (t : Z) : Z := (snd (fst (civil_from_days (Day t))) - 1)%Z.

Definition getUTCDate (t : Z) : Z := snd (civil_from_days (Day t)).

(** [Date.UTC(year, month, date, 0, 0, 0, 0)] for a month 0 to 11: a year
    from 0 to 99 stands for 1900 + year. *)
Definition Date_UTC (year month date : Z) : Z :=
  let yr := if (0 <=? year)%Z && (year <=? 99)%Z then (1900 + year)%Z else year in
  (days_from_civil yr (month + 1) date * msPerDay)%Z.

(** The time values of valid dates: [TimeClip] makes every other one an
    invalid date, whose time value is [NaN]. *)
Definition maxTime : Z := 8640000000000000.

Definition validTime (t : Z) : Prop := (- maxTime <= t <= maxTime)%Z.

End JSDate.
Import JSDate.

(** [offsetMinutes] is [None] when the configured value is not finite. *)
Definition computeTimezoneStartOfDay (date : Z) (offsetMinutes : option Q) : Z :=
  let offset := match offsetMinutes with Some o => o | None => 0 end in
  let shifted := truncate (inject_Z date + offset * 60 * 1000) in
  let tzMidnightUTC :=
    Date_UTC (getUTCFullYear shifted) (getUTCMonth shifted) (getUTCDate shifted) in
  truncate (inject_Z tzMidnightUTC - offset * 60 * 1000).

(** The window computed at the top of [handler]. *)
Definition computeWindowMinutes (now : Z) (offsetMinutes : option Q) : Z :=
  let startOfDay := computeTimezoneStartOfDay now offsetMinutes in
  Z.max 1 (Math_round (inject_Z (now - startOfDay) / inject_Z (1000 * 60))).

(** ** Sentiment of a classifier output *)

Definition labelFromScore (score : Q) : Sentiment :=
  if score >? 0 then positive
  else if score <? 0 then negative
  else neutral.

Record Probs := { p_positive : Q; p_negative : Q; p_neutral : Q }.

Definition probs_get (p : Probs) (s : Sentiment) : Q :=
  match s with
  | positive => p_positive p
  | negative => p_negative p
  | neutral => p_neutral p
  end.

Definition probs_set (p : Probs) (s : Sentiment) (v : Q) : Probs :=
  match s with
  | positive => {| p_positive := v; p_negative := p_negative p; p_neutral := p_neutral p |}
  | negative => {| p_positive := p_positive p; p_negative := v; p_neutral := p_neutral p |}
  | neutral => {| p_positive := p_positive p; p_negative := p_negative p; p_neutral := v |}
  end.

(** The tail of [scoreSentimentModel], from the per-class maxima on. *)
Definition sentimentOfProbs (probs : Probs) : SentimentScore :=
  let diff := p_positive probs - p_negative probs in
  let strongest := Qmax (Qmax (p_positive probs) (p_negative probs)) (p_neutral probs) in
  let directional :=
    if diff >? 0 then
      let magnitude := Qmax 0.5 (diff * 5) in
      {| s_label := positive; s_score := magnitude |}
    else if diff <? 0 then
      let magnitude := Qmax 0.5 (Qabs diff * 5) in
      {| s_label := negative; s_score := - magnitude |}
    else {| s_label := neutral; s_score := 0 |} in
  if (strongest <? 0.4) || (Qabs diff <? 0.05) then
    if (p_neutral probs >=? 0.4)
       && (p_neutral probs >=? p_positive probs)
       && (p_neutral probs >=? p_negative probs)
    then {| s_label := neutral; s_score := 0 |}
    else if Qabs diff <? 0.05 then {| s_label := neutral; s_score := 0 |}
    else directional
  else directional.

(** ** Combiner *)

Definition combineSentiments
    (modelScore : option SentimentScore) (lexiconScore : SentimentScore)
    : SentimentScore :=
  match modelScore with
  | None => lexiconScore
  | Some modelScore =>
    if Sentiment_eqb (s_label modelScore) neutral && (s_score lexiconScore <>? 0)
    then lexiconScore
    else if s_score lexiconScore =? 0 then modelScore
    else
      let sameDirection :=
        Math_sign (s_score modelScore) =? Math_sign (s_score lexiconScore) in
      if sameDirection then
        let combinedMagnitude :=
          Qmax (Qabs (s_score modelScore)) (Qabs (s_score lexiconScore)) in
        let combinedScore :=
          Math_sign (or_number (s_score modelScore) (s_score lexiconScore))
          * combinedMagnitude in
        {| s_label := labelFromScore combinedScore; s_score := combinedScore |}
      else if Qabs (s_score modelScore) >=? Qabs (s_score lexiconScore)
      then modelScore
      else lexiconScore
  end.

(** ** Aggregator *)

(** [generatedAt] is the [new Date().toISOString()] read inside the source
    function. *)
Definition buildResponse
    (windowMinutes : Z) (timezoneOffsetMinutes : Q) (generatedAt : string)
    (items : list SignalItem) (posW negW neuW : Q)
    (posCount negCount neuCount : Z) : SignalResponse :=
  let totalWeight := posW + negW + neuW in
  let directionalWeight := posW + negW in
  let '(longPct, shortPct) :=
    if directionalWeight >? 0 then
      let rawLong := (posW / directionalWeight) * 100 in
      let longPct := Math_round rawLong in
      (longPct, (100 - longPct)%Z)
    else if totalWeight >? 0 then (0%Z, 0%Z)
    else (0%Z, 0%Z) in
  let recommendation :=
    if posW >? negW * 1.05 then LONG
    else if negW >? posW * 1.05 then SHORT
    else NEUTRAL in
  {| windowMinutes := windowMinutes;
     timezoneOffsetMinutes := timezoneOffsetMinutes;
     generatedAt := generatedAt;
     counts := {| c_positive := posCount; c_negative := negCount; c_neutral := neuCount |};
     weights := {| posW := posW; negW := negW; neuW := neuW |};
     longPct := longPct;
     shortPct := shortPct;
     recommendation := recommendation;
     items := items |}.

(** ** Strings *)

Module JSString.

Definition is_upper (c : ascii) : bool :=
  (65 <=? nat_of_ascii c)%nat && (nat_of_ascii c <=? 90)%nat.
Definition is_lower (c : ascii) : bool :=
  (97 <=? nat_of_ascii c)%nat && (nat_of_ascii c <=? 122)%nat.
Definition is_digit (c : ascii) : bool :=
  (48 <=? nat_of_ascii c)%nat && (nat_of_ascii c <=? 57)%nat.

(** The white space of [\s] below U+0080. *)
Definition is_space (c : ascii) : bool :=
  ((9 <=? nat_of_ascii c)%nat && (nat_of_ascii c <=? 13)%nat)
  || (nat_of_ascii c =? 32)%nat.

Definition lower_char (c : ascii) : ascii :=
  if is_upper c then ascii_of_nat (nat_of_ascii c + 32) else c.

(** [s.toLowerCase()] on the ASCII letters; every other byte stays as it
    is.  The code lower-cases the letters beyond ASCII as well: two of
    them, U+212A and U+0130, become the ASCII letters [k] and [i]. *)
Fixpoint toLowerCase (s : string) : string :=
  match s with
  | EmptyString => EmptyString
  | String c s' => String (lower_char c) (toLowerCase s')
  end.

Definition startsWith (s prefix : string) : bool := String.prefix prefix s.

Fixpoint includes (s needle : string) : bool :=
  String.prefix needle s
  || match s with
     | EmptyString => false
     | String _ s' => includes s' needle
     end.

Definition byte_is (c : ascii) (n : nat) : bool := (nat_of_ascii c =? n)%nat.

(** The number of bytes of the white-space character at the head of [s],
    0 when there is none: [WhiteSpace] and [LineTerminator] of ECMA-262,
    which are U+0009 to U+000D, U+0020, U+00A0, U+1680, U+2000 to U+200A,
    U+2028, U+2029, U+202F, U+205F, U+3000 and U+FEFF, in UTF-8. *)
Definition space_len (s : string) : nat :=
  match s with
  | EmptyString => 0%nat
  | String a rest =>
    if is_space a then 1%nat
    else
      match rest with
      | String b rest' =>
        if byte_is a 194 && byte_is b 160 then 2%nat
        else
          match rest' with
          | String c _ =>
            if (byte_is a 225 && byte_is b 154 && byte_is c 128)
               || (byte_is a 226 && byte_is b 128
                   && (((128 <=? nat_of_ascii c)%nat && (nat_of_ascii c <=? 138)%nat)
                       || byte_is c 168 || byte_is c 169 || byte_is c 175))
               || (byte_is a 226 && byte_is b 129 && byte_is c 159)
               || (byte_is a 227 && byte_is b 128 && byte_is c 128)
               || (byte_is a 239 && byte_is b 187 && byte_is c 191)
            then 3%nat
            else 0%nat
          | EmptyString => 0%nat
          end
      | EmptyString => 0%nat
      end
  end.

Fixpoint drop_chars (n : nat) (s : string) : string :=
  match n, s with
  | S n', String _ s' => drop_chars n' s'
  | _, _ => s
  end.

(** At most [fuel] white-space characters are removed. *)
Fixpoint trimStart_from (fuel : nat) (s : string) : string :=
  match fuel with
  | O => s
  | S fuel' =>
    match space_len s with
    | O => s
    | n => trimStart_from fuel' (drop_chars n s)
    end
  end.

Definition trimStart (s : string) : string := trimStart_from (String.length s) s.

(** The characters of [s] are kept up to the point from which only white
    space follows. *)
Fixpoint trimEnd (s : string) : string :=
  match s with
  | EmptyString => EmptyString
  | String c s' =>
    match trimStart s with
    | EmptyString => EmptyString
    | _ => String c (trimEnd s')
    end
  end.

(** [s.trim()] *)
Definition trim (s : string) : string := trimEnd (trimStart s).

(** Truthiness of a string. *)
Definition truthy (s : string) : bool :=
  match s with EmptyString => false | _ => true end.

(** [a || b] where [a] may be [undefined]. *)
Definition or_str (a : option string) (b : string) : string :=
  match a with
  | Some s => if truthy s then s else b
  | None => b
  end.

(** [a || b] on strings. *)
Definition or_else (a b : string) : string := if truthy a then a else b.

(** [a || b] where both may be [undefined]; the result may be too. *)
Definition or_opt (a b : option string) : option string :=
  match a with
  | Some s => if truthy s then a else b
  | None => b
  end.

(** [s.replace(/^www\./, '')]. *)
Definition strip_www (s : string) : string :=
  match s with
  | String "w" (String "w" (String "w" (String "." rest))) => rest
  | _ => s
  end.

End JSString.
Import JSString.

(** ** Lexicon scorer *)

Definition POSITIVE_WORDS : gset string :=
  list_to_set
    ["gain"; "gains"; "rally"; "bull"; "bullish"; "surge"; "surges";
     "breakout"; "record"; "all-time"; "positive"; "upgrade"; "outperform";
     "buy"; "accumulate"; "support"; "uptrend"; "rebound"; "recover";
     "green"; "approve"; "approval"; "approved"; "adopt"; "adoption";
     "partnership"; "investment"; "invest"; "funding"; "etf"; "listing"]%string.

Definition NEGATIVE_WORDS : gset string :=
  list_to_set
    ["drop"; "drops"; "fall"; "falls"; "bear"; "bearish"; "plunge"; "crash";
     "selloff"; "sell-off"; "decline"; "downtrend"; "negative"; "downgrade";
     "underperform"; "sell"; "resistance"; "reject"; "rejection"; "ban";
     "lawsuit"; "probe"; "fraud"; "hack"; "exploit"; "scam"; "fud";
     "outflow"; "liquidation"; "liquidations"; "insolvency"; "bankrupt";
     "delist"; "concern"; "steal"; "steals"; "stole"; "stolen"; "theft"]%string.

(** Own keys of the [SOURCE_WEIGHTS] object. *)
Definition SOURCE_WEIGHTS : gmap string Q :=
  list_to_map
    [("Reuters", 1.3); ("Bloomberg", 1.25); ("The Wall Street Journal", 1.2);
     ("WSJ", 1.2); ("Financial Times", 1.2); ("CoinDesk", 1.15);
     ("Cointelegraph", 1.1); ("The Block", 1.1)]%string.

Definition SENTIMENT_CACHE_TTL_MS : Z := 1000 * 60 * 60 * 6.

(** The character class [[a-z0-9\s-]]. *)
Definition token_class (c : ascii) : bool :=
  is_lower c || is_digit c || is_space c || (nat_of_ascii c =? 45)%nat.

(** [.replace(/[^a-z0-9\s-]+/g, ' ')]; [inRun] holds inside a run of
    characters outside the class. *)
Fixpoint replace_other (inRun : bool) (s : string) : string :=
  match s with
  | EmptyString => EmptyString
  | String c s' =>
    if token_class c then String c (replace_other false s')
    else if inRun then replace_other true s'
    else String " " (replace_other true s')
  end.

(** [.split(/\s+/)]; [cur] is the piece being read, [inSep] holds inside a
    run of white space. *)
Fixpoint split_space (cur : string) (inSep : bool) (s : string) : list string :=
  match s with
  | EmptyString => [cur]
  | String c s' =>
    if is_space c then
      if inSep then split_space EmptyString true s'
      else cur :: split_space EmptyString true s'
    else split_space (cur +:+ String c EmptyString) false s'
  end.

Definition tokenize (text : string) : list string :=
  List.filter truthy (split_space EmptyString false (replace_other false (toLowerCase text))).

Definition scoreSentimentLexicon (title snippet : string) : SentimentScore :=
  let tokens := tokenize (title +:+ " " +:+ snippet) in
  let '(pos, neg) :=
    fold_left
      (fun '(pos, neg) token =>
         let pos := if bool_decide (token ∈ POSITIVE_WORDS) then (pos + 1)%Z else pos in
         let neg := if bool_decide (token ∈ NEGATIVE_WORDS) then (neg + 1)%Z else neg in
         (pos, neg))
      tokens (0%Z, 0%Z) in
  let rawScore := (pos - neg)%Z in
  if (rawScore >? 0)%Z then {| s_label := positive; s_score := inject_Z rawScore |}
  else if (rawScore <? 0)%Z then {| s_label := negative; s_score := inject_Z rawScore |}
  else {| s_label := neutral; s_score := 0 |}.

(** The own keys of the table.  [SOURCE_WEIGHTS[trimmed]] also finds the
    members that a plain object inherits from [Object.prototype]; for those
    names, listed in [Object_prototype_properties], the code does not get a
    number, and they are outside this definition. *)
Definition weightForSource (source : string) : Q :=
  let trimmed := trim source in
  default 1 (SOURCE_WEIGHTS !! trimmed).

(** [Object.getOwnPropertyNames(Object.prototype)] *)
Definition Object_prototype_properties : list string :=
  [ "constructor"; "__defineGetter__"; "__defineSetter__"; "hasOwnProperty";
    "__lookupGetter__"; "__lookupSetter__"; "isPrototypeOf";
    "propertyIsEnumerable"; "toString"; "valueOf"; "__proto__";
    "toLocaleString" ]%string.

(** The lookup of [weightForSource] finds an inherited member. *)
Definition inherited (source : string) : bool :=
  existsb (String.eqb (trim source)) Object_prototype_properties.

(** The character class of [hasHangul]: U+1100 to U+11FF, U+3130 to U+318F
    and U+AC00 to U+D7A3, all in the three-byte part of UTF-8. *)
Definition hangul3 (a b c : ascii) : bool :=
  let a := Z.of_nat (nat_of_ascii a) in
  let b := Z.of_nat (nat_of_ascii b) in
  let c := Z.of_nat (nat_of_ascii c) in
  ((224 <=? a) && (a <=? 239)
   && (128 <=? b) && (b <=? 191) && (128 <=? c) && (c <=? 191)
   && (let cp := (a - 224) * 4096 + (b - 128) * 64 + (c - 128) in
       ((4352 <=? cp) && (cp <=? 4607))
       || ((12592 <=? cp) && (cp <=? 12687))
       || ((44032 <=? cp) && (cp <=? 55203))))%Z.

Fixpoint hasHangul (text : string) : bool :=
  match text with
  | EmptyString => false
  | String a rest =>
    match rest with
    | String b (String c _) => hangul3 a b c
    | _ => false
    end
    || hasHangul rest
  end.

Definition mapModelLabel (label : string) : Sentiment :=
  let lowered := toLowerCase label in
  if includes lowered "pos" then positive
  else if includes lowered "neg" then negative
  else if includes lowered "neu" then neutral
  else if String.eqb lowered "label_2" then positive
  else if String.eqb lowered "label_0" then negative
  else if String.eqb lowered "label_1" then neutral
  else neutral.

(** The per-class maxima that [scoreSentimentModel] collects. *)
Definition collectProbs (outputs : list (string * Q)) : Probs :=
  fold_left
    (fun probs entry =>
       let mapped := mapModelLabel (fst entry) in
       let value := snd entry in
       probs_set probs mapped (Qmax (probs_get probs mapped) value))
    outputs
    {| p_positive := 0; p_negative := 0; p_neutral := 0 |}.

(** ** The runtime *)

Inductive Model := finbert | xlmr.

(** What the route uses of its JavaScript runtime.  [None] stands for an
    invalid date ([NaN] time value), for a thrown exception, or for a
    classifier that is unavailable or fails. *)
Class Platform := {
  (** [new Date(s).getTime()] *)
  Date_parse : string -> option Z;
  (** [new Date(t).toISOString()] *)
  toISOString : Z -> string;
  URL : Type;
  (** [new URL(s)] *)
  URL_new : string -> option URL;
  (** [Array.from(u.searchParams.entries())] *)
  URL_searchParams : URL -> list (string * string);
  (** [u.search = s] *)
  URL_set_search : string -> URL -> URL;
  (** [u.hash = s] *)
  URL_set_hash : string -> URL -> URL;
  URL_hash : URL -> string;
  URL_hostname : URL -> string;
  URL_toString : URL -> string;
  (** [new URLSearchParams()], [append] of each pair in turn, [toString()] *)
  URLSearchParams_toString : list (string * string) -> string;
  (** [await (await getTextClassificationPipeline(model))(text, {topk: 3})] *)
  classify : Model -> string -> option (list (string * Q))
}.

Record RSSItem := {
  rss_title : option string;
  rss_link : option string;
  rss_pubDate : option string;
  rss_isoDate : option string;
  rss_contentSnippet : option string;
  rss_content : option string;
  rss_creator : option string;
  rss_source : option (string + option string)
    (* a string, or an object with an optional [title] *)
}.

(** A post of the CryptoPanic JSON. *)
Record Post := {
  post_url : option string;
  post_domain : option string;
  post_published_at : option string;
  post_title : option string;
  post_description : option string
}.

(** The module constants read from [process.env]. *)
Record Config := {
  CRYPTOPANIC_TOKEN : option string;
  ENABLE_TRANSFORMERS : bool;
  (** [None]: the configured value is not a finite number *)
  TIMEZONE_OFFSET_MINUTES : option Q;
  (** [Number(process.env.SIGNAL_CACHE_TTL_MS ?? 45000)]; a value that is
      not a number disables the cache as 0 does *)
  SIGNAL_CACHE_TTL_MS : Q
}.

Definition RESPONSE_CACHE_TTL_MS (cfg : Config) : Q := Qmax 0 (SIGNAL_CACHE_TTL_MS cfg).

Record CacheEntry := { ce_score : SentimentScore; ce_expiresAt : Z }.

Record ResponseCache := { rc_timestamp : Z; rc_payload : SignalResponse }.

(** The module-level mutable state. *)
Record Globals := {
  sentimentCache : gmap string CacheEntry;
  responseCache : option ResponseCache
}.

Inductive QueryValue := QString (s : string) | QArray (l : list string).

Record Request := {
  req_method : string;
  req_query : gmap string QueryValue
}.

(** What one request observes of the outside world. *)
Record World := {
  (** [new Date()] at the start of the handler *)
  w_now : Z;
  (** [new Date()] inside [buildResponse] *)
  w_built : Z;
  (** the outcomes of [Promise.allSettled] in [rssUrls] order: [None] for a
      rejected feed, otherwise [feed.items ?? []] *)
  w_rssResults : list (option (list RSSItem));
  (** [json.results ?? []] of the CryptoPanic answer; [None] when the
      request fails, is not [ok], or does not parse *)
  w_cryptoPanic : option (list Post)
}.

Inductive HttpResponse :=
| Json (status : Z) (payload : SignalResponse)
| JsonError (status : Z) (allow : option string) (error : string).

(** The argument of [toDate] and [withinWindow]. *)
Inductive DateArg :=
| DateOfString (s : string)
| DateObject (t : option Z)
| DateMissing.

Definition getCachedSentiment
    (key : string) (now : Z) (cache : gmap string CacheEntry)
    : option SentimentScore * gmap string CacheEntry :=
  match cache !! key with
  | None => (None, cache)
  | Some cached =>
    if (ce_expiresAt cached <=? now)%Z then (None, delete key cache)
    else (Some (ce_score cached), cache)
  end.

Definition setCachedSentiment
    (key : string) (score : SentimentScore) (now : Z)
    (cache : gmap string CacheEntry) : gmap string CacheEntry :=
  <[key := {| ce_score := score; ce_expiresAt := (now + SENTIMENT_CACHE_TTL_MS)%Z |}]> cache.

Definition cleanupSentimentCache (now : Z) (cache : gmap string CacheEntry)
    : gmap string CacheEntry :=
  filter (fun kv => ¬ (ce_expiresAt kv.2 ≤ now)%Z) cache.

(** The running totals that [accumulate] closes over. *)
Record Aggregate := {
  a_posW : Q; a_negW : Q; a_neuW : Q;
  a_posCount : Z; a_negCount : Z; a_neuCount : Z
}.

Definition accumulate
    (sentiment : Sentiment) (score weightFactor : Q) (a : Aggregate)
    : Aggregate * Q :=
  let magnitudeBoost := clamp 0.5 2.0 (Qabs score) in
  let weightedContribution := magnitudeBoost * weightFactor in
  let a' :=
    match sentiment with
    | positive =>
      {| a_posW := a_posW a + weightedContribution; a_negW := a_negW a;
         a_neuW := a_neuW a; a_posCount := (a_posCount a + 1)%Z;
         a_negCount := a_negCount a; a_neuCount := a_neuCount a |}
    | negative =>
      {| a_posW := a_posW a; a_negW := a_negW a + weightedContribution;
         a_neuW := a_neuW a; a_posCount := a_posCount a;
         a_negCount := (a_negCount a + 1)%Z; a_neuCount := a_neuCount a |}
    | neutral =>
      {| a_posW := a_posW a; a_negW := a_negW a;
         a_neuW := a_neuW a + weightedContribution; a_posCount := a_posCount a;
         a_negCount := a_negCount a; a_neuCount := (a_neuCount a + 1)%Z |}
    end in
  (a', toFixed4 (score * weightFactor)).

(** The state of the two item loops of [handler]. *)
Record Run := {
  seen : gset string;
  r_items : list SignalItem;
  r_agg : Aggregate;
  r_cache : gmap string CacheEntry
}.

Section Handler.

Context `{Platform}.

Definition toDate (value : DateArg) : option Z :=
  match value with
  | DateMissing => None
  | DateObject t => t
  | DateOfString s => if truthy s then Date_parse s else None
  end.

Definition withinWindow (pubDate : DateArg) (now : Z) (windowMinutes : Q) : bool :=
  match toDate pubDate with
  | None => false
  | Some date =>
    let minutesAgo := toMinutesAgo date now in
    (minutesAgo >=? 0) && (minutesAgo <=? windowMinutes)
  end.

Definition scoreSentimentModel (text : string) (model : Model)
    : option SentimentScore :=
  match classify model text with
  | None => None
  | Some [] => None
  | Some outputs => Some (sentimentOfProbs (collectProbs outputs))
  end.

Definition scoreSentiment (cfg : Config) (title snippet : string) : SentimentScore :=
  let lexiconScore := scoreSentimentLexicon title snippet in
  if negb (ENABLE_TRANSFORMERS cfg) then lexiconScore
  else
    let text := trim (title +:+ " " +:+ snippet) in
    if negb (truthy text) then lexiconScore
    else
      let useXlm := hasHangul text in
      let modelScore := scoreSentimentModel text (if useXlm then xlmr else finbert) in
      combineSentiments modelScore lexiconScore.

Definition is_utm (kv : string * string) : bool :=
  startsWith (toLowerCase (fst kv)) "utm_".

Definition normalizeLink (url : string) : string :=
  match URL_new url with
  | Some u =>
    let keep := List.filter (fun kv => negb (is_utm kv)) (URL_searchParams u) in
    let u := URL_set_search (URLSearchParams_toString keep) u in
    let u := URL_set_hash EmptyString u in
    URL_toString u
  | None => url
  end.

Definition resolveSource (item : RSSItem) (link : string) : string :=
  let fromCreator :=
    match rss_creator item with
    | Some c => if truthy (trim c) then trim c else EmptyString
    | None => EmptyString
    end in
  let fromSourceString :=
    match rss_source item with
    | Some (inl s) => if truthy (trim s) then trim s else EmptyString
    | _ => EmptyString
    end in
  let fromSourceObject :=
    match rss_source item with
    | Some (inr (Some t)) => t
    | _ => EmptyString
    end in
  let candidate := or_else (or_else fromCreator fromSourceString) fromSourceObject in
  if truthy candidate then candidate
  else
    match URL_new link with
    | Some u =>
      let hostname := strip_www (URL_hostname u) in
      or_else hostname "Unknown"
    | None => "Unknown"%string
    end.

(** [getCachedSentiment(link, nowMs)], then [scoreSentiment] and
    [setCachedSentiment] when nothing valid is cached. *)
Definition cachedOrScored
    (cfg : Config) (link : string) (nowMs : Z) (title snippet : string)
    (cache : gmap string CacheEntry)
    : SentimentScore * gmap string CacheEntry :=
  match getCachedSentiment link nowMs cache with
  | (Some sentimentResult, cache) => (sentimentResult, cache)
  | (None, cache) =>
    let sentimentResult := scoreSentiment cfg title snippet in
    (sentimentResult, setCachedSentiment link sentimentResult nowMs cache)
  end.

(** The part of both loop bodies from [seen.add(link)] to [items.push]. *)
Definition admitItem
    (link title isoPubDate source : string) (sentimentResult : SentimentScore)
    (weightFactor : Q) (cache : gmap string CacheEntry) (r : Run) : Run :=
  let '(agg, formattedWeight) :=
    accumulate (s_label sentimentResult) (s_score sentimentResult)
               weightFactor (r_agg r) in
  {| seen := {[ link ]} ∪ seen r;
     r_items :=
       r_items r ++
       [ {| title := title; link := link; pubDate := isoPubDate;
            source := source; sentiment := s_label sentimentResult;
            score := s_score sentimentResult; weight := formattedWeight |} ];
     r_agg := agg;
     r_cache := cache |}.

(** The body of the loop over the items of one feed.  [scoreSentiment]
    always yields a score, so the test [if (!sentimentResult) continue] after
    it never skips. *)
Definition rssItemStep
    (cfg : Config) (now nowMs windowMinutes : Z) (r : Run) (item : RSSItem) : Run :=
  let link := normalizeLink (or_str (rss_link item) EmptyString) in
  if negb (truthy link) || bool_decide (link ∈ seen r) then r
  else
    let pubDateRaw :=
      match or_opt (rss_pubDate item) (rss_isoDate item) with
      | Some s => DateOfString s
      | None => DateMissing
      end in
    if negb (withinWindow pubDateRaw now (inject_Z windowMinutes)) then r
    else
      match toDate pubDateRaw with
      | None => r
      | Some pubDate =>
        let isoPubDate := toISOString pubDate in
        let '(sentimentResult, cache) :=
          cachedOrScored cfg link nowMs
            (or_str (rss_title item) EmptyString)
            (or_else (or_str (rss_contentSnippet item) EmptyString)
                     (or_str (rss_content item) EmptyString))
            (r_cache r) in
        let source := resolveSource item link in
        let wSource := weightForSource source in
        let wDecay := decayWeight pubDate now (inject_Z windowMinutes) in
        let weightFactor := wSource * wDecay in
        admitItem link (or_str (rss_title item) "(untitled)") isoPubDate source
                  sentimentResult weightFactor cache r
      end.

(** The loop over [rssResults]: rejected feeds are skipped. *)
Definition rssLoop
    (cfg : Config) (now nowMs windowMinutes : Z)
    (rssResults : list (option (list RSSItem))) (r : Run) : Run :=
  fold_left
    (fun r result =>
       match result with
       | None => r
       | Some feedItems => fold_left (rssItemStep cfg now nowMs windowMinutes) feedItems r
       end)
    rssResults r.

(** The body of the loop over the CryptoPanic posts. *)
Definition postStep
    (cfg : Config) (now nowMs windowMinutes : Z) (r : Run) (post : Post) : Run :=
  let link :=
    normalizeLink (or_else (or_str (post_url post) EmptyString)
                           (or_str (post_domain post) EmptyString)) in
  if negb (truthy link) || bool_decide (link ∈ seen r) then r
  else
    let pubDate :=
      match post_published_at post with
      | Some s => if truthy s then toDate (DateOfString s) else None
      | None => None
      end in
    match pubDate with
    | None => r
    | Some pubDate =>
      if negb (withinWindow (DateObject (Some pubDate)) now (inject_Z windowMinutes))
      then r
      else
        let isoPubDate := toISOString pubDate in
        let '(sentimentResult, cache) :=
          cachedOrScored cfg link nowMs
            (or_str (post_title post) EmptyString)
            (or_str (post_description post) EmptyString)
            (r_cache r) in
        let source := or_str (post_domain post) "CryptoPanic" in
        let wSource := weightForSource source in
        let wDecay := decayWeight pubDate now (inject_Z windowMinutes) in
        let weightFactor := wSource * wDecay in
        admitItem link (or_str (post_title post) "(untitled)") isoPubDate source
                  sentimentResult weightFactor cache r
    end.

(** The optional second source: skipped without a token or on failure. *)
Definition postLoop
    (cfg : Config) (now nowMs windowMinutes : Z)
    (cryptoPanic : option (list Post)) (r : Run) : Run :=
  match CRYPTOPANIC_TOKEN cfg with
  | Some token =>
    if truthy token then
      match cryptoPanic with
      | Some results => fold_left (postStep cfg now nowMs windowMinutes) results r
      | None => r
      end
    else r
  | None => r
  end.

(** The comparator of [items.sort]; a [NaN] difference counts as 0. *)
Definition byPubDateDesc (a b : SignalItem) : Z :=
  match Date_parse (pubDate b), Date_parse (pubDate a) with
  | Some tb, Some ta => (tb - ta)%Z
  | _, _ => 0%Z
  end.

Fixpoint sort_insert (cmp : SignalItem -> SignalItem -> Z)
    (x : SignalItem) (l : list SignalItem) : list SignalItem :=
  match l with
  | [] => [x]
  | y :: l' => if (cmp x y <=? 0)%Z then x :: l else y :: sort_insert cmp x l'
  end.

(** [Array.prototype.sort], which is stable. *)
Definition Array_sort (cmp : SignalItem -> SignalItem -> Z)
    (l : list SignalItem) : list SignalItem :=
  fold_right (sort_insert cmp) [] l.

Definition emptyAggregate : Aggregate :=
  {| a_posW := 0; a_negW := 0; a_neuW := 0;
     a_posCount := 0; a_negCount := 0; a_neuCount := 0 |}.

(** The two loops of one computation, from the empty [seen] set. *)
Definition collect
    (cfg : Config) (now nowMs windowMinutes : Z) (w : World)
    (cache : gmap string CacheEntry) : Run :=
  let r := {| seen := ∅; r_items := []; r_agg := emptyAggregate; r_cache := cache |} in
  let r := rssLoop cfg now nowMs windowMinutes (w_rssResults w) r in
  postLoop cfg now nowMs windowMinutes (w_cryptoPanic w) r.

(** [handler] past the response-cache test.  No step of the model throws,
    so the answer of the [catch] clause (status 500) does not occur. *)
Definition recompute
    (cfg : Config) (g : Globals) (w : World) (windowMinutes : Z)
    : Globals * HttpResponse :=
  let now := w_now w in
  let nowMs := now in
  let cacheEnabled := RESPONSE_CACHE_TTL_MS cfg >? 0 in
  let r := collect cfg now nowMs windowMinutes w
                   (cleanupSentimentCache nowMs (sentimentCache g)) in
  let items := Array_sort byPubDateDesc (r_items r) in
  let response :=
    buildResponse windowMinutes
      (match TIMEZONE_OFFSET_MINUTES cfg with Some o => o | None => 0 end)
      (toISOString (w_built w))
      items
      (a_posW (r_agg r)) (a_negW (r_agg r)) (a_neuW (r_agg r))
      (a_posCount (r_agg r)) (a_negCount (r_agg r)) (a_neuCount (r_agg r)) in
  ({| sentimentCache := r_cache r;
      responseCache :=
        if cacheEnabled
        then Some {| rc_timestamp := nowMs; rc_payload := response |}
        else responseCache g |},
   Json 200 response).

Definition withWindow (p : SignalResponse) (windowMinutes : Z) (tz : Q) : SignalResponse :=
  {| windowMinutes := windowMinutes;
     timezoneOffsetMinutes := tz;
     generatedAt := generatedAt p;
     counts := counts p;
     weights := weights p;
     longPct := longPct p;
     shortPct := shortPct p;
     recommendation := recommendation p;
     items := items p |}.

Definition handler (cfg : Config) (g : Globals) (w : World) (req : Request)
    : Globals * HttpResponse :=
  if negb (String.eqb (req_method req) "GET")
  then (g, JsonError 405 (Some "GET"%string) "Method not allowed")
  else
    let now := w_now w in
    let nowMs := now in
    let windowMinutes := computeWindowMinutes now (TIMEZONE_OFFSET_MINUTES cfg) in
    let cacheEnabled := RESPONSE_CACHE_TTL_MS cfg >? 0 in
    let forceRefresh :=
      match req_query req !! "force"%string with Some _ => true | None => false end in
    match responseCache g with
    | Some rc =>
      if cacheEnabled && negb forceRefresh
         && (inject_Z (nowMs - rc_timestamp rc) <? RESPONSE_CACHE_TTL_MS cfg)
      then
        let cachedPayload := rc_payload rc in
        (g, Json 200
              (withWindow cachedPayload windowMinutes
                 (match TIMEZONE_OFFSET_MINUTES cfg with
                  | Some o => o
                  | None => timezoneOffsetMinutes cachedPayload
                  end)))
      else recompute cfg g w windowMinutes
    | None => recompute cfg g w windowMinutes
    end.

End Handler.

(** ** A reference runtime

    An executable instance of [Platform], exact on the inputs the examples
    below use: ISO-8601 UTC timestamps of the years 0000 to 9999, and
    absolute [http(s)] URLs that are already in serialised form. *)

Module Reference.

(** *** Dates *)

Definition digit_of (c : ascii) : option Z :=
  if is_digit c then Some (Z.of_nat (nat_of_ascii c) - 48)%Z else None.

Definition char_of_digit (d : Z) : ascii := ascii_of_nat (Z.to_nat (d + 48)).

(** Reads [n] decimal digits. *)
Fixpoint read_digits (n : nat) (acc : Z) (s : string) : option (Z * string) :=
  match n with
  | O => Some (acc, s)
  | S n' =>
    match s with
    | String c s' =>
      match digit_of c with
      | Some d => read_digits n' (acc * 10 + d)%Z s'
      | None => None
      end
    | EmptyString => None
    end
  end.

Definition expect (c : ascii) (s : string) : option string :=
  match s with
  | String c' s' => if Ascii.eqb c c' then Some s' else None
  | EmptyString => None
  end.

(** Writes [v] with [n] decimal digits. *)
Fixpoint write_digits (n : nat) (v : Z) (tail : string) : string :=
  match n with
  | O => tail
  | S n' => write_digits n' (v / 10) (String (char_of_digit (v mod 10)) tail)
  end.

Definition date_toISOString (t : Z) : string :=
  let day := (t / msPerDay)%Z in
  let ms := (t mod msPerDay)%Z in
  let '(y, m, d) := civil_from_days day in
  write_digits 4 y ("-" +:+
  write_digits 2 m ("-" +:+
  write_digits 2 d ("T" +:+
  write_digits 2 (ms / 3600000) (":" +:+
  write_digits 2 (ms / 60000 mod 60) (":" +:+
  write_digits 2 (ms / 1000 mod 60) ("." +:+
  write_digits 3 (ms mod 1000) "Z")))))).

(** [YYYY-MM-DDTHH:mm:ssZ] and [YYYY-MM-DDTHH:mm:ss.sssZ]. *)
Definition date_parse (s : string) : option Z :=
  '(y, s) ← read_digits 4 0 s;
  s ← expect "-" s;
  '(m, s) ← read_digits 2 0 s;
  s ← expect "-" s;
  '(d, s) ← read_digits 2 0 s;
  s ← expect "T" s;
  '(hh, s) ← read_digits 2 0 s;
  s ← expect ":" s;
  '(mm, s) ← read_digits 2 0 s;
  s ← expect ":" s;
  '(ss, s) ← read_digits 2 0 s;
  '(ms, s) ← match expect "." s with
             | Some s' => read_digits 3 0 s'
             | None => Some (0%Z, s)
             end;
  if String.eqb s "Z"
     && (hh <? 24)%Z && (mm <? 60)%Z && (ss <? 60)%Z
     && bool_decide (civil_from_days (days_from_civil y m d) = (y, m, d))
  then Some (days_from_civil y m d * msPerDay
             + hh * 3600000 + mm * 60000 + ss * 1000 + ms)%Z
  else None.

(** *** URLs *)

Record Url := {
  u_prefix : string;   (* scheme, authority and path *)
  u_query : option string;
  u_fragment : option string
}.

(** Splits at the first occurrence of [c]. *)
Fixpoint split_at (c : ascii) (s : string) : string * option string :=
  match s with
  | EmptyString => (EmptyString, None)
  | String c' s' =>
    if Ascii.eqb c c' then (EmptyString, Some s')
    else let '(a, b) := split_at c s' in (String c' a, b)
  end.

Definition url_new (s : string) : option Url :=
  if startsWith s "http://" || startsWith s "https://" then
    let '(rest, fragment) := split_at "#" s in
    let '(prefix, query) := split_at "?" rest in
    Some {| u_prefix := prefix; u_query := query; u_fragment := fragment |}
  else None.

Definition url_toString (u : Url) : string :=
  u_prefix u
  +:+ match u_query u with Some q => String "?" q | None => EmptyString end
  +:+ match u_fragment u with Some f => String "#" f | None => EmptyString end.

Definition url_set_search (s : string) (u : Url) : Url :=
  {| u_prefix := u_prefix u;
     u_query :=
       match s with
       | EmptyString => None
       | String "?" s' => Some s'
       | _ => Some s
       end;
     u_fragment := u_fragment u |}.

Definition url_set_hash (s : string) (u : Url) : Url :=
  {| u_prefix := u_prefix u;
     u_query := u_query u;
     u_fragment :=
       match s with
       | EmptyString => None
       | String "#" s' => Some s'
       | _ => Some s
       end |}.

Definition url_hash (u : Url) : string :=
  match u_fragment u with
  | Some (String c f) => String "#" (String c f)
  | _ => EmptyString
  end.

Fixpoint drop_scheme (s : string) : string :=
  match s with
  | String ":" (String "/" (String "/" rest)) => rest
  | String _ s' => drop_scheme s'
  | EmptyString => EmptyString
  end.

Definition url_hostname (u : Url) : string :=
  fst (split_at ":" (fst (split_at "/" (drop_scheme (u_prefix u))))).

(** *** application/x-www-form-urlencoded *)

Definition hex_digit (n : nat) : ascii :=
  ascii_of_nat (if (n <? 10)%nat then n + 48 else n + 55).

Definition hex_value (c : ascii) : option nat :=
  let n := nat_of_ascii c in
  if is_digit c then Some (n - 48)%nat
  else if (65 <=? n)%nat && (n <=? 70)%nat then Some (n - 55)%nat
  else if (97 <=? n)%nat && (n <=? 102)%nat then Some (n - 87)%nat
  else None.

Definition unreserved (c : ascii) : bool :=
  is_upper c || is_lower c || is_digit c
  || Ascii.eqb c "*" || Ascii.eqb c "-" || Ascii.eqb c "." || Ascii.eqb c "_".

Fixpoint encode (s : string) : string :=
  match s with
  | EmptyString => EmptyString
  | String c s' =>
    if unreserved c then String c (encode s')
    else if Ascii.eqb c " " then String "+" (encode s')
    else String "%" (String (hex_digit (nat_of_ascii c / 16))
                      (String (hex_digit (nat_of_ascii c mod 16)) (encode s')))
  end.

Fixpoint decode (s : string) : string :=
  match s with
  | EmptyString => EmptyString
  | String c s' =>
    if Ascii.eqb c "+" then String " " (decode s')
    else
      match s' with
      | String a (String b s'') =>
        match (if Ascii.eqb c "%" then hex_value a else None), hex_value b with
        | Some h, Some l => String (ascii_of_nat (h * 16 + l)) (decode s'')
        | _, _ => String c (decode s')
        end
      | _ => String c (decode s')
      end
  end.

Fixpoint serialize (l : list (string * string)) : string :=
  match l with
  | [] => EmptyString
  | [(k, v)] => encode k +:+ String "=" (encode v)
  | (k, v) :: l' => encode k +:+ String "=" (encode v) +:+ String "&" (serialize l')
  end.

Definition parse_pair (piece : string) : string * string :=
  let '(name, value) := split_at "=" piece in
  (decode name, decode (default EmptyString value)).

(** The pieces between [&], read with fuel: the length of the input. *)
Fixpoint pieces (fuel : nat) (s : string) : list string :=
  match fuel with
  | O => [s]
  | S fuel' =>
    match split_at "&" s with
    | (a, Some rest) => a :: pieces fuel' rest
    | (a, None) => [a]
    end
  end.

Definition parse_query (s : string) : list (string * string) :=
  List.map parse_pair (List.filter truthy (pieces (String.length s) s)).

Definition url_searchParams (u : Url) : list (string * string) :=
  parse_query (default EmptyString (u_query u)).

(** *** Vocabulary of the proofs about this runtime *)

Fixpoint all_chars (P : ascii -> bool) (s : string) : bool :=
  match s with
  | EmptyString => true
  | String c s' => P c && all_chars P s'
  end.

Definition is_not (c : ascii) (x : ascii) : bool := negb (Ascii.eqb c x).

(** The characters [encode] writes. *)
Definition encoded_char (c : ascii) : bool :=
  unreserved c || Ascii.eqb c "+" || Ascii.eqb c "%".

Definition ser_pair (kv : string * string) : string :=
  encode (fst kv) +:+ String "=" (encode (snd kv)).

(** The query that the search setter stores for a serialised list. *)
Definition query_of (l : list (string * string)) : option string :=
  match l with
  | [] => None
  | _ => Some (serialize l)
  end.

(** The runtime with a classifier that answers as [answers] says. *)
Definition scripted (answers : Model -> string -> option (list (string * Q)))
    : Platform :=
  {| Date_parse := date_parse;
     toISOString := date_toISOString;
     URL := Url;
     URL_new := url_new;
     URL_searchParams := url_searchParams;
     URL_set_search := url_set_search;
     URL_set_hash := url_set_hash;
     URL_hash := url_hash;
     URL_hostname := url_hostname;
     URL_toString := url_toString;
     URLSearchParams_toString := serialize;
     classify := answers |}.

(** No classifier is installed. *)
#[export] Instance platform : Platform := scripted (fun _ _ => None).

End Reference.

(** ** Vocabulary of the specification *)

(** The first millisecond of the UTC day that contains [t]. *)
Definition utcMidnight (t : Z) : Z := (t / msPerDay * msPerDay)%Z.

(** The strongest class probability of a classifier output. *)
Definition strongest (probs : Probs) : Q :=
  Qmax (Qmax (p_positive probs) (p_negative probs)) (p_neutral probs).

(** The weight and the count of one sentiment class. *)
Definition class_weight (a : Aggregate) (s : Sentiment) : Q :=
  match s with
  | positive => a_posW a
  | negative => a_negW a
  | neutral => a_neuW a
  end.

Definition class_count (a : Aggregate) (s : Sentiment) : Z :=
  match s with
  | positive => a_posCount a
  | negative => a_negCount a
  | neutral => a_neuCount a
  end.

Section Candidates.

Context `{Platform}.

(** The raw items of one computation, in the order in which the two loops
    of [handler] meet them. *)
Inductive Raw := RawRss (item : RSSItem) | RawPost (post : Post).

Definition raws (cfg : Config) (w : World) : list Raw :=
  flat_map
    (fun result =>
       match result with
       | Some feedItems => List.map RawRss feedItems
       | None => []
       end)
    (w_rssResults w)
  ++ match CRYPTOPANIC_TOKEN cfg, w_cryptoPanic w with
     | Some token, Some results =>
       if truthy token then List.map RawPost results else []
     | _, _ => []
     end.

(** The normalized link of a raw item: its identity for the [seen] set. *)
Definition rawLink (x : Raw) : string :=
  match x with
  | RawRss item => normalizeLink (or_str (rss_link item) EmptyString)
  | RawPost post =>
    normalizeLink (or_else (or_str (post_url post) EmptyString)
                           (or_str (post_domain post) EmptyString))
  end.

(** Its publication date, when there is one and it parses. *)
Definition rawDate (x : Raw) : option Z :=
  match x with
  | RawRss item =>
    match or_opt (rss_pubDate item) (rss_isoDate item) with
    | Some s => toDate (DateOfString s)
    | None => None
    end
  | RawPost post =>
    match post_published_at post with
    | Some s => toDate (DateOfString s)
    | None => None
    end
  end.

(** The source name the weight is looked up for. *)
Definition rawSource (x : Raw) : string :=
  match x with
  | RawRss item => resolveSource item (rawLink x)
  | RawPost post => or_str (post_domain post) "CryptoPanic"
  end.

(** A raw item passes the filters of the loops, the [seen] test apart, when
    its normalized link is not empty and its date lies in the window. *)
Definition admissible (now windowMinutes : Z) (x : Raw) : bool :=
  truthy (rawLink x)
  && match rawDate x with
     | Some date =>
       (toMinutesAgo date now >=? 0)
       && (toMinutesAgo date now <=? inject_Z windowMinutes)
     | None => false
     end.

Definition step (cfg : Config) (now nowMs windowMinutes : Z) (r : Run) (x : Raw) : Run :=
  match x with
  | RawRss item => rssItemStep cfg now nowMs windowMinutes r item
  | RawPost post => postStep cfg now nowMs windowMinutes r post
  end.

Definition emptyRun (cache : gmap string CacheEntry) : Run :=
  {| seen := ∅; r_items := []; r_agg := emptyAggregate; r_cache := cache |}.

(** The claim that a later raw item with the normalized link of an earlier
    one is always skipped. *)
Definition first_encountered_only : Prop :=
  forall cfg now nowMs windowMinutes cache pre x mid y,
    rawLink x = rawLink y ->
    let r := fold_left (step cfg now nowMs windowMinutes) (pre ++ x :: mid) (emptyRun cache) in
    step cfg now nowMs windowMinutes r y = r.

End Candidates.

(** The invariant of the two loops: [seen] holds the links of the items
    pushed so far, these links are pairwise distinct, and no running weight
    is negative. *)
Definition run_inv (r : Run) : Prop :=
  seen r = list_to_set (List.map link (r_items r))
  /\ NoDup (List.map link (r_items r))
  /\ 0 <= a_posW (r_agg r) /\ 0 <= a_negW (r_agg r) /\ 0 <= a_neuW (r_agg r).

(** The laws of the [URL] class that [normalizeLink] relies on (WHATWG URL
    Standard: the query and fragment setters, and the round trip of
    serialising and parsing). *)
Class PlatformLaws `{Platform} : Prop := {
  searchParams_of_search : forall (u : URL) (l : list (string * string)),
    URL_searchParams (URL_set_search (URLSearchParams_toString l) u) = l;
  searchParams_set_hash : forall (u : URL) (s : string),
    URL_searchParams (URL_set_hash s u) = URL_searchParams u;
  hash_cleared : forall u : URL, URL_hash (URL_set_hash EmptyString u) = EmptyString;
  reparse : forall (s : string) (u : URL) (l : list (string * string)),
    URL_new s = Some u ->
    let u' := URL_set_hash EmptyString (URL_set_search (URLSearchParams_toString l) u) in
    URL_new (URL_toString u') = Some u';
  set_again : forall (u : URL) (l : list (string * string)),
    let u' := URL_set_hash EmptyString (URL_set_search (URLSearchParams_toString l) u) in
    URL_set_hash EmptyString (URL_set_search (URLSearchParams_toString l) u') = u'
}.

Definition not_utm (kv : string * string) : bool := negb (is_utm kv).

(** The offset a computation reports: the configured one, 0 when that is
    not finite. *)
Definition configuredOffset (cfg : Config) : Q :=
  match TIMEZONE_OFFSET_MINUTES cfg with Some o => o | None => 0 end.

(** ** Example inputs *)

Module Sample.

Definition now : Z := 1704087000000.  (* 2024-01-01T05:30:00Z *)

Definition cfg : Config :=
  {| CRYPTOPANIC_TOKEN := None; ENABLE_TRANSFORMERS := false;
     TIMEZONE_OFFSET_MINUTES := Some 0; SIGNAL_CACHE_TTL_MS := 45000 |}.

(** The same with the transformer scorer switched on. *)
Definition cfgTransformers : Config :=
  {| CRYPTOPANIC_TOKEN := None; ENABLE_TRANSFORMERS := true;
     TIMEZONE_OFFSET_MINUTES := Some 0; SIGNAL_CACHE_TTL_MS := 45000 |}.

(** A classifier answer in which no class reaches 0.4. *)
Definition lowConfidence : list (string * Q) :=
  [("positive", 0.38); ("negative", 0.32); ("neutral", 0.30)]%string.

Definition rssItem (t l : string) (iso : option string) : RSSItem :=
  {| rss_title := Some t; rss_link := Some l; rss_pubDate := None;
     rss_isoDate := iso; rss_contentSnippet := None; rss_content := None;
     rss_creator := None; rss_source := None |}.

(** Three items of one article: the first carries no date. *)
Definition undated : RSSItem :=
  rssItem "Bitcoin rally" "https://example.com/post?utm_source=rss" None.
Definition dated : RSSItem :=
  rssItem "Bitcoin rally continues" "https://example.com/post"
          (Some "2024-01-01T05:00:00Z"%string).
Definition repeated : RSSItem :=
  rssItem "Bitcoin crash" "https://example.com/post#comments"
          (Some "2024-01-01T04:00:00Z"%string).

Definition world : World :=
  {| w_now := now; w_built := now;
     w_rssResults := [Some [undated; dated]; None; Some [repeated]];
     w_cryptoPanic := None |}.

Definition globals : Globals := {| sentimentCache := ∅; responseCache := None |}.

(** The payload the sample computation caches, ten seconds before [now]. *)
Definition earlier : World :=
  {| w_now := now - 10000; w_built := now - 10000;
     w_rssResults := w_rssResults world;
     w_cryptoPanic := None |}.

Definition plain : Request := {| req_method := "GET"; req_query := ∅ |}.
Definition forced (v : string) : Request :=
  {| req_method := "GET"; req_query := {[ "force"%string := QString v ]} |}.

Definition snapshot : SignalResponse :=
  {| windowMinutes := 330;
     timezoneOffsetMinutes := 0;
     generatedAt := "2024-01-01T05:29:50.000Z";
     counts := {| c_positive := 1; c_negative := 0; c_neutral := 0 |};
     weights := {| posW := 192630000 # 198000000; negW := 0; neuW := 0 |};
     longPct := 100;
     shortPct := 0;
     recommendation := LONG;
     items :=
       [ {| title := "Bitcoin rally continues";
            link := "https://example.com/post";
            pubDate := "2024-01-01T05:00:00.000Z";
            source := "example.com";
            sentiment := positive;
            score := 1;
            weight := 0.9729 |} ] |}.

Definition slot : ResponseCache :=
  {| rc_timestamp := now - 10000; rc_payload := snapshot |}.

(** The module state after the request at [earlier]. *)
Definition warm : Globals :=
  fst (handler (H := Reference.platform) cfg globals earlier plain).

End Sample.

(** ** The numbers of the code

    The definitions above compute with exact rationals.  The code computes
    with the binary64 numbers of IEEE 754, which round every operation;
    this shows where a result is then cut to an integer or to four
    decimals.  [IEEE] gives the functions whose rounding matters there in
    that arithmetic, operation by operation as the source has them. *)

Module IEEE.

Definition double : Type := SpecFloat.spec_float.

Definition prec : Z := 53.
Definition emax : Z := 1024.

Definition NaN : double := SpecFloat.S754_nan.

(** An integer as a number: exact up to 2^53. *)
Definition of_Z (z : Z) : double := SpecFloat.binary_normalize prec emax z 0 false.

Definition add (a b : double) : double := SpecFloat.SFadd prec emax a b.
Definition sub (a b : double) : double := SpecFloat.SFsub prec emax a b.
Definition mul (a b : double) : double := SpecFloat.SFmul prec emax a b.
Definition div (a b : double) : double := SpecFloat.SFdiv prec emax a b.

(** [a < b] and [a > b]: false when either is [NaN]. *)
Definition ltb (a b : double) : bool := SpecFloat.SFltb a b.
Definition gtb (a b : double) : bool := SpecFloat.SFltb b a.

(** A decimal literal of the source, and [Number(s)] for a decimal string:
    the nearest number, as the correctly rounded quotient gives it. *)
Definition of_Q (q : Q) : double := div (of_Z (Qnum q)) (of_Z (Zpos (Qden q))).

(** The rational a finite number stands for. *)
Definition value (x : double) : option Q :=
  match x with
  | SpecFloat.S754_zero _ => Some 0
  | SpecFloat.S754_finite s m e =>
    let z := if s then Z.neg m else Z.pos m in
    Some (if (0 <=? e)%Z then inject_Z (z * 2 ^ e)
          else z # Pos.pow 2 (Z.to_pos (- e)))
  | _ => None
  end.


Definition is_negative (x : double) : bool :=
  match x with
  | SpecFloat.S754_zero s | SpecFloat.S754_infinity s | SpecFloat.S754_finite s _ _ => s
  | SpecFloat.S754_nan => false
  end.

Definition Math_abs (x : double) : double := SpecFloat.SFabs x.

Definition Math_max (a b : double) : double :=
  match SpecFloat.SFcompare a b with
  | Some Lt => b
  | Some Gt => a
  | Some Eq => if is_negative a then b else a
  | None => NaN
  end.

Definition Math_min (a b : double) : double :=
  match SpecFloat.SFcompare a b with
  | Some Lt => a
  | Some Gt => b
  | Some Eq => if is_negative a then a else b
  | None => NaN
  end.

(** [Math.round]: the nearest integer, a half goes up. *)
Definition Math_round (x : double) : double :=
  match value x with
  | Some v =>
    let n := Qfloor (v + 0.5) in
    if (n =? 0)%Z && is_negative x then SpecFloat.S754_zero true else of_Z n
  | None => x
  end.

Definition clamp (min max value : double) : double :=
  Math_min max (Math_max min value).

(** Time values are integers below 2^53, and so is their difference. *)
Definition toMinutesAgo (date now : Z) : double :=
  div (of_Z (now - date)) (mul (of_Z 1000) (of_Z 60)).

Definition linearTimeDecay (minutesAgo windowMinutes : double) : double :=
  let safeWindow := Math_max windowMinutes (of_Z 1) in
  let clamped := clamp (of_Z 0) safeWindow minutesAgo in
  let decay := sub (of_Z 1) (mul (div clamped safeWindow) (of_Q 0.3)) in
  clamp (of_Q 0.7) (of_Z 1) decay.

Definition decayWeight (date now : Z) (windowMinutes : double) : double :=
  let minutesAgo := toMinutesAgo date now in
  if ltb minutesAgo (of_Z 0) || gtb minutesAgo windowMinutes then of_Z 0
  else linearTimeDecay minutesAgo windowMinutes.

(** The decimal that [x.toFixed(4)] writes for a finite [x] below 10^21:
    the multiple of 10^-4 nearest to the value of [x], the larger in
    magnitude of two. *)
Definition toFixed4 (x : double) : option Q :=
  match value x with
  | Some v => Some (JSNumber.toFixed4 v)
  | None => None
  end.

(** [Number(x.toFixed(4))] *)
Definition Number_toFixed4 (x : double) : double :=
  match toFixed4 x with
  | Some d => of_Q d
  | None => x
  end.

(** The running totals of [handler]. *)
Record Totals := {
  posW : double; negW : double; neuW : double;
  posCount : Z; negCount : Z; neuCount : Z
}.


Definition accumulate (sentiment : Sentiment) (score weightFactor : double)
    (t : Totals) : Totals * double :=
  let magnitudeBoost := clamp (of_Q 0.5) (of_Q 2.0) (Math_abs score) in
  let weightedContribution := mul magnitudeBoost weightFactor in
  let t' :=
    match sentiment with
    | positive =>
      {| posW := add (posW t) weightedContribution; negW := negW t; neuW := neuW t;
         posCount := (posCount t + 1)%Z; negCount := negCount t;
         neuCount := neuCount t |}
    | negative =>
      {| posW := posW t; negW := add (negW t) weightedContribution; neuW := neuW t;
         posCount := posCount t; negCount := (negCount t + 1)%Z;
         neuCount := neuCount t |}
    | neutral =>
      {| posW := posW t; negW := negW t; neuW := add (neuW t) weightedContribution;
         posCount := posCount t; negCount := negCount t;
         neuCount := (neuCount t + 1)%Z |}
    end in
  (t', Number_toFixed4 (mul score weightFactor)).

(** The three fields that [buildResponse] computes. *)
Record Signal := {
  longPct : double;
  shortPct : double;
  recommendation : Recommendation
}.

Definition buildResponse (posW negW neuW : double) : Signal :=
  let totalWeight := add (add posW negW) neuW in
  let directionalWeight := add posW negW in
  let '(longPct, shortPct) :=
    if gtb directionalWeight (of_Z 0) then
      let rawLong := mul (div posW directionalWeight) (of_Z 100) in
      let longPct := Math_round rawLong in
      (longPct, sub (of_Z 100) longPct)
    else if gtb totalWeight (of_Z 0) then (of_Z 0, of_Z 0)
    else (of_Z 0, of_Z 0) in
  let recommendation :=
    if gtb posW (mul negW (of_Q 1.05)) then LONG
    else if gtb negW (mul posW (of_Q 1.05)) then SHORT
    else NEUTRAL in
  {| longPct := longPct; shortPct := shortPct; recommendation := recommendation |}.

End IEEE.

(** ** Loading the classifiers

    The three functions behind [classify], with the awaited promises as
    their values. *)

Section Pipelines.

(** [TextClassificationPipeline] *)
Variable Pipeline : Type.

(** [module.pipeline(job, model, options)]: the third argument tells
    whether [{ quantized: true }] is passed; [None] stands for a rejected
    promise. *)
Definition PipelineFactory : Type := string -> string -> bool -> option Pipeline.

(** What [import('@xenova/transformers')] resolves to: a module whose
    [pipeline] is a function, or one without. *)
Inductive TransformersModule :=
| WithPipeline (pipeline : PipelineFactory)
| WithoutPipeline.

(** The three module-level promises; the outer [None] is the initial
    [null], the inner one the value [null] a promise resolves to. *)
Record Loaded := {
  transformersModulePromise : option (option TransformersModule);
  finbertPipelinePromise : option (option Pipeline);
  xlmRobertaPipelinePromise : option (option Pipeline)
}.

Definition notLoaded : Loaded :=
  {| transformersModulePromise := None;
     finbertPipelinePromise := None;
     xlmRobertaPipelinePromise := None |}.

(** [[process.env.FINBERT_MODEL_ID, ...].filter(Boolean)] *)
Definition FINBERT_MODEL_CANDIDATES (FINBERT_MODEL_ID : option string) : list string :=
  List.filter truthy
    (or_str FINBERT_MODEL_ID EmptyString
     :: ["ProsusAI/finbert"; "Xenova/finbert"; "Xenova/finbert-tone";
         "Xenova/bert-base-uncased-finetuned-sst-2-english"]%string).

Definition XLMR_MODEL_CANDIDATES (XLMR_MODEL_ID : option string) : list string :=
  List.filter truthy
    (or_str XLMR_MODEL_ID EmptyString
     :: ["cardiffnlp/twitter-xlm-roberta-base-sentiment";
         "Xenova/twitter-xlm-roberta-base-sentiment";
         "Xenova/bert-base-multilingual-uncased-sentiment"]%string).

(** The environment of the loading functions: the flag, the two model
    ids, and the outcome of the dynamic import ([None]: rejected). *)
Record Env := {
  env_ENABLE_TRANSFORMERS : bool;
  env_FINBERT_MODEL_ID : option string;
  env_XLMR_MODEL_ID : option string;
  env_import : option TransformersModule
}.

Definition getTransformersModule (env : Env) (st : Loaded)
    : option TransformersModule * Loaded :=
  if negb (env_ENABLE_TRANSFORMERS env) then (None, st)
  else
    match transformersModulePromise st with
    | Some module => (module, st)
    | None =>
      let module := env_import env in
      (module,
       {| transformersModulePromise := Some module;
          finbertPipelinePromise := finbertPipelinePromise st;
          xlmRobertaPipelinePromise := xlmRobertaPipelinePromise st |})
    end.

(** The loop over the candidates of [createModelPipeline]. *)
Fixpoint firstLoadable (pipelineFactory : PipelineFactory) (task : string)
    (candidates : list string) : option Pipeline :=
  match candidates with
  | [] => None
  | modelId :: rest =>
    if negb (truthy modelId) then firstLoadable pipelineFactory task rest
    else
      match pipelineFactory task modelId true with
      | Some p => Some p
      | None =>
        match pipelineFactory task modelId false with
        | Some p => Some p
        | None => firstLoadable pipelineFactory task rest
        end
      end
  end.

Definition createModelPipeline (env : Env) (task : string) (candidates : list string)
    (st : Loaded) : option Pipeline * Loaded :=
  let '(module, st) := getTransformersModule env st in
  match module with
  | Some (WithPipeline pipelineFactory) =>
    (firstLoadable pipelineFactory task candidates, st)
  | _ => (None, st)
  end.

Definition getTextClassificationPipeline (env : Env) (model : Model) (st : Loaded)
    : option Pipeline * Loaded :=
  match model with
  | finbert =>
    match finbertPipelinePromise st with
    | Some p => (p, st)
    | None =>
      let '(p, st) :=
        createModelPipeline env "text-classification"
          (FINBERT_MODEL_CANDIDATES (env_FINBERT_MODEL_ID env)) st in
      (p, {| transformersModulePromise := transformersModulePromise st;
             finbertPipelinePromise := Some p;
             xlmRobertaPipelinePromise := xlmRobertaPipelinePromise st |})
    end
  | xlmr =>
    match xlmRobertaPipelinePromise st with
    | Some p => (p, st)
    | None =>
      let '(p, st) :=
        createModelPipeline env "text-classification"
          (XLMR_MODEL_CANDIDATES (env_XLMR_MODEL_ID env)) st in
      (p, {| transformersModulePromise := transformersModulePromise st;
             finbertPipelinePromise := finbertPipelinePromise st;
             xlmRobertaPipelinePromise := Some p |})
    end
  end.

(** A candidate that cannot be loaded, with or without quantization. *)
Definition unloadable (pipelineFactory : PipelineFactory) (task modelId : string) : Prop :=
  modelId = EmptyString
  \/ (pipelineFactory task modelId true = None
      /\ pipelineFactory task modelId false = None).

(** The slot of a model. *)
Definition slotOf (model : Model) (st : Loaded) : option (option Pipeline) :=
  match model with
  | finbert => finbertPipelinePromise st
  | xlmr => xlmRobertaPipelinePromise st
  end.

End Pipelines.

Arguments WithPipeline {Pipeline}.
Arguments WithoutPipeline {Pipeline}.
Arguments transformersModulePromise {Pipeline}.
Arguments finbertPipelinePromise {Pipeline}.
Arguments xlmRobertaPipelinePromise {Pipeline}.
Arguments notLoaded {Pipeline}.
Arguments env_ENABLE_TRANSFORMERS {Pipeline}.
Arguments env_FINBERT_MODEL_ID {Pipeline}.
Arguments env_XLMR_MODEL_ID {Pipeline}.
Arguments env_import {Pipeline}.
Arguments getTransformersModule {Pipeline}.
Arguments firstLoadable {Pipeline}.
Arguments createModelPipeline {Pipeline}.
Arguments getTextClassificationPipeline {Pipeline}.
Arguments unloadable {Pipeline}.
Arguments slotOf {Pipeline}.

(** ** Vocabulary of the further properties *)

(** The characters of a token. *)
Definition word_char (c : ascii) : bool :=
  is_lower c || is_digit c || (nat_of_ascii c =? 45)%nat.

Definition is_ascii (c : ascii) : bool := (nat_of_ascii c <? 128)%nat.

(** The number of tokens that are in a word list. *)
Definition count_in (words : gset string) (tokens : list string) : Z :=
  Z.of_nat (List.length (List.filter (fun token => bool_decide (token ∈ words)) tokens)).

(** A sentiment whose label is the sign of its score. *)
Definition consistent (s : SentimentScore) : Prop :=
  s_label s = labelFromScore (s_score s).

(** The largest value among the entries of one class, and 0 without one. *)
Definition class_max (outputs : list (string * Q)) (s : Sentiment) : Q :=
  fold_right Qmax 0
    (List.map snd
       (List.filter (fun entry => Sentiment_eqb (mapModelLabel (fst entry)) s) outputs)).

(** The number of items of one sentiment class. *)
Definition count_of (s : Sentiment) (its : list SignalItem) : Z :=
  Z.of_nat (List.length (List.filter (fun it => Sentiment_eqb (sentiment it) s) its)).

(** The sentiment of an item, as the cache stores it. *)
Definition sentimentOf (it : SignalItem) : SentimentScore :=
  {| s_label := sentiment it; s_score := score it |}.

(** The counts and weights of a run against its items. *)
Definition totals_inv (r : Run) : Prop :=
  forall s,
    class_count (r_agg r) s = count_of s (r_items r)
    /\ 0.35 * inject_Z (class_count (r_agg r) s) <= class_weight (r_agg r) s
    /\ class_weight (r_agg r) s <= 2.6 * inject_Z (class_count (r_agg r) s).

(** The sentiment cache of a run against its items: no entry has expired,
    and the link of every item has the item's sentiment. *)
Definition cache_inv (nowMs : Z) (r : Run) : Prop :=
  (forall key entry, r_cache r !! key = Some entry -> (nowMs < ce_expiresAt entry)%Z)
  /\ (forall it, In it (r_items r) ->
        exists entry, r_cache r !! link it = Some entry
                      /\ ce_score entry = sentimentOf it).

(** The entries of the starting cache are still in the cache of the run. *)
Definition keeps_start (nowMs : Z) (start : gmap string CacheEntry) (r : Run) : Prop :=
  cache_inv nowMs r
  /\ forall key entry, start !! key = Some entry -> r_cache r !! key = Some entry.

Definition consistent_inv (r : Run) : Prop :=
  (forall key entry, r_cache r !! key = Some entry -> consistent (ce_score entry))
  /\ Forall (fun it => consistent (sentimentOf it)) (r_items r).

(** The fields of an item of a run. *)
Definition item_ok `{Platform} (now windowMinutes : Z) (it : SignalItem) : Prop :=
  truthy (title it) = true /\ truthy (link it) = true /\ truthy (source it) = true
  /\ exists date, pubDate it = toISOString date
       /\ (date <= now)%Z /\ (now - date <= 60000 * windowMinutes)%Z.

(** [a] is published no earlier than [b]. *)
Definition not_older `{Platform} (a b : SignalItem) : Prop :=
  exists ta tb,
    Date_parse (pubDate a) = Some ta /\ Date_parse (pubDate b) = Some tb
    /\ (tb <= ta)%Z.

(** [it] is published at time [t]. *)
Definition published_at `{Platform} (t : Z) (it : SignalItem) : bool :=
  match Date_parse (pubDate it) with
  | Some t' => (t' =? t)%Z
  | None => false
  end.


(** ** Vocabulary of the properties that depend on rounding *)




(** No raw item of the computation has a source whose name is that of an
    inherited member of [Object.prototype]. *)
Definition plain_sources `{Platform} (cfg : Config) (w : World) : bool :=
  forallb (fun x => negb (inherited (rawSource x))) (raws cfg w).



(** C7 as it is written: for every time and every offset of a whole number
    of milliseconds, the start of the day is the time shifted, cut to UTC
    midnight and shifted back. *)
Definition start_of_day_by_shifting : Prop :=
  forall (now : Z) (offset : Q) (shift : Z),
    offset * 60 * 1000 == inject_Z shift ->
    computeTimezoneStartOfDay now (Some offset)
    = (utcMidnight (now + shift) - shift)%Z.


(** * Properties *)

(** ** Comparisons, [clamp] and rounding *)

Lemma ltb_true (a b : Q) : (a <? b) = true <-> a < b.
Proof. unfold ltb. destruct (Qlt_le_dec a b); split; intros; try easy; lra. Qed.
Lemma ltb_false (a b : Q) : (a <? b) = false <-> b <= a.
Proof. unfold ltb. destruct (Qlt_le_dec a b); split; intros; try easy; lra. Qed.
Lemma leb_true (a b : Q) : (a <=? b) = true <-> a <= b.
Proof. unfold leb. destruct (Qlt_le_dec b a); split; intros; try easy; lra. Qed.
Lemma leb_false (a b : Q) : (a <=? b) = false <-> b < a.
Proof. unfold leb. destruct (Qlt_le_dec b a); split; intros; try easy; lra. Qed.
Lemma eqb_true (a b : Q) : (a =? b) = true <-> a == b.
Proof. unfold eqb. destruct (Qeq_dec a b); split; intros; try easy. Qed.
Lemma eqb_false (a b : Q) : (a =? b) = false <-> ~ a == b.
Proof. unfold eqb. destruct (Qeq_dec a b); split; intros; try easy. Qed.

Ltac js_case c :=
  let E := fresh "E" in
  destruct c eqn:E;
  [ first [ apply ltb_true in E | apply leb_true in E | apply eqb_true in E ]
  | first [ apply ltb_false in E | apply leb_false in E | apply eqb_false in E ] ].

Lemma Qabs_spec (a : Q) : (0 <= a /\ Qabs a == a) \/ (a < 0 /\ Qabs a == - a).
Proof.
  destruct (Qlt_le_dec a 0).
  - right. split; [easy|]. apply Qabs_neg. lra.
  - left. split; [easy|]. apply Qabs_pos. easy.
Qed.

Ltac minmax_step t :=
  lazymatch t with
  | Qmax ?a ?b =>
    let x := fresh "mx" in
    let H := fresh "Hmx" in
    pose proof (Q.max_spec a b) as H; set (x := Qmax a b) in *; clearbody x
  | Qmin ?a ?b =>
    let x := fresh "mn" in
    let H := fresh "Hmn" in
    pose proof (Q.min_spec a b) as H; set (x := Qmin a b) in *; clearbody x
  | Qabs ?a =>
    let x := fresh "ab" in
    let H := fresh "Hab" in
    pose proof (Qabs_spec a) as H; set (x := Qabs a) in *; clearbody x
  end.

(** Replaces every [Qmax], [Qmin] and [Qabs] by a variable with its
    defining inequalities, for [lra]. *)
Ltac minmax :=
  repeat match goal with
  | |- context [Qabs ?a] => minmax_step (Qabs a)
  | _ : context [Qabs ?a] |- _ => minmax_step (Qabs a)
  | |- context [Qmax ?a ?b] => minmax_step (Qmax a b)
  | _ : context [Qmax ?a ?b] |- _ => minmax_step (Qmax a b)
  | |- context [Qmin ?a ?b] => minmax_step (Qmin a b)
  | _ : context [Qmin ?a ?b] |- _ => minmax_step (Qmin a b)
  end.

Lemma clamp_inside (lo hi x : Q) : lo <= x -> x <= hi -> clamp lo hi x == x.
Proof. intros. unfold clamp. minmax. lra. Qed.

Lemma clamp_bounds (lo hi x : Q) : lo <= hi -> lo <= clamp lo hi x <= hi.
Proof. intros. unfold clamp. minmax. lra. Qed.

Lemma clamp_mono (lo hi x y : Q) : x <= y -> clamp lo hi x <= clamp lo hi y.
Proof. intros. unfold clamp. minmax. lra. Qed.

#[global] Instance clamp_proper : Proper (Qeq ==> Qeq ==> Qeq ==> Qeq) clamp.
Proof. intros lo lo' Hlo hi hi' Hhi x y Hxy. unfold clamp. minmax. lra. Qed.

Lemma div_unit (m W : Q) : 0 < W -> 0 <= m -> m <= W -> 0 <= m / W <= 1.
Proof.
  intros HW H0 H1. split.
  - apply Qle_shift_div_l; lra.
  - apply Qle_shift_div_r; lra.
Qed.

Lemma div_mono (a b W : Q) : 0 < W -> a <= b -> a / W <= b / W.
Proof.
  intros HW Hab. apply Qle_shift_div_l; [easy|].
  assert (a / W * W == a) by (field; lra). lra.
Qed.

Lemma linearTimeDecay_inside (m W : Q) :
  1 <= W -> 0 <= m -> m <= W ->
  linearTimeDecay m W == 1 - 0.3 * (m / W).
Proof.
  intros HW H0 H1. unfold linearTimeDecay.
  assert (Qmax W 1 == W) as E1 by (apply Q.max_l; lra).
  assert (clamp 0 (Qmax W 1) m == m) as E2 by (apply clamp_inside; lra).
  pose proof (div_unit m W ltac:(lra) H0 H1) as Hd.
  rewrite clamp_inside.
  - rewrite E2, E1. lra.
  - rewrite E2, E1. lra.
  - rewrite E2, E1. lra.
Qed.

Lemma linearTimeDecay_as_spec (m W : Q) :
  1 <= W -> 0 <= m -> m <= W ->
  linearTimeDecay m W == clamp 0.7 1 (1 - 0.3 * clamp 0 1 (m / W)).
Proof.
  intros HW H0 H1.
  pose proof (div_unit m W ltac:(lra) H0 H1) as Hd.
  rewrite linearTimeDecay_inside by easy.
  rewrite (clamp_inside 0 1 (m / W)) by lra.
  rewrite clamp_inside; lra.
Qed.

Lemma decayWeight_inside (date now : Z) (W : Q) :
  0 <= toMinutesAgo date now -> toMinutesAgo date now <= W ->
  decayWeight date now W = linearTimeDecay (toMinutesAgo date now) W.
Proof.
  intros H0 H1. unfold decayWeight.
  js_case (toMinutesAgo date now <? 0); [lra|].
  js_case (toMinutesAgo date now >? W); [lra|]. reflexivity.
Qed.

Lemma decayWeight_outside (date now : Z) (W : Q) :
  toMinutesAgo date now < 0 \/ W < toMinutesAgo date now ->
  decayWeight date now W = 0.
Proof.
  intros Hout. unfold decayWeight.
  js_case (toMinutesAgo date now <? 0); [reflexivity|].
  js_case (toMinutesAgo date now >? W); [reflexivity|]. lra.
Qed.

Lemma toMinutesAgo_now (now : Z) : toMinutesAgo now now == 0.
Proof. unfold toMinutesAgo. rewrite Z.sub_diag. reflexivity. Qed.

(** C3: inside the window the decay weight is
    [clamp(0.7, 1, 1 - 0.3 * clamp(minutesAgo / W, 0, 1))], outside it is 0;
    it is 1 at age 0, 0.7 at age [W], and does not increase with age. *)
Theorem decay_weight_spec (W : Q) (HW : 1 <= W) :
  (forall m, 0 <= m -> m <= W ->
     linearTimeDecay m W == clamp 0.7 1 (1 - 0.3 * clamp 0 1 (m / W)))
  /\ (forall date now,
        let m := toMinutesAgo date now in
        (0 <= m -> m <= W ->
           decayWeight date now W == clamp 0.7 1 (1 - 0.3 * clamp 0 1 (m / W)))
        /\ (m < 0 \/ W < m -> decayWeight date now W = 0))
  /\ linearTimeDecay 0 W == 1
  /\ (forall now, decayWeight now now W == 1)
  /\ linearTimeDecay W W == 0.7
  /\ (forall date now, toMinutesAgo date now == W -> decayWeight date now W == 0.7)
  /\ (forall m1 m2, 0 <= m1 -> m1 <= m2 -> m2 <= W ->
        linearTimeDecay m2 W <= linearTimeDecay m1 W)
  /\ (forall d1 d2 now,
        0 <= toMinutesAgo d1 now -> toMinutesAgo d1 now <= toMinutesAgo d2 now ->
        toMinutesAgo d2 now <= W ->
        decayWeight d2 now W <= decayWeight d1 now W).
Proof.
  assert (Hmono : forall m1 m2, 0 <= m1 -> m1 <= m2 -> m2 <= W ->
            linearTimeDecay m2 W <= linearTimeDecay m1 W).
  { intros m1 m2 H0 H12 H2.
    rewrite !linearTimeDecay_inside by lra.
    pose proof (div_mono m1 m2 W ltac:(lra) H12). lra. }
  assert (HW' : linearTimeDecay W W == 0.7).
  { rewrite linearTimeDecay_inside by lra.
    assert (W / W == 1) as -> by (field; lra). reflexivity. }
  repeat split.
  - intros. now apply linearTimeDecay_as_spec.
  - intros H0 H1. rewrite decayWeight_inside by easy.
    now apply linearTimeDecay_as_spec.
  - apply decayWeight_outside.
  - rewrite linearTimeDecay_inside by lra. unfold Qdiv. lra.
  - intros now. pose proof (toMinutesAgo_now now) as E.
    rewrite decayWeight_inside by lra.
    rewrite linearTimeDecay_inside by lra. rewrite E. unfold Qdiv. lra.
  - exact HW'.
  - intros date now E. rewrite decayWeight_inside by lra.
    rewrite linearTimeDecay_inside by lra. rewrite E.
    assert (W / W == 1) as -> by (field; lra). reflexivity.
  - exact Hmono.
  - intros d1 d2 now H0 H12 H2.
    rewrite !decayWeight_inside by lra. now apply Hmono.
Qed.

Lemma decay_weight_spec_witness :
  1 <= 330
  /\ linearTimeDecay 165 330 == clamp 0.7 1 (1 - 0.3 * clamp 0 1 (165 / 330))
  /\ decayWeight 1704077100000%Z 1704087000000%Z 330 == 0.85
  /\ decayWeight 1704087000001%Z 1704087000000%Z 330 = 0.
Proof.
  assert (H : 1 <= 330) by (vm_compute; discriminate).
  pose proof (decay_weight_spec 330 H) as (Ha & Hb & _).
  split; [exact H|]. split.
  - apply Ha; vm_compute; discriminate.
  - destruct (Hb 1704077100000%Z 1704087000000%Z) as [Hin _].
    destruct (Hb 1704087000001%Z 1704087000000%Z) as [_ Hout].
    split.
    + rewrite Hin; [vm_compute; reflexivity | vm_compute; discriminate ..].
    + apply Hout. left. vm_compute. reflexivity.
Defined.

(** ** The aggregator *)

Lemma buildResponse_fields W tz gen its (p n u : Q) (pc nc uc : Z) :
  let r := buildResponse W tz gen its p n u pc nc uc in
  windowMinutes r = W /\ timezoneOffsetMinutes r = tz /\ generatedAt r = gen
  /\ counts r = {| c_positive := pc; c_negative := nc; c_neutral := uc |}
  /\ weights r = {| posW := p; negW := n; neuW := u |}
  /\ longPct r = (if p + n >? 0 then Math_round (p / (p + n) * 100) else 0%Z)
  /\ shortPct r = (if p + n >? 0 then (100 - Math_round (p / (p + n) * 100))%Z else 0%Z)
  /\ recommendation r =
       (if p >? n * 1.05 then LONG else if n >? p * 1.05 then SHORT else NEUTRAL)
  /\ items r = its.
Proof.
  unfold buildResponse.
  destruct (p + n >? 0); [|destruct (p + n + u >? 0)]; repeat split.
Qed.

Example aggregator_60_40 W tz gen its u pc nc uc :
  let r := buildResponse W tz gen its 60 40 u pc nc uc in
  longPct r = 60%Z /\ shortPct r = 40%Z /\ recommendation r = LONG.
Proof. repeat split. Qed.

Example aggregator_50_49 W tz gen its u pc nc uc :
  recommendation (buildResponse W tz gen its 50 49 u pc nc uc) = NEUTRAL.
Proof. reflexivity. Qed.

(** ** The lexicon scorer on the examples of the specification *)

Example lexicon_negative :
  scoreSentimentLexicon "hack exploit stolen funds" ""
  = {| s_label := negative; s_score := -3 |}.
Proof. vm_compute. reflexivity. Qed.

Example lexicon_positive :
  scoreSentimentLexicon "bitcoin rally bull surge" ""
  = {| s_label := positive; s_score := 3 |}.
Proof. vm_compute. reflexivity. Qed.

(** ** Signs and labels *)

Lemma Math_sign_pos (x : Q) : 0 < x -> Math_sign x = 1.
Proof. intros. unfold Math_sign. destruct (Qlt_le_dec 0 x); [reflexivity | lra]. Qed.

Lemma Math_sign_neg (x : Q) : x < 0 -> Math_sign x = -1.
Proof.
  intros. unfold Math_sign. destruct (Qlt_le_dec 0 x); [lra|].
  destruct (Qlt_le_dec x 0); [reflexivity | lra].
Qed.

Lemma labelFromScore_pos (x : Q) : 0 < x -> labelFromScore x = positive.
Proof. intros. unfold labelFromScore. js_case (x >? 0); [reflexivity | lra]. Qed.

Lemma labelFromScore_neg (x : Q) : x < 0 -> labelFromScore x = negative.
Proof.
  intros. unfold labelFromScore. js_case (x >? 0); [lra|].
  js_case (x <? 0); [reflexivity | lra].
Qed.

Lemma Sentiment_eqb_neutral (s : Sentiment) :
  Sentiment_eqb s neutral = true <-> s = neutral.
Proof. destruct s; split; intros; easy. Qed.

(** ** The model scorer *)

(** What [sentimentOfProbs] computes: neutral exactly for a difference below
    0.05, otherwise the direction of the difference with magnitude at least
    0.5.  The strongest probability does not enter. *)
Lemma sentimentOfProbs_cases (probs : Probs) :
  let diff := p_positive probs - p_negative probs in
  (Qabs diff < 0.05 ->
     sentimentOfProbs probs = {| s_label := neutral; s_score := 0 |})
  /\ (0.05 <= diff ->
        sentimentOfProbs probs
        = {| s_label := positive; s_score := Qmax 0.5 (diff * 5) |})
  /\ (diff <= -0.05 ->
        sentimentOfProbs probs
        = {| s_label := negative; s_score := - Qmax 0.5 (Qabs diff * 5) |}).
Proof.
  intros diff. unfold sentimentOfProbs. fold diff.
  set (low := (_ <? 0.4) || _).
  set (neu := (_ >=? 0.4) && _ && _).
  split; [|split]; intros Hd.
  - assert ((Qabs diff <? 0.05) = true) as E by (now apply ltb_true).
    subst low. rewrite E, orb_true_r. now destruct neu.
  - assert ((Qabs diff <? 0.05) = false) as E by (apply ltb_false; minmax; lra).
    assert (neu && low = false) as En.
    { subst neu low. rewrite E, orb_false_r.
      js_case (p_neutral probs >=? 0.4); [|reflexivity].
      js_case (p_neutral probs >=? p_positive probs); [|reflexivity].
      js_case (p_neutral probs >=? p_negative probs); [|reflexivity].
      cbn. apply ltb_false. minmax. lra. }
    assert ((diff >? 0) = true) as Ep by (apply ltb_true; lra).
    rewrite E, Ep. destruct low; [|reflexivity].
    destruct neu; [discriminate | reflexivity].
  - assert ((Qabs diff <? 0.05) = false) as E by (apply ltb_false; minmax; lra).
    assert (neu && low = false) as En.
    { subst neu low. rewrite E, orb_false_r.
      js_case (p_neutral probs >=? 0.4); [|reflexivity].
      js_case (p_neutral probs >=? p_positive probs); [|reflexivity].
      js_case (p_neutral probs >=? p_negative probs); [|reflexivity].
      cbn. apply ltb_false. minmax. lra. }
    assert ((diff >? 0) = false) as Ep by (apply ltb_false; lra).
    assert ((diff <? 0) = true) as Eq by (apply ltb_true; lra).
    rewrite E, Ep, Eq. destruct low; [|reflexivity].
    destruct neu; [discriminate | reflexivity].
Qed.

Lemma sentimentOfProbs_consistent (probs : Probs) :
  s_label (sentimentOfProbs probs) = labelFromScore (s_score (sentimentOfProbs probs)).
Proof.
  destruct (sentimentOfProbs_cases probs) as (Hz & Hp & Hn).
  set (diff := p_positive probs - p_negative probs) in *.
  destruct (Qlt_le_dec (Qabs diff) 0.05) as [Hsmall|Hbig].
  - rewrite (Hz Hsmall). reflexivity.
  - destruct (Qlt_le_dec diff 0) as [Hneg|Hpos].
    + rewrite Hn by (revert Hbig; minmax; lra). cbn [s_label s_score].
      symmetry. apply labelFromScore_neg. minmax. lra.
    + rewrite Hp by (revert Hbig; minmax; lra). cbn [s_label s_score].
      symmetry. apply labelFromScore_pos. minmax. lra.
Qed.

(** C2: a classifier output whose strongest class stays below 0.4 is still
    scored as directional when the positive and negative probabilities
    differ by 0.05 or more; for the probabilities 0.38, 0.32 and 0.30 the
    model result, and with it the sentiment of a text without keywords, is
    [positive] with score 0.5, not [neutral] with score 0. *)
Theorem low_confidence_is_directional (probs : Probs)
  (Hlow : strongest probs < 0.4)
  (Hdiff : 0.05 <= Qabs (p_positive probs - p_negative probs)) :
  s_label (sentimentOfProbs probs) <> neutral
  /\ 0.5 <= Qabs (s_score (sentimentOfProbs probs))
  /\ (let answering := Reference.scripted (fun _ _ => Some Sample.lowConfidence) in
      strongest (collectProbs Sample.lowConfidence) < 0.4
      /\ scoreSentimentModel (H := answering) "Markets await the decision" finbert
         = Some {| s_label := positive; s_score := 0.5 |}
      /\ scoreSentiment (H := answering) Sample.cfgTransformers
           "Markets await the decision" ""
         = {| s_label := positive; s_score := 0.5 |}).
Proof.
  destruct (sentimentOfProbs_cases probs) as (_ & Hp & Hn).
  split; [|split; [|repeat split]].
  - destruct (Qlt_le_dec (p_positive probs - p_negative probs) 0).
    + rewrite Hn by (minmax; lra). discriminate.
    + rewrite Hp by (minmax; lra). discriminate.
  - destruct (Qlt_le_dec (p_positive probs - p_negative probs) 0).
    + rewrite Hn by (minmax; lra). cbn [s_score]. minmax. lra.
    + rewrite Hp by (minmax; lra). cbn [s_score]. minmax. lra.
Qed.

Lemma low_confidence_is_directional_witness :
  let probs := {| p_positive := 0.38; p_negative := 0.32; p_neutral := 0.30 |} in
  strongest probs < 0.4
  /\ 0.05 <= Qabs (p_positive probs - p_negative probs)
  /\ s_label (sentimentOfProbs probs) <> neutral.
Proof.
  intros probs.
  assert (Hlow : strongest probs < 0.4) by reflexivity.
  assert (Hdiff : 0.05 <= Qabs (p_positive probs - p_negative probs))
    by (vm_compute; discriminate).
  split; [exact Hlow|]. split; [exact Hdiff|].
  exact (proj1 (low_confidence_is_directional probs Hlow Hdiff)).
Defined.

(** ** The combiner *)

(** C4: the combined sentiment is the lexicon score without a model score;
    the lexicon score when the model is neutral and the lexicon score is not
    zero; the model score when the lexicon score is zero; for two non-zero
    scores of one sign, that sign times the larger magnitude; for opposite
    signs, whichever of the two has the larger magnitude.  The last two
    cases are those of a model score that is not neutral, as every model
    score other than zero is. *)
Theorem combine_sentiments_spec (L : SentimentScore) :
  combineSentiments None L = L
  /\ (forall M, s_label M = neutral -> ~ s_score L == 0 ->
        combineSentiments (Some M) L = L)
  /\ (forall M, s_score L == 0 -> combineSentiments (Some M) L = M)
  /\ (forall M, s_label M <> neutral ->
        0 < s_score M -> 0 < s_score L ->
        let c := combineSentiments (Some M) L in
        s_label c = positive
        /\ s_score c == Qmax (Qabs (s_score M)) (Qabs (s_score L))
        /\ s_score c == Qmax (s_score M) (s_score L))
  /\ (forall M, s_label M <> neutral ->
        s_score M < 0 -> s_score L < 0 ->
        let c := combineSentiments (Some M) L in
        s_label c = negative
        /\ s_score c == - Qmax (Qabs (s_score M)) (Qabs (s_score L))
        /\ s_score c == Qmin (s_score M) (s_score L))
  /\ (forall M, s_label M <> neutral ->
        (0 < s_score M /\ s_score L < 0) \/ (s_score M < 0 /\ 0 < s_score L) ->
        (Qabs (s_score L) < Qabs (s_score M) -> combineSentiments (Some M) L = M)
        /\ (Qabs (s_score M) < Qabs (s_score L) -> combineSentiments (Some M) L = L))
  /\ (forall probs,
        ~ s_score (sentimentOfProbs probs) == 0 ->
        s_label (sentimentOfProbs probs) <> neutral)
  /\ combineSentiments (Some {| s_label := neutral; s_score := 0 |})
                       {| s_label := positive; s_score := 2 |}
     = {| s_label := positive; s_score := 2 |}
  /\ combineSentiments (Some {| s_label := negative; s_score := -1.2 |})
                       {| s_label := neutral; s_score := 0 |}
     = {| s_label := negative; s_score := -1.2 |}
  /\ combineSentiments (Some {| s_label := negative; s_score := -3 |})
                       {| s_label := positive; s_score := 1 |}
     = {| s_label := negative; s_score := -3 |}.
Proof.
  split; [reflexivity|].
  split.
  { intros M HM HL. unfold combineSentiments.
    apply Sentiment_eqb_neutral in HM. rewrite HM.
    apply eqb_false in HL. rewrite HL. reflexivity. }
  split.
  { intros M HL. unfold combineSentiments.
    apply eqb_true in HL. rewrite HL.
    rewrite andb_false_r. reflexivity. }
  assert (Hnn : forall M, s_label M <> neutral -> Sentiment_eqb (s_label M) neutral = false).
  { intros M HM. destruct (Sentiment_eqb (s_label M) neutral) eqn:E; [|reflexivity].
    apply Sentiment_eqb_neutral in E. contradiction. }
  split.
  { intros M HM Hm Hl c. subst c. unfold combineSentiments.
    rewrite (Hnn M HM). cbn [andb].
    js_case (s_score L =? 0); [lra|].
    rewrite (Math_sign_pos _ Hm), (Math_sign_pos _ Hl).
    cbn [s_label s_score]. unfold or_number.
    destruct (Qeq_dec (s_score M) 0); [lra|].
    replace (1 =? 1) with true by reflexivity.
    rewrite (Math_sign_pos _ Hm). cbn [s_label s_score].
    assert (Hv : 1 * Qmax (Qabs (s_score M)) (Qabs (s_score L))
                 == Qmax (s_score M) (s_score L)).
    { minmax. lra. }
    split; [|split].
    - apply labelFromScore_pos. rewrite Hv. minmax. lra.
    - lra.
    - exact Hv. }
  split.
  { intros M HM Hm Hl c. subst c. unfold combineSentiments.
    rewrite (Hnn M HM). cbn [andb].
    js_case (s_score L =? 0); [lra|].
    rewrite (Math_sign_neg _ Hm), (Math_sign_neg _ Hl).
    cbn [s_label s_score]. unfold or_number.
    destruct (Qeq_dec (s_score M) 0); [lra|].
    replace (-1 =? -1) with true by reflexivity.
    rewrite (Math_sign_neg _ Hm). cbn [s_label s_score].
    assert (Hv : -1 * Qmax (Qabs (s_score M)) (Qabs (s_score L))
                 == Qmin (s_score M) (s_score L)).
    { minmax. lra. }
    split; [|split].
    - apply labelFromScore_neg. rewrite Hv. minmax. lra.
    - lra.
    - exact Hv. }
  split.
  { intros M HM Hopp.
    assert (E0 : (s_score L =? 0) = false) by (apply eqb_false; lra).
    assert (Es : (Math_sign (s_score M) =? Math_sign (s_score L)) = false).
    { destruct Hopp as [[Hm Hl]|[Hm Hl]].
      - rewrite (Math_sign_pos _ Hm), (Math_sign_neg _ Hl). reflexivity.
      - rewrite (Math_sign_neg _ Hm), (Math_sign_pos _ Hl). reflexivity. }
    unfold combineSentiments. rewrite (Hnn M HM), E0, Es. cbn [andb].
    split; intros Hlt.
    - js_case (Qabs (s_score M) >=? Qabs (s_score L)); [reflexivity | lra].
    - js_case (Qabs (s_score M) >=? Qabs (s_score L)); [lra | reflexivity]. }
  split; [|repeat split].
  intros probs Hnz Hneu. apply Hnz.
  rewrite sentimentOfProbs_consistent in Hneu.
  unfold labelFromScore in Hneu.
  js_case (s_score (sentimentOfProbs probs) >? 0); [discriminate|].
  js_case (s_score (sentimentOfProbs probs) <? 0); [discriminate|]. lra.
Qed.

Lemma combine_sentiments_spec_witness :
  let L := {| s_label := positive; s_score := 1 |} in
  let M := {| s_label := positive; s_score := 2.5 |} in
  let N := {| s_label := negative; s_score := -0.5 |} in
  s_label (combineSentiments (Some M) L) = positive
  /\ s_score (combineSentiments (Some M) L) == 2.5
  /\ combineSentiments (Some N) L = L.
Proof.
  intros L M N.
  pose proof (combine_sentiments_spec L) as (_ & _ & _ & Hsame & _ & Hopp & _).
  assert (HM : s_label M <> neutral) by discriminate.
  assert (HN : s_label N <> neutral) by discriminate.
  assert (Hm : 0 < s_score M) by reflexivity.
  assert (Hl : 0 < s_score L) by reflexivity.
  destruct (Hsame M HM Hm Hl) as (Hlab & _ & Hsc).
  split; [exact Hlab|]. split.
  - rewrite Hsc. reflexivity.
  - apply (Hopp N HN).
    + right. split; reflexivity.
    + reflexivity.
Defined.

(** ** The two item loops *)

Lemma weightForSource_pos (source : string) : 0 < weightForSource source.
Proof.
  unfold weightForSource.
  destruct (SOURCE_WEIGHTS !! trim source) as [v|] eqn:E; [|reflexivity].
  cbn [default]. unfold SOURCE_WEIGHTS in E.
  apply elem_of_list_to_map_2 in E.
  repeat (apply elem_of_cons in E as [E|E]; [injection E as _ ->; reflexivity|]).
  inversion E.
Qed.

Lemma linearTimeDecay_bounds (m W : Q) : 0.7 <= linearTimeDecay m W <= 1.
Proof. unfold linearTimeDecay. apply clamp_bounds. lra. Qed.

Lemma decayWeight_nonneg (date now' : Z) (W : Q) : 0 <= decayWeight date now' W.
Proof.
  unfold decayWeight.
  destruct (_ || _); [lra|].
  pose proof (linearTimeDecay_bounds (toMinutesAgo date now') W). lra.
Qed.

Lemma decayWeight_window (date now' : Z) (W : Q) :
  0 <= toMinutesAgo date now' <= W -> 0.7 <= decayWeight date now' W <= 1.
Proof.
  intros [H0 H1]. rewrite decayWeight_inside by assumption.
  apply linearTimeDecay_bounds.
Qed.

Section Runs.

Context `{Platform}.
Variables (cfg : Config) (now nowMs windowMinutes : Z).

Lemma fold_left_flat_map {A B C} (f : A -> B -> A) (g : C -> list B) (l : list C) (a : A) :
  fold_left f (flat_map g l) a = fold_left (fun a c => fold_left f (g c) a) l a.
Proof.
  revert a. induction l as [|c l IH]; intros a; [reflexivity|].
  cbn. rewrite fold_left_app. apply IH.
Qed.

Lemma fold_left_map {A B C} (f : A -> B -> A) (g : C -> B) (l : list C) (a : A) :
  fold_left f (List.map g l) a = fold_left (fun a c => f a (g c)) l a.
Proof. revert a. induction l as [|c l IH]; intros a; [reflexivity|]. cbn. apply IH. Qed.

Lemma collect_as_fold (w : World) (cache : gmap string CacheEntry) :
  collect cfg now nowMs windowMinutes w cache
  = fold_left (step cfg now nowMs windowMinutes) (raws cfg w) (emptyRun cache).
Proof.
  unfold collect, raws. rewrite fold_left_app. fold (emptyRun cache).
  assert (Hrss : forall r,
            rssLoop cfg now nowMs windowMinutes (w_rssResults w) r
            = fold_left (step cfg now nowMs windowMinutes)
                (flat_map (fun result => match result with
                                         | Some feedItems => List.map RawRss feedItems
                                         | None => []
                                         end) (w_rssResults w)) r).
  { intros r. unfold rssLoop. rewrite fold_left_flat_map.
    revert r. induction (w_rssResults w) as [|res l IH]; intros r; [reflexivity|].
    cbn [fold_left]. rewrite IH. f_equal.
    destruct res; [|reflexivity]. now rewrite fold_left_map. }
  rewrite <- Hrss. unfold postLoop.
  destruct (CRYPTOPANIC_TOKEN cfg) as [token|]; [|reflexivity].
  destruct (w_cryptoPanic w) as [results|].
  - destruct (truthy token); [|reflexivity]. now rewrite fold_left_map.
  - now destruct (truthy token).
Qed.

Lemma withinWindow_object (d : Z) (W : Q) :
  withinWindow (DateObject (Some d)) now W
  = (toMinutesAgo d now >=? 0) && (toMinutesAgo d now <=? W).
Proof. reflexivity. Qed.

(** A raw item that fails the filters, or whose link was seen, is skipped. *)
Lemma step_skip (r : Run) (x : Raw) :
  admissible now windowMinutes x = false \/ rawLink x ∈ seen r ->
  step cfg now nowMs windowMinutes r x = r.
Proof.
  intros Hskip. unfold admissible in Hskip.
  destruct x as [item|post]; cbn [step].
  - unfold rssItemStep. cbn [rawLink rawDate] in Hskip.
    set (link := normalizeLink _) in *.
    destruct (truthy link); [|reflexivity]. cbn [negb orb andb] in *.
    case_bool_decide as Hseen; [reflexivity|].
    destruct Hskip as [Hskip|Hin]; [|contradiction].
    unfold withinWindow.
    destruct (or_opt (rss_pubDate item) (rss_isoDate item)) as [s|]; [|reflexivity].
    destruct (toDate (DateOfString s)) as [d|]; [|reflexivity].
    rewrite Hskip. reflexivity.
  - unfold postStep. cbn [rawLink rawDate] in Hskip.
    set (link := normalizeLink _) in *.
    destruct (truthy link); [|reflexivity]. cbn [negb orb andb] in *.
    case_bool_decide as Hseen; [reflexivity|].
    destruct Hskip as [Hskip|Hin]; [|contradiction].
    destruct (post_published_at post) as [s|]; [|reflexivity].
    cbn [toDate] in *. destruct (truthy s); [|reflexivity].
    destruct (Date_parse s) as [d|]; [|reflexivity].
    rewrite withinWindow_object, Hskip. reflexivity.
Qed.

(** A raw item that passes the filters and whose link is new is admitted,
    with the weight factor of its source and age. *)
Lemma step_admit (r : Run) (x : Raw) :
  admissible now windowMinutes x = true -> rawLink x ∉ seen r ->
  exists date title sentimentResult cache,
    rawDate x = Some date
    /\ 0 <= toMinutesAgo date now <= inject_Z windowMinutes
    /\ step cfg now nowMs windowMinutes r x
       = admitItem (rawLink x) title (toISOString date) (rawSource x)
           sentimentResult
           (weightForSource (rawSource x) * decayWeight date now (inject_Z windowMinutes))
           cache r.
Proof.
  intros Hadm Hnew. unfold admissible in Hadm.
  apply andb_prop in Hadm as [Hlink Hdate].
  destruct (rawDate x) as [d|] eqn:Ed; [|discriminate].
  assert (Hin : 0 <= toMinutesAgo d now <= inject_Z windowMinutes).
  { apply andb_prop in Hdate as [H0 H1].
    apply leb_true in H0, H1. split; assumption. }
  exists d.
  destruct x as [item|post]; cbn [step rawLink rawDate rawSource] in *.
  - unfold rssItemStep. set (link := normalizeLink _) in *.
    rewrite Hlink. cbn [negb orb].
    rewrite bool_decide_eq_false_2 by assumption.
    unfold withinWindow.
    destruct (or_opt (rss_pubDate item) (rss_isoDate item)) as [s|]; [|discriminate].
    rewrite Ed, Hdate. cbn [negb].
    destruct (cachedOrScored _ _ _ _ _ _) as [sr cache] eqn:Ec.
    eexists _, sr, cache. split; [reflexivity|]. split; [exact Hin|]. reflexivity.
  - unfold postStep. set (link := normalizeLink _) in *.
    rewrite Hlink. cbn [negb orb].
    rewrite bool_decide_eq_false_2 by assumption.
    destruct (post_published_at post) as [s|]; [|discriminate].
    assert (Et : truthy s = true).
    { cbn [toDate] in Ed. destruct (truthy s); [reflexivity | discriminate]. }
    rewrite Et, Ed, withinWindow_object, Hdate. cbn [negb].
    destruct (cachedOrScored _ _ _ _ _ _) as [sr cache] eqn:Ec.
    eexists _, sr, cache. split; [reflexivity|]. split; [exact Hin|]. reflexivity.
Qed.

Lemma admitItem_fields
    (l t iso src : string) (sr : SentimentScore) (wf : Q)
    (cache : gmap string CacheEntry) (r : Run) :
  let r' := admitItem l t iso src sr wf cache r in
  seen r' = {[ l ]} ∪ seen r
  /\ r_items r'
     = r_items r ++
       [ {| title := t; link := l; pubDate := iso; source := src;
            sentiment := s_label sr; score := s_score sr;
            weight := toFixed4 (s_score sr * wf) |} ]
  /\ r_agg r' = fst (accumulate (s_label sr) (s_score sr) wf (r_agg r))
  /\ r_cache r' = cache.
Proof. repeat split. Qed.

Lemma accumulate_nonneg (s : Sentiment) (sc wf : Q) (a : Aggregate) :
  0 <= wf ->
  0 <= a_posW a -> 0 <= a_negW a -> 0 <= a_neuW a ->
  let a' := fst (accumulate s sc wf a) in
  0 <= a_posW a' /\ 0 <= a_negW a' /\ 0 <= a_neuW a'.
Proof.
  intros Hwf Hp Hn Hu.
  assert (Hc : 0 <= clamp 0.5 2.0 (Qabs sc) * wf).
  { pose proof (clamp_bounds 0.5 2.0 (Qabs sc) ltac:(lra)) as [Hlo _].
    apply Qmult_le_0_compat; lra. }
  destruct s; cbn; repeat split; lra.
Qed.

Lemma step_inv (r : Run) (x : Raw) :
  run_inv r -> run_inv (step cfg now nowMs windowMinutes r x).
Proof.
  intros (Hseen & Hnd & Hp & Hn & Hu).
  destruct (admissible now windowMinutes x) eqn:Ea;
    [|rewrite step_skip by (now left); repeat split; assumption].
  destruct (decide (rawLink x ∈ seen r)) as [Hin|Hnew];
    [rewrite step_skip by (now right); repeat split; assumption|].
  destruct (step_admit r x Ea Hnew) as (d & t & sr & cache & _ & Hwin & ->).
  unfold run_inv.
  destruct (admitItem_fields (rawLink x) t (toISOString d) (rawSource x) sr
              (weightForSource (rawSource x) * decayWeight d now (inject_Z windowMinutes))
              cache r) as (-> & -> & -> & _).
  split; [|split].
  - rewrite Hseen, List.map_app, list_to_set_app_L. cbn.
    rewrite union_empty_r_L. apply (comm_L (∪)).
  - rewrite List.map_app. cbn. apply NoDup_app. split; [assumption|]. split.
    + intros l Hl Hl'. apply list_elem_of_singleton in Hl'. subst l.
      apply Hnew. rewrite Hseen. now apply elem_of_list_to_set.
    + apply NoDup_singleton.
  - apply accumulate_nonneg; try assumption.
    apply Qmult_le_0_compat.
    + pose proof (weightForSource_pos (rawSource x)). lra.
    + apply decayWeight_nonneg.
Qed.

Lemma fold_inv (l : list Raw) (r : Run) :
  run_inv r -> run_inv (fold_left (step cfg now nowMs windowMinutes) l r).
Proof.
  revert r. induction l as [|x l IH]; intros r Hr; [assumption|].
  cbn. apply IH. now apply step_inv.
Qed.

Lemma emptyRun_inv (cache : gmap string CacheEntry) : run_inv (emptyRun cache).
Proof. repeat split; cbn; try lra. apply NoDup_nil_2. Qed.

(** The links [seen] after a prefix of raw items: those of its admissible
    members. *)
Lemma seen_fold (l : list Raw) (r : Run) (k : string) :
  k ∈ seen (fold_left (step cfg now nowMs windowMinutes) l r)
  <-> k ∈ seen r
      \/ exists y, y ∈ l /\ admissible now windowMinutes y = true /\ rawLink y = k.
Proof.
  revert r. induction l as [|x l IH]; intros r; cbn [fold_left].
  - split; [now left|]. intros [Hk|(y & Hy & _)]; [assumption|]. inversion Hy.
  - rewrite IH. clear IH.
    destruct (admissible now windowMinutes x) eqn:Ea.
    + destruct (decide (rawLink x ∈ seen r)) as [Hin|Hnew].
      * rewrite step_skip by (now right). split.
        -- intros [Hk|(y & Hy & Hay & Hly)]; [now left|].
           right. exists y. split; [apply elem_of_cons; now right | easy].
        -- intros [Hk|(y & Hy & Hay & Hly)]; [now left|].
           apply elem_of_cons in Hy as [->|Hy].
           ++ left. now rewrite <- Hly.
           ++ right. now exists y.
      * destruct (step_admit r x Ea Hnew) as (d & t & sr & cache & _ & _ & ->).
        cbn [admitItem seen]. unfold admitItem.
        destruct (accumulate _ _ _ _) as [agg fw]. cbn [seen].
        split.
        -- intros [Hk|(y & Hy & Hay & Hly)].
           ++ apply elem_of_union in Hk as [Hk|Hk]; [|now left].
              apply elem_of_singleton in Hk. subst k.
              right. exists x. split; [apply elem_of_cons; now left | easy].
           ++ right. exists y. split; [apply elem_of_cons; now right | easy].
        -- intros [Hk|(y & Hy & Hay & Hly)].
           ++ left. set_solver.
           ++ apply elem_of_cons in Hy as [->|Hy].
              ** left. set_solver.
              ** right. now exists y.
    + rewrite step_skip by (now left). split.
      * intros [Hk|(y & Hy & Hay & Hly)]; [now left|].
        right. exists y. split; [apply elem_of_cons; now right | easy].
      * intros [Hk|(y & Hy & Hay & Hly)]; [now left|].
        apply elem_of_cons in Hy as [->|Hy]; [congruence|].
        right. now exists y.
Qed.

Lemma sort_insert_perm (cmp : SignalItem -> SignalItem -> Z) (x : SignalItem) l :
  Permutation (sort_insert cmp x l) (x :: l).
Proof.
  induction l as [|y l IH]; cbn; [reflexivity|].
  destruct (cmp x y <=? 0)%Z; [reflexivity|].
  rewrite IH. apply perm_swap.
Qed.

Lemma Array_sort_perm (cmp : SignalItem -> SignalItem -> Z) l :
  Permutation (Array_sort cmp l) l.
Proof.
  induction l as [|x l IH]; cbn; [reflexivity|].
  fold (Array_sort cmp l). rewrite sort_insert_perm. now constructor.
Qed.

Lemma accumulate_class (s : Sentiment) (sc wf : Q) (a : Aggregate) :
  let a' := fst (accumulate s sc wf a) in
  class_weight a' s = class_weight a s + clamp 0.5 2.0 (Qabs sc) * wf
  /\ class_count a' s = (class_count a s + 1)%Z
  /\ (forall s', s' <> s ->
        class_weight a' s' = class_weight a s' /\ class_count a' s' = class_count a s').
Proof.
  destruct s; (split; [reflexivity|]; split; [reflexivity|]);
    intros [] Hne; try contradiction; split; reflexivity.
Qed.

End Runs.

(** ** Rounding to four decimals *)


(** ** One computation *)

Lemma buildResponse_items W tz gen its (p n u : Q) (pc nc uc : Z) :
  items (buildResponse W tz gen its p n u pc nc uc) = its.
Proof. apply buildResponse_fields. Qed.

Lemma buildResponse_weights W tz gen its (p n u : Q) (pc nc uc : Z) :
  weights (buildResponse W tz gen its p n u pc nc uc)
  = {| posW := p; negW := n; neuW := u |}.
Proof. apply buildResponse_fields. Qed.

Lemma recompute_response `{Platform} (cfg : Config) (g : Globals) (w : World) (W : Z) :
  let r := collect cfg (w_now w) (w_now w) W w
             (cleanupSentimentCache (w_now w) (sentimentCache g)) in
  snd (recompute cfg g w W)
  = Json 200
      (buildResponse W
         (match TIMEZONE_OFFSET_MINUTES cfg with Some o => o | None => 0 end)
         (toISOString (w_built w))
         (Array_sort byPubDateDesc (r_items r))
         (a_posW (r_agg r)) (a_negW (r_agg r)) (a_neuW (r_agg r))
         (a_posCount (r_agg r)) (a_negCount (r_agg r)) (a_neuCount (r_agg r))).
Proof. reflexivity. Qed.

(** C6, as the code has it: the links of the output items are pairwise
    distinct; the raw items are met feed by feed, all feeds before the
    CryptoPanic posts; an item is skipped when it fails the link and window
    filters or when an earlier item that passed them has the same normalized
    link; the first item of a link that passes them contributes one output
    item and one count. *)
Theorem first_admissible_only `{Platform} (cfg : Config) (g : Globals) (w : World) (W : Z) :
  let stepW := step cfg (w_now w) (w_now w) W in
  let start := emptyRun (cleanupSentimentCache (w_now w) (sentimentCache g)) in
  (exists p,
     snd (recompute cfg g w W) = Json 200 p
     /\ NoDup (List.map link (items p))
     /\ Permutation (items p) (r_items (fold_left stepW (raws cfg w) start)))
  /\ forall pre x post,
       raws cfg w = pre ++ x :: post ->
       let r := fold_left stepW pre start in
       ((exists y, y ∈ pre /\ admissible (w_now w) W y = true
                   /\ rawLink y = rawLink x) ->
          stepW r x = r)
       /\ (admissible (w_now w) W x = false -> stepW r x = r)
       /\ (admissible (w_now w) W x = true ->
             (forall y, y ∈ pre -> admissible (w_now w) W y = true ->
                        rawLink y <> rawLink x) ->
             exists it,
               r_items (stepW r x) = r_items r ++ [it]
               /\ link it = rawLink x
               /\ class_count (r_agg (stepW r x)) (sentiment it)
                  = (class_count (r_agg r) (sentiment it) + 1)%Z).
Proof.
  intros stepW start. split.
  - eexists. split; [apply recompute_response|].
    rewrite buildResponse_items.
    rewrite collect_as_fold. fold start. fold stepW.
    pose proof (fold_inv cfg (w_now w) (w_now w) W (raws cfg w) start
                  (emptyRun_inv _)) as (_ & Hnd & _).
    split.
    + rewrite (Permutation_map link (Array_sort_perm byPubDateDesc _)).
      exact Hnd.
    + apply Array_sort_perm.
  - intros pre x post _ r. split; [|split].
    + intros (y & Hy & Hay & Hly). apply step_skip. right.
      apply seen_fold. right. now exists y.
    + intros Hx. apply step_skip. now left.
    + intros Hx Hfirst.
      assert (Hnew : rawLink x ∉ seen r).
      { intros Hin. apply seen_fold in Hin as [Hin|(y & Hy & Hay & Hly)].
        - cbn in Hin. now apply elem_of_empty in Hin.
        - now apply (Hfirst y). }
      destruct (step_admit cfg (w_now w) (w_now w) W r x Hx Hnew)
        as (d & t & sr & cache & _ & _ & E).
      unfold stepW. rewrite E.
      eexists. split; [reflexivity|]. split; [reflexivity|].
      cbn [sentiment].
      destruct (admitItem_fields (rawLink x) t (toISOString d) (rawSource x) sr
                  (weightForSource (rawSource x)
                   * decayWeight d (w_now w) (inject_Z W)) cache r)
        as (_ & _ & -> & _).
      apply accumulate_class.
Qed.

Lemma first_admissible_only_witness :
  let stepW := @step Reference.platform Sample.cfg Sample.now Sample.now 330 in
  let start := emptyRun (cleanupSentimentCache Sample.now ∅) in
  let pre := [RawRss Sample.undated; RawRss Sample.dated] in
  let x := RawRss Sample.repeated in
  rawLink (H := Reference.platform) (RawRss Sample.dated)
  = rawLink (H := Reference.platform) x
  /\ stepW (fold_left stepW pre start) x = fold_left stepW pre start.
Proof.
  intros stepW start pre x.
  assert (Hlink : @rawLink Reference.platform (RawRss Sample.dated)
                  = @rawLink Reference.platform x) by (vm_compute; reflexivity).
  split; [exact Hlink|].
  destruct (@first_admissible_only Reference.platform
              Sample.cfg Sample.globals Sample.world 330) as [_ Hsteps].
  destruct (Hsteps pre x [] eq_refl) as [Hdup _].
  apply Hdup. exists (RawRss Sample.dated). split; [|split].
  - apply elem_of_cons. right. apply elem_of_cons. now left.
  - vm_compute. reflexivity.
  - exact Hlink.
Defined.

(** C6, as stated, fails: an undated item is skipped without entering
    [seen], and a later item of the same normalized link is admitted. *)
Lemma first_encountered_only_counterexample :
  ~ @first_encountered_only Reference.platform.
Proof.
  intros Hclaim.
  specialize (Hclaim Sample.cfg Sample.now Sample.now 330%Z ∅ []
                (RawRss Sample.undated) [] (RawRss Sample.dated)).
  assert (Hlink : @rawLink Reference.platform (RawRss Sample.undated)
                  = @rawLink Reference.platform (RawRss Sample.dated))
    by (vm_compute; reflexivity).
  specialize (Hclaim Hlink).
  apply (f_equal (fun r => List.length (r_items r))) in Hclaim.
  vm_compute in Hclaim. discriminate.
Qed.





(** ** The response cache *)

Lemma handler_get `{Platform} (cfg : Config) (g : Globals) (w : World) (req : Request) :
  req_method req = "GET"%string ->
  handler cfg g w req
  = let windowMinutes := computeWindowMinutes (w_now w) (TIMEZONE_OFFSET_MINUTES cfg) in
    match responseCache g with
    | Some rc =>
      if (RESPONSE_CACHE_TTL_MS cfg >? 0)
         && negb (match req_query req !! "force"%string with
                  | Some _ => true
                  | None => false
                  end)
         && (inject_Z (w_now w - rc_timestamp rc) <? RESPONSE_CACHE_TTL_MS cfg)
      then (g, Json 200
                 (withWindow (rc_payload rc) windowMinutes
                    (match TIMEZONE_OFFSET_MINUTES cfg with
                     | Some o => o
                     | None => timezoneOffsetMinutes (rc_payload rc)
                     end)))
      else recompute cfg g w windowMinutes
    | None => recompute cfg g w windowMinutes
    end.
Proof. intros E. unfold handler. rewrite E. reflexivity. Qed.

Lemma recompute_cache `{Platform} (cfg : Config) (g : Globals) (w : World) (W : Z) :
  0 < RESPONSE_CACHE_TTL_MS cfg ->
  exists p,
    snd (recompute cfg g w W) = Json 200 p
    /\ responseCache (fst (recompute cfg g w W))
       = Some {| rc_timestamp := w_now w; rc_payload := p |}
    /\ windowMinutes p = W
    /\ timezoneOffsetMinutes p = configuredOffset cfg
    /\ generatedAt p = toISOString (w_built w).
Proof.
  intros Httl. eexists. split; [apply recompute_response|].
  split; [|split; [|split]].
  - unfold recompute. cbn [fst responseCache].
    apply ltb_true in Httl. rewrite Httl. reflexivity.
  - apply buildResponse_fields.
  - apply buildResponse_fields.
  - apply buildResponse_fields.
Qed.

(** C9: on a hit of the response cache the payload is the cached one in
    every field but [windowMinutes], computed from the current time, and
    [timezoneOffsetMinutes], taken from the configuration; the module state
    is left as it was.  A payload cached by a computation under the same
    configuration already carries that offset. *)
Theorem cache_hit_returns_snapshot `{Platform}
    (cfg : Config) (g : Globals) (w : World) (req : Request) (rc : ResponseCache)
    (Hget : req_method req = "GET"%string)
    (Httl : 0 < RESPONSE_CACHE_TTL_MS cfg)
    (Hforce : req_query req !! "force"%string = None)
    (Hslot : responseCache g = Some rc)
    (Hfresh : inject_Z (w_now w - rc_timestamp rc) < RESPONSE_CACHE_TTL_MS cfg) :
  exists p,
    handler cfg g w req = (g, Json 200 p)
    /\ windowMinutes p
       = computeWindowMinutes (w_now w) (TIMEZONE_OFFSET_MINUTES cfg)
    /\ (forall o, TIMEZONE_OFFSET_MINUTES cfg = Some o -> timezoneOffsetMinutes p = o)
    /\ (timezoneOffsetMinutes (rc_payload rc) = configuredOffset cfg ->
        timezoneOffsetMinutes p = configuredOffset cfg)
    /\ generatedAt p = generatedAt (rc_payload rc)
    /\ counts p = counts (rc_payload rc)
    /\ weights p = weights (rc_payload rc)
    /\ longPct p = longPct (rc_payload rc)
    /\ shortPct p = shortPct (rc_payload rc)
    /\ recommendation p = recommendation (rc_payload rc)
    /\ items p = items (rc_payload rc).
Proof.
  eexists. split.
  - rewrite handler_get by assumption. rewrite Hslot, Hforce.
    apply ltb_true in Httl, Hfresh. rewrite Httl, Hfresh. reflexivity.
  - cbn. repeat split.
    + intros o ->. reflexivity.
    + unfold configuredOffset. now destruct (TIMEZONE_OFFSET_MINUTES cfg).
Qed.

Example sample_first_request :
  snd (handler (H := Reference.platform) Sample.cfg Sample.globals Sample.earlier Sample.plain)
  = Json 200 Sample.snapshot
  /\ responseCache Sample.warm = Some Sample.slot.
Proof. split; vm_compute; reflexivity. Qed.

Lemma cache_hit_returns_snapshot_witness :
  req_method Sample.plain = "GET"%string
  /\ 0 < RESPONSE_CACHE_TTL_MS Sample.cfg
  /\ req_query Sample.plain !! "force"%string = None
  /\ responseCache Sample.warm = Some Sample.slot
  /\ inject_Z (w_now Sample.world - rc_timestamp Sample.slot)
     < RESPONSE_CACHE_TTL_MS Sample.cfg
  /\ exists p,
       handler (H := Reference.platform) Sample.cfg Sample.warm Sample.world Sample.plain
       = (Sample.warm, Json 200 p)
       /\ items p = items Sample.snapshot
       /\ generatedAt p = generatedAt Sample.snapshot.
Proof.
  assert (Hget : req_method Sample.plain = "GET"%string) by reflexivity.
  assert (Httl : 0 < RESPONSE_CACHE_TTL_MS Sample.cfg) by reflexivity.
  assert (Hforce : req_query Sample.plain !! "force"%string = None) by reflexivity.
  assert (Hslot : responseCache Sample.warm = Some Sample.slot)
    by (vm_compute; reflexivity).
  assert (Hfresh : inject_Z (w_now Sample.world - rc_timestamp Sample.slot)
                   < RESPONSE_CACHE_TTL_MS Sample.cfg) by reflexivity.
  repeat (split; [assumption|]).
  destruct (cache_hit_returns_snapshot (H := Reference.platform)
              Sample.cfg Sample.warm Sample.world Sample.plain Sample.slot
              Hget Httl Hforce Hslot Hfresh)
    as (p & Hp & _ & _ & _ & Hgen & _ & _ & _ & _ & _ & Hitems).
  exists p. split; [exact Hp|]. split; [exact Hitems | exact Hgen].
Defined.

(** Two requests in a row: the second, within the TTL and without [force],
    answers with the items of the first. *)
Lemma second_request_same_items `{Platform}
    (cfg : Config) (g : Globals) (w1 w2 : World) (W1 : Z) (req2 : Request) :
  req_method req2 = "GET"%string ->
  0 < RESPONSE_CACHE_TTL_MS cfg ->
  req_query req2 !! "force"%string = None ->
  inject_Z (w_now w2 - w_now w1) < RESPONSE_CACHE_TTL_MS cfg ->
  let g1 := fst (recompute cfg g w1 W1) in
  exists p1 p2,
    snd (recompute cfg g w1 W1) = Json 200 p1
    /\ handler cfg g1 w2 req2 = (g1, Json 200 p2)
    /\ p2 = withWindow p1
              (computeWindowMinutes (w_now w2) (TIMEZONE_OFFSET_MINUTES cfg))
              (timezoneOffsetMinutes p1).
Proof.
  intros Hget Httl Hforce Hfresh g1.
  destruct (recompute_cache cfg g w1 W1 Httl) as (p1 & Hp1 & Hslot & _ & Htz & _).
  exists p1. eexists. split; [exact Hp1|].
  rewrite handler_get by assumption. subst g1. rewrite Hslot, Hforce.
  cbn [rc_timestamp rc_payload].
  apply ltb_true in Httl, Hfresh. rewrite Httl, Hfresh. cbn [andb negb].
  split; [reflexivity|]. rewrite Htz. unfold configuredOffset.
  now destruct (TIMEZONE_OFFSET_MINUTES cfg).
Qed.

(** C10: a request whose query has a [force] key, whatever its value, is
    answered by a computation: the cached payload is not consulted, the
    answer is built anew, and the slot is overwritten when the cache is
    enabled. *)
Theorem force_key_bypasses_cache `{Platform}
    (cfg : Config) (g : Globals) (w : World) (req : Request) (v : QueryValue)
    (Hget : req_method req = "GET"%string)
    (Hforce : req_query req !! "force"%string = Some v) :
  let W := computeWindowMinutes (w_now w) (TIMEZONE_OFFSET_MINUTES cfg) in
  handler cfg g w req = recompute cfg g w W
  /\ (forall slot,
        snd (handler cfg {| sentimentCache := sentimentCache g;
                            responseCache := slot |} w req)
        = snd (handler cfg g w req))
  /\ (exists p,
        snd (handler cfg g w req) = Json 200 p
        /\ generatedAt p = toISOString (w_built w)
        /\ (0 < RESPONSE_CACHE_TTL_MS cfg ->
            responseCache (fst (handler cfg g w req))
            = Some {| rc_timestamp := w_now w; rc_payload := p |})).
Proof.
  intros W.
  assert (Hmiss : forall g', handler cfg g' w req = recompute cfg g' w W).
  { intros g'. rewrite handler_get by assumption. rewrite Hforce.
    cbn [negb]. rewrite andb_false_r. cbn [andb]. now destruct (responseCache g'). }
  split; [apply Hmiss|]. split.
  - intros slot. rewrite !Hmiss. reflexivity.
  - rewrite Hmiss. eexists. split; [apply recompute_response|].
    split; [apply buildResponse_fields|].
    intros Httl. unfold recompute. cbn [fst responseCache].
    apply ltb_true in Httl. rewrite Httl. reflexivity.
Qed.

Lemma force_key_bypasses_cache_witness :
  let W := computeWindowMinutes (w_now Sample.world)
             (TIMEZONE_OFFSET_MINUTES Sample.cfg) in
  req_query (Sample.forced "0") !! "force"%string = Some (QString "0")
  /\ req_query (Sample.forced "") !! "force"%string = Some (QString "")
  /\ handler (H := Reference.platform) Sample.cfg Sample.warm Sample.world
             (Sample.forced "0")
     = recompute (H := Reference.platform) Sample.cfg Sample.warm Sample.world W
  /\ handler (H := Reference.platform) Sample.cfg Sample.warm Sample.world
             (Sample.forced "")
     = recompute (H := Reference.platform) Sample.cfg Sample.warm Sample.world W.
Proof.
  intros W.
  assert (H0 : req_query (Sample.forced "0") !! "force"%string = Some (QString "0"))
    by reflexivity.
  assert (H1 : req_query (Sample.forced "") !! "force"%string = Some (QString ""))
    by reflexivity.
  split; [exact H0|]. split; [exact H1|]. split.
  - exact (proj1 (force_key_bypasses_cache (H := Reference.platform)
                    Sample.cfg Sample.warm Sample.world (Sample.forced "0")
                    (QString "0") eq_refl H0)).
  - exact (proj1 (force_key_bypasses_cache (H := Reference.platform)
                    Sample.cfg Sample.warm Sample.world (Sample.forced "")
                    (QString "") eq_refl H1)).
Defined.

(** ** The window *)

Lemma truncate_integer (x : Q) (z : Z) : x == inject_Z z -> truncate x = z.
Proof.
  intros E. unfold truncate. destruct (Qlt_le_dec x 0).
  - rewrite (Qceiling_comp _ _ E). apply Qceiling_Z.
  - rewrite (Qfloor_comp _ _ E). apply Qfloor_Z.
Qed.

Lemma utcMidnight_spec (t : Z) :
  (utcMidnight t <= t < utcMidnight t + msPerDay)%Z
  /\ (utcMidnight t mod msPerDay = 0)%Z.
Proof.
  unfold utcMidnight, msPerDay. split.
  - pose proof (Z.div_mod t 86400000 ltac:(lia)).
    pose proof (Z.mod_pos_bound t 86400000 ltac:(lia)). lia.
  - apply Z.mod_mul. lia.
Qed.

Lemma Math_round_bounds (x : Q) (lo hi : Z) :
  inject_Z lo <= x -> x <= inject_Z hi -> (lo <= Math_round x <= hi)%Z.
Proof.
  intros Hlo Hhi. unfold Math_round. split.
  - rewrite <- (Qfloor_Z lo). apply Qfloor_resp_le. lra.
  - assert (Hlt : (Qfloor (x + 0.5) < hi + 1)%Z); [|lia].
    rewrite Zlt_Qlt. eapply Qle_lt_trans; [apply Qfloor_le|].
    rewrite inject_Z_plus. change (inject_Z 1) with 1. lra.
Qed.

(** *** The calendar *)

Section Calendar.

#[local] Ltac Zify.zify_post_hook ::= Z.to_euclidean_division_equations.

Lemma year_of_era_bounds (doe : Z) :
  (0 <= doe <= 146096)%Z ->
  let yoe := ((doe - doe / 1460 + doe / 36524 - doe / 146096) / 365)%Z in
  let doy := (doe - (365 * yoe + yoe / 4 - yoe / 100))%Z in
  (0 <= yoe <= 399)%Z /\ (0 <= doy <= 365)%Z.
Proof. intros Hdoe yoe doy. subst yoe doy. lia. Qed.

(** The day number of the civil date of a day is that day. *)
Lemma days_from_civil_from_days (z : Z) :
  let '(y, m, d) := civil_from_days z in days_from_civil y m d = z.
Proof.
  unfold civil_from_days, days_from_civil.
  set (z' := (z + 719468)%Z).
  set (era := (z' / 146097)%Z).
  set (doe := (z' - era * 146097)%Z).
  assert (Hdoe : (0 <= doe <= 146096)%Z) by (subst doe era; lia).
  pose proof (year_of_era_bounds doe Hdoe) as [Hyoe Hdoy]. cbv zeta in Hyoe, Hdoy.
  set (yoe := ((doe - doe / 1460 + doe / 36524 - doe / 146096) / 365)%Z) in *.
  set (doy := (doe - (365 * yoe + yoe / 4 - yoe / 100))%Z) in *.
  set (mp := ((5 * doy + 2) / 153)%Z).
  assert (Hmp : (0 <= mp <= 11)%Z) by (subst mp; lia).
  set (d := (doy - (153 * mp + 2) / 5 + 1)%Z).
  rewrite !Z.gtb_ltb.
  destruct (mp <? 10)%Z eqn:E10.
  - apply Z.ltb_lt in E10.
    replace (mp + 3 <=? 2)%Z with false by (symmetry; apply Z.leb_gt; lia).
    replace (2 <? mp + 3)%Z with true by (symmetry; apply Z.ltb_lt; lia).
    replace (mp + 3 - 3)%Z with mp by lia.
    replace ((yoe + era * 400) / 400)%Z with era by (clearbody yoe era; lia).
    replace (yoe + era * 400 - era * 400)%Z with yoe by lia.
    subst d doy doe z'. lia.
  - apply Z.ltb_ge in E10.
    replace (mp - 9 <=? 2)%Z with true by (symmetry; apply Z.leb_le; lia).
    replace (2 <? mp - 9)%Z with false by (symmetry; apply Z.ltb_ge; lia).
    replace (mp - 9 + 9)%Z with mp by lia.
    replace (yoe + era * 400 + 1 - 1)%Z with (yoe + era * 400)%Z by lia.
    replace ((yoe + era * 400) / 400)%Z with era by (clearbody yoe era; lia).
    replace (yoe + era * 400 - era * 400)%Z with yoe by lia.
    subst d doy doe z'. lia.
Qed.

(** From 1970 on, the year has more than two digits. *)
Lemma getUTCFullYear_since_epoch (t : Z) : (0 <= t)%Z -> (99 < getUTCFullYear t)%Z.
Proof.
  intros Ht. unfold getUTCFullYear, Day, msPerDay, civil_from_days.
  set (z' := (t / 86400000 + 719468)%Z).
  set (era := (z' / 146097)%Z).
  set (doe := (z' - era * 146097)%Z).
  assert (Hdoe : (0 <= doe <= 146096)%Z) by (subst doe era; lia).
  pose proof (year_of_era_bounds doe Hdoe) as [Hyoe _]. cbv zeta in Hyoe.
  set (yoe := ((doe - doe / 1460 + doe / 36524 - doe / 146096) / 365)%Z) in *.
  cbn [fst].
  assert (4 <= era)%Z by (subst era z'; lia).
  destruct (_ <=? 2)%Z; lia.
Qed.

End Calendar.

(** [Date.UTC] of the calendar day of [t] is the midnight that starts that
    day, unless the year of [t] has one or two digits. *)
Lemma Date_UTC_of_fields (t : Z) :
  ~ (0 <= getUTCFullYear t <= 99)%Z ->
  Date_UTC (getUTCFullYear t) (getUTCMonth t) (getUTCDate t) = utcMidnight t.
Proof.
  intros Hyear. unfold Date_UTC.
  replace ((0 <=? getUTCFullYear t)%Z && (getUTCFullYear t <=? 99)%Z) with false
    by (symmetry; apply andb_false_iff; rewrite Z.leb_gt, Z.leb_gt; lia).
  unfold utcMidnight, getUTCFullYear, getUTCMonth, getUTCDate. fold (Day t).
  pose proof (days_from_civil_from_days (Day t)) as Hround.
  destruct (civil_from_days (Day t)) as [[y m] d]. cbn [fst snd].
  replace (m - 1 + 1)%Z with m by lia. now rewrite Hround.
Qed.

(** C7, as the code has it: for a time and an offset of a whole number of
    milliseconds that are time values of valid dates, as is the shifted
    time, and a shifted time whose year is not one of 0 to 99, which
    [Date.UTC] reads as 1900 to 1999: the start of the day is [now] shifted
    by the offset, cut back to UTC midnight, and shifted back, at most a
    day before [now]; the window is the rounded number of minutes from
    there to [now], at least 1 and at most 1440.  At 05:30 UTC with offset
    0 the start is midnight and the window 330 minutes. *)
Theorem start_of_day_and_window (now : Z) (offset : Q) (shift : Z) :
  offset * 60 * 1000 == inject_Z shift ->
  validTime now -> validTime (now - msPerDay) ->
  validTime shift -> validTime (now + shift) ->
  ~ (0 <= getUTCFullYear (now + shift) <= 99)%Z ->
  let start := computeTimezoneStartOfDay now (Some offset) in
  start = (utcMidnight (now + shift) - shift)%Z
  /\ ((start + shift) mod msPerDay = 0)%Z
  /\ (start <= now < start + msPerDay)%Z
  /\ validTime start
  /\ computeWindowMinutes now (Some offset)
     = Z.max 1 (Math_round (inject_Z (now - start) / inject_Z 60000))
  /\ (1 <= computeWindowMinutes now (Some offset) <= 1440)%Z
  /\ Reference.date_parse "2024-01-01T05:30:00Z" = Some 1704087000000%Z
  /\ Reference.date_toISOString (computeTimezoneStartOfDay 1704087000000 (Some 0))
     = "2024-01-01T00:00:00.000Z"%string
  /\ computeWindowMinutes 1704087000000 (Some 0) = 330%Z.
Proof.
  intros Hshift Hnow Hday _ Hshifted Hyear start.
  assert (Hstart : start = (utcMidnight (now + shift) - shift)%Z).
  { subst start. unfold computeTimezoneStartOfDay.
    assert (E : truncate (inject_Z now + offset * 60 * 1000) = (now + shift)%Z).
    { apply truncate_integer. rewrite inject_Z_plus, Hshift. reflexivity. }
    rewrite E, (Date_UTC_of_fields _ Hyear).
    apply truncate_integer. unfold Zminus.
    rewrite inject_Z_plus, inject_Z_opp, Hshift. reflexivity. }
  destruct (utcMidnight_spec (now + shift)) as [Hin Hmod].
  split; [exact Hstart|]. split; [|split; [|split; [|split; [|split]]]].
  - rewrite Hstart. replace (utcMidnight (now + shift) - shift + shift)%Z
      with (utcMidnight (now + shift)) by lia. exact Hmod.
  - rewrite Hstart. lia.
  - unfold validTime, msPerDay in *. rewrite Hstart. lia.
  - reflexivity.
  - unfold computeWindowMinutes. fold start.
    assert (Hr : (0 <= Math_round (inject_Z (now - start) / inject_Z (1000 * 60)) <= 1440)%Z).
    { assert (H0 : (0 <= now - start)%Z) by lia.
      assert (H1 : (now - start <= 86400000)%Z) by (unfold msPerDay in Hin; lia).
      rewrite Zle_Qle in H0, H1.
      apply Math_round_bounds.
      - apply Qle_shift_div_l; [reflexivity|].
        change (inject_Z 0) with 0. rewrite Qmult_0_l. exact H0.
      - apply Qle_shift_div_r; [reflexivity|].
        change (inject_Z 1440 * inject_Z (1000 * 60)) with (inject_Z 86400000). exact H1. }
    lia.
  - repeat split.
Qed.

Lemma start_of_day_and_window_witness :
  let now := 1704087000000%Z in       (* 2024-01-01T05:30:00Z *)
  let offset := 540 in                (* UTC+9 *)
  let shift := 32400000%Z in
  offset * 60 * 1000 == inject_Z shift
  /\ validTime now /\ validTime (now - msPerDay)
  /\ validTime shift /\ validTime (now + shift)
  /\ ~ (0 <= getUTCFullYear (now + shift) <= 99)%Z
  /\ computeTimezoneStartOfDay now (Some offset) = 1704034800000%Z
  /\ (1 <= computeWindowMinutes now (Some offset) <= 1440)%Z.
Proof.
  intros now offset shift.
  assert (Hshift : offset * 60 * 1000 == inject_Z shift) by reflexivity.
  assert (Hnow : validTime now) by (unfold validTime; vm_compute; intuition discriminate).
  assert (Hday : validTime (now - msPerDay))
    by (unfold validTime; vm_compute; intuition discriminate).
  assert (Hs : validTime shift) by (unfold validTime; vm_compute; intuition discriminate).
  assert (Hshifted : validTime (now + shift))
    by (unfold validTime; vm_compute; intuition discriminate).
  assert (Hyear : ~ (0 <= getUTCFullYear (now + shift) <= 99)%Z)
    by (vm_compute; intros [_ H]; now apply H).
  repeat (split; [assumption|]).
  destruct (start_of_day_and_window now offset shift Hshift Hnow Hday Hs Hshifted Hyear)
    as (Hstart & _ & _ & _ & _ & HW & _).
  split; [|exact HW]. rewrite Hstart. reflexivity.
Defined.

(** C7, as stated, fails: with the offset -1038000000 the time
    2024-01-01T05:30:00Z is shifted into the year 50; [Date.UTC] reads that
    year as 1950, and the start of the day comes out in the year 3924, not
    at the midnight before the shifted time. *)
Lemma start_of_day_by_shifting_counterexample : ~ start_of_day_by_shifting.
Proof.
  intros Hclaim.
  specialize (Hclaim 1704087000000%Z (-1038000000) (-62280000000000)%Z).
  assert (Hshift : -1038000000 * 60 * 1000 == inject_Z (-62280000000000))
    by reflexivity.
  specialize (Hclaim Hshift). vm_compute in Hclaim. discriminate.
Qed.

(** ** Link normalization *)

Lemma filter_idem {A} (f : A -> bool) (l : list A) :
  List.filter f (List.filter f l) = List.filter f l.
Proof.
  induction l as [|x l IH]; [reflexivity|]. cbn.
  destruct (f x) eqn:E; [|exact IH]. cbn. rewrite E. now f_equal.
Qed.

Lemma normalizeLink_parsed `{Platform} (url : string) (u : URL) :
  URL_new url = Some u ->
  normalizeLink url
  = URL_toString
      (URL_set_hash EmptyString
         (URL_set_search
            (URLSearchParams_toString (List.filter not_utm (URL_searchParams u))) u)).
Proof. intros E. unfold normalizeLink. rewrite E. reflexivity. Qed.

(** C5: [normalizeLink] returns a string that is not a URL as it is; of a
    URL it keeps the query parameters whose name does not start with
    [utm_] in any letter case, in their order, drops the others and the
    fragment; and normalizing twice is normalizing once. *)
Theorem normalizeLink_spec `{PlatformLaws} (url : string) :
  (URL_new url = None -> normalizeLink url = url)
  /\ (forall u,
        URL_new url = Some u ->
        exists u',
          URL_new (normalizeLink url) = Some u'
          /\ URL_searchParams u'
             = List.filter (fun kv => negb (startsWith (toLowerCase (fst kv)) "utm_"))
                           (URL_searchParams u)
          /\ URL_hash u' = EmptyString)
  /\ normalizeLink (normalizeLink url) = normalizeLink url.
Proof.
  split; [|split].
  - intros E. unfold normalizeLink. now rewrite E.
  - intros u E. rewrite (normalizeLink_parsed url u E).
    eexists. split; [apply (reparse url u _ E)|]. split.
    + rewrite searchParams_set_hash, searchParams_of_search. reflexivity.
    + apply hash_cleared.
  - destruct (URL_new url) as [u|] eqn:E.
    + rewrite (normalizeLink_parsed url u E).
      pose proof (reparse url u (List.filter not_utm (URL_searchParams u)) E) as E'.
      cbn zeta in E'. rewrite (normalizeLink_parsed _ _ E').
      rewrite searchParams_set_hash, searchParams_of_search, filter_idem.
      f_equal. apply set_again.
    + unfold normalizeLink. rewrite E. now rewrite E.
Qed.

(** ** The reference runtime obeys the laws *)

Module ReferenceLaws.
Import Reference.

#[local] Arguments serialize : simpl never.

Lemma append_cons (c : ascii) (a b : string) :
  String c a +:+ b = String c (a +:+ b).
Proof. reflexivity. Qed.

Lemma all_chars_app P (a b : string) :
  all_chars P (a +:+ b) = all_chars P a && all_chars P b.
Proof.
  induction a as [|c a IH]; [reflexivity|].
  rewrite append_cons. simpl. rewrite IH. apply andb_assoc.
Qed.

Lemma all_chars_weaken (P Q : ascii -> bool) (s : string) :
  (forall c, P c = true -> Q c = true) ->
  all_chars P s = true -> all_chars Q s = true.
Proof.
  intros HPQ. induction s as [|c s IH]; [reflexivity|]. simpl.
  intros [Hc Hs]%andb_prop. rewrite (HPQ c Hc), (IH Hs). reflexivity.
Qed.

Lemma append_empty_r (s : string) : s +:+ EmptyString = s.
Proof. induction s as [|c s IH]; [reflexivity|]. now rewrite append_cons, IH. Qed.

Lemma append_assoc' (a b c : string) : (a +:+ b) +:+ c = a +:+ (b +:+ c).
Proof. induction a as [|x a IH]; [reflexivity|]. now rewrite !append_cons, IH. Qed.

Lemma split_at_absent (c : ascii) (s : string) :
  all_chars (is_not c) s = true -> split_at c s = (s, None).
Proof.
  induction s as [|x s IH]; [reflexivity|]. simpl.
  intros [Hx Hs]%andb_prop. unfold is_not in Hx.
  destruct (Ascii.eqb c x); [discriminate|]. now rewrite (IH Hs).
Qed.

Lemma split_at_first (c : ascii) (a b : string) :
  all_chars (is_not c) a = true ->
  split_at c (a +:+ String c b) = (a, Some b).
Proof.
  induction a as [|x a IH]; [|rewrite append_cons]; simpl.
  - intros _. now rewrite Ascii.eqb_refl.
  - intros [Hx Ha]%andb_prop. unfold is_not in Hx.
    destruct (Ascii.eqb c x); [discriminate|]. now rewrite (IH Ha).
Qed.

Lemma split_at_fst_absent (c : ascii) (s : string) :
  all_chars (is_not c) (fst (split_at c s)) = true.
Proof.
  induction s as [|x s IH]; [reflexivity|]. simpl.
  destruct (Ascii.eqb c x) eqn:E; [reflexivity|].
  destruct (split_at c s) as [a b]. simpl in *. unfold is_not at 1. now rewrite E, IH.
Qed.

Lemma split_at_fst_keeps (P : ascii -> bool) (c : ascii) (s : string) :
  all_chars P s = true -> all_chars P (fst (split_at c s)) = true.
Proof.
  induction s as [|x s IH]; [reflexivity|]. simpl.
  intros [Hx Hs]%andb_prop.
  destruct (Ascii.eqb c x); [reflexivity|].
  destruct (split_at c s) as [a b]. simpl in *. now rewrite Hx, IH.
Qed.

Lemma split_at_fst_prefix (c : ascii) (p s : string) :
  all_chars (is_not c) p = true ->
  String.prefix p s = true -> String.prefix p (fst (split_at c s)) = true.
Proof.
  revert s. induction p as [|x p IH]; intros s Hp Hs;
    [now destruct (fst (split_at c s))|].
  destruct s as [|y s]; [discriminate|]. simpl in *.
  apply andb_prop in Hp as [Hx Hp].
  destruct (ascii_dec x y) as [->|]; [|discriminate].
  unfold is_not in Hx. destruct (Ascii.eqb c y); [discriminate|].
  destruct (split_at c s) as [a b] eqn:E. simpl.
  destruct (ascii_dec y y); [|contradiction].
  specialize (IH s Hp Hs). now rewrite E in IH.
Qed.

Lemma prefix_app (p s t : string) :
  String.prefix p s = true -> String.prefix p (s +:+ t) = true.
Proof.
  revert s. induction p as [|x p IH]; intros s Hs; [now destruct (s +:+ t)|].
  destruct s as [|y s]; [discriminate|]. rewrite append_cons. simpl in *.
  destruct (ascii_dec x y); [|discriminate]. now apply IH.
Qed.

Lemma decode_plain (c : ascii) (s : string) :
  Ascii.eqb c "+" = false -> Ascii.eqb c "%" = false ->
  decode (String c s) = String c (decode s).
Proof.
  intros Hplus Hpct. simpl. rewrite Hplus, Hpct.
  destruct s as [|a [|b s]]; reflexivity.
Qed.

Lemma decode_escape (c : ascii) (s : string) :
  decode (String "%" (String (hex_digit (nat_of_ascii c / 16))
                        (String (hex_digit (nat_of_ascii c mod 16)) s)))
  = String c (decode s).
Proof. destruct c as [[] [] [] [] [] [] [] []]; reflexivity. Qed.

Lemma unreserved_plain (c : ascii) :
  unreserved c = true -> Ascii.eqb c "+" = false /\ Ascii.eqb c "%" = false.
Proof. destruct c as [[] [] [] [] [] [] [] []]; intros E; try discriminate E; now split. Qed.

Lemma decode_encode (s : string) : decode (encode s) = s.
Proof.
  induction s as [|c s IH]; [reflexivity|].
  change (encode (String c s))
    with (if unreserved c then String c (encode s)
          else if Ascii.eqb c " " then String "+" (encode s)
          else String "%" (String (hex_digit (nat_of_ascii c / 16))
                             (String (hex_digit (nat_of_ascii c mod 16)) (encode s)))).
  destruct (unreserved c) eqn:Eu.
  - destruct (unreserved_plain c Eu) as [Hplus Hpct].
    now rewrite decode_plain, IH.
  - destruct (Ascii.eqb c " ") eqn:Es.
    + apply Ascii.eqb_eq in Es. subst c.
      change (decode (String "+" (encode s))) with (String " " (decode (encode s))).
      now rewrite IH.
    + now rewrite decode_escape, IH.
Qed.

Lemma hex_digit_encoded (n : nat) : (n < 16)%nat -> encoded_char (hex_digit n) = true.
Proof.
  intros Hn. do 16 (destruct n as [|n]; [reflexivity|]). lia.
Qed.

Lemma encode_chars (s : string) : all_chars encoded_char (encode s) = true.
Proof.
  induction s as [|c s IH]; [reflexivity|].
  change (encode (String c s))
    with (if unreserved c then String c (encode s)
          else if Ascii.eqb c " " then String "+" (encode s)
          else String "%" (String (hex_digit (nat_of_ascii c / 16))
                             (String (hex_digit (nat_of_ascii c mod 16)) (encode s)))).
  destruct (unreserved c) eqn:Eu; [|destruct (Ascii.eqb c " ")].
  - simpl. unfold encoded_char at 1. now rewrite Eu, IH.
  - simpl. now rewrite IH.
  - change (all_chars encoded_char _)
      with (encoded_char "%" && (encoded_char (hex_digit (nat_of_ascii c / 16))
            && (encoded_char (hex_digit (nat_of_ascii c mod 16))
                && all_chars encoded_char (encode s)))).
    rewrite IH, !hex_digit_encoded; [reflexivity| |].
    + apply Nat.mod_upper_bound. lia.
    + apply Nat.Div0.div_lt_upper_bound.
      pose proof (nat_ascii_bounded c). lia.
Qed.

Lemma encoded_is_not (c : ascii) :
  encoded_char c = false -> forall x, encoded_char x = true -> is_not c x = true.
Proof.
  intros Hc x Hx. unfold is_not. destruct (Ascii.eqb c x) eqn:E; [|reflexivity].
  apply Ascii.eqb_eq in E. congruence.
Qed.

Lemma encode_without (c : ascii) (s : string) :
  encoded_char c = false -> all_chars (is_not c) (encode s) = true.
Proof.
  intros Hc. eapply all_chars_weaken; [apply (encoded_is_not c Hc)|apply encode_chars].
Qed.

Lemma ser_pair_without (c : ascii) (kv : string * string) :
  encoded_char c = false -> Ascii.eqb c "=" = false ->
  all_chars (is_not c) (ser_pair kv) = true.
Proof.
  intros Hc He. unfold ser_pair. rewrite all_chars_app. simpl.
  rewrite !encode_without by assumption. unfold is_not. now rewrite He.
Qed.

Lemma parse_pair_ser (kv : string * string) : parse_pair (ser_pair kv) = kv.
Proof.
  destruct kv as [k v]. unfold parse_pair, ser_pair. simpl fst. simpl snd.
  rewrite split_at_first by (now apply encode_without).
  simpl. now rewrite !decode_encode.
Qed.

Lemma ser_pair_truthy (kv : string * string) : truthy (ser_pair kv) = true.
Proof.
  unfold ser_pair. destruct (encode (fst kv)); reflexivity.
Qed.

Lemma serialize_cons (kv : string * string) (l : list (string * string)) :
  l <> [] ->
  serialize (kv :: l) = ser_pair kv +:+ String "&" (serialize l).
Proof.
  intros Hl. destruct l as [|kv' l]; [contradiction|]. destruct kv as [k v].
  unfold ser_pair. simpl fst. simpl snd. 
  change (serialize ((k, v) :: kv' :: l))
    with (encode k +:+ String "=" (encode v) +:+ String "&" (serialize (kv' :: l))).
  rewrite append_assoc'. now rewrite append_cons.
Qed.

Lemma serialize_single (kv : string * string) : serialize [kv] = ser_pair kv.
Proof. now destruct kv. Qed.

Lemma pieces_serialize (l : list (string * string)) (fuel : nat) :
  l <> [] -> (List.length l <= S fuel)%nat ->
  pieces fuel (serialize l) = List.map ser_pair l.
Proof.
  revert fuel. induction l as [|kv l IH]; intros fuel Hl Hfuel; [contradiction|].
  destruct l as [|kv' l].
  - rewrite serialize_single. simpl List.map.
    destruct fuel as [|fuel]; [reflexivity|]. simpl.
    now rewrite split_at_absent by (now apply ser_pair_without).
  - rewrite serialize_cons by discriminate.
    destruct fuel as [|fuel]; [simpl in Hfuel; lia|].
    simpl pieces. rewrite split_at_first by (now apply ser_pair_without).
    rewrite IH; [reflexivity | discriminate | simpl in *; lia].
Qed.

Lemma length_append (a b : string) :
  String.length (a +:+ b) = (String.length a + String.length b)%nat.
Proof. induction a as [|c a IH]; [reflexivity|]. rewrite append_cons. simpl. now rewrite IH. Qed.

Lemma serialize_length (l : list (string * string)) :
  (List.length l <= String.length (serialize l))%nat.
Proof.
  induction l as [|kv l IH]; [simpl; lia|].
  destruct l as [|kv' l].
  - rewrite serialize_single. unfold ser_pair. rewrite length_append. simpl. lia.
  - rewrite serialize_cons by discriminate. rewrite length_append.
    simpl in *. lia.
Qed.

Lemma filter_truthy_ser (l : list (string * string)) :
  List.filter truthy (List.map ser_pair l) = List.map ser_pair l.
Proof.
  induction l as [|kv l IH]; [reflexivity|]. simpl.
  now rewrite ser_pair_truthy, IH.
Qed.

Lemma parse_serialize (l : list (string * string)) : parse_query (serialize l) = l.
Proof.
  destruct l as [|kv l]; [reflexivity|].
  unfold parse_query.
  rewrite pieces_serialize;
    [|discriminate | pose proof (serialize_length (kv :: l)); lia].
  rewrite filter_truthy_ser, List.map_map.
  rewrite <- (List.map_id (kv :: l)) at 2.
  apply List.map_ext. apply parse_pair_ser.
Qed.

Lemma serialize_without (c : ascii) (l : list (string * string)) :
  encoded_char c = false -> Ascii.eqb c "=" = false -> Ascii.eqb c "&" = false ->
  all_chars (is_not c) (serialize l) = true.
Proof.
  intros Hc He Ha. induction l as [|kv l IH]; [reflexivity|].
  destruct l as [|kv' l].
  - rewrite serialize_single. now apply ser_pair_without.
  - rewrite serialize_cons by discriminate. rewrite all_chars_app.
    rewrite ser_pair_without by assumption. simpl.
    unfold is_not at 1. rewrite Ha. exact IH.
Qed.

Lemma serialize_first (l : list (string * string)) :
  l <> [] ->
  exists c rest, serialize l = String c rest /\ Ascii.eqb c "?" = false.
Proof.
  intros Hl. destruct l as [|kv l]; [contradiction|].
  assert (Hq : all_chars (is_not "?") (serialize (kv :: l)) = true)
    by (now apply serialize_without).
  pose proof (serialize_length (kv :: l)) as Hlen.
  destruct (serialize (kv :: l)) as [|c rest]; [simpl in Hlen; lia|].
  exists c, rest. split; [reflexivity|].
  simpl in Hq. apply andb_prop in Hq as [Hc _]. unfold is_not in Hc.
  now destruct (Ascii.eqb "?" c) eqn:E; [discriminate|rewrite Ascii.eqb_sym].
Qed.

Lemma url_set_search_serialize (l : list (string * string)) (u : Url) :
  url_set_search (serialize l) u
  = {| u_prefix := u_prefix u; u_query := query_of l; u_fragment := u_fragment u |}.
Proof.
  destruct l as [|kv l]; [reflexivity|].
  destruct (serialize_first (kv :: l) ltac:(discriminate)) as (c & rest & E & Hc).
  unfold url_set_search, query_of. rewrite E.
  destruct c as [[] [] [] [] [] [] [] []]; try reflexivity. discriminate Hc.
Qed.

Lemma url_new_prefix (s : string) (u : Url) :
  url_new s = Some u ->
  (startsWith (u_prefix u) "http://" || startsWith (u_prefix u) "https://") = true
  /\ all_chars (is_not "?") (u_prefix u) = true
  /\ all_chars (is_not "#") (u_prefix u) = true.
Proof.
  unfold url_new. destruct (_ || _) eqn:Escheme; [|discriminate].
  pose proof (split_at_fst_absent "#" s) as Hh.
  pose proof (fun p Hp => split_at_fst_prefix "#" p s Hp) as Hpre.
  destruct (split_at "#" s) as [rest fragment].
  pose proof (split_at_fst_absent "?" rest) as Hq.
  pose proof (split_at_fst_keeps (is_not "#") "?" rest Hh) as Hh'.
  pose proof (fun p Hp => split_at_fst_prefix "?" p rest Hp) as Hpre'.
  destruct (split_at "?" rest) as [prefix query].
  intros [= <-]. simpl in *. split; [|split; assumption].
  unfold startsWith in *. apply orb_prop in Escheme as [E|E].
  - rewrite (Hpre' "http://"%string eq_refl (Hpre "http://"%string eq_refl E)).
    reflexivity.
  - rewrite (Hpre' "https://"%string eq_refl (Hpre "https://"%string eq_refl E)).
    apply orb_true_r.
Qed.

#[export] Instance reference_laws : PlatformLaws (H := platform).
Proof.
  constructor.
  - intros u l. simpl. rewrite url_set_search_serialize.
    unfold url_searchParams. simpl u_query.
    destruct l as [|kv l]; [reflexivity|]. apply parse_serialize.
  - reflexivity.
  - reflexivity.
  - intros s u l E u'. subst u'. simpl.
    rewrite url_set_search_serialize.
    destruct (url_new_prefix s u E) as (Hscheme & Hq & Hh).
    unfold url_set_hash, url_toString. simpl.
    set (q := match query_of l with Some q => String "?" q | None => EmptyString end).
    rewrite append_empty_r.
    assert (Hqh : all_chars (is_not "#") q = true).
    { subst q. destruct l as [|kv l]; [reflexivity|]. simpl.
      now apply serialize_without. }
    unfold url_new.
    assert (Es : (startsWith (u_prefix u +:+ q) "http://"
                  || startsWith (u_prefix u +:+ q) "https://") = true).
    { unfold startsWith in *. apply orb_prop in Hscheme as [E'|E'].
      - now rewrite (prefix_app _ _ q E').
      - rewrite (prefix_app _ _ q E'). apply orb_true_r. }
    rewrite Es.
    rewrite split_at_absent by (now rewrite all_chars_app, Hh, Hqh).
    subst q. destruct l as [|kv l]; simpl query_of.
    + rewrite append_empty_r, split_at_absent by assumption. reflexivity.
    + cbv iota beta. rewrite split_at_first by assumption. reflexivity.
  - intros u l u'. subst u'. simpl.
    rewrite !url_set_search_serialize. reflexivity.
Qed.

End ReferenceLaws.

Lemma normalizeLink_spec_witness :
  let url := "https://example.com/a?utm_source=x&id=7&UTM_medium=y&q=a+b#top"%string in
  normalizeLink (H := Reference.platform) url = "https://example.com/a?id=7&q=a+b"%string
  /\ normalizeLink (H := Reference.platform) (normalizeLink (H := Reference.platform) url)
     = normalizeLink (H := Reference.platform) url
  /\ normalizeLink (H := Reference.platform) "not a url" = "not a url"%string.
Proof.
  intros url. split; [reflexivity|].
  pose proof (normalizeLink_spec (H0 := ReferenceLaws.reference_laws) url)
    as (_ & _ & Hidem).
  pose proof (normalizeLink_spec (H0 := ReferenceLaws.reference_laws) "not a url")
    as (Hbad & _).
  split; [exact Hidem|]. apply Hbad. reflexivity.
Defined.

(** * Further properties *)

(** ** Tokens *)

(** The characters of a token: lower-case letters, digits and the hyphen. *)
Lemma all_chars_snoc P (s : string) (c : ascii) :
  Reference.all_chars P (s +:+ String c EmptyString) = Reference.all_chars P s && P c.
Proof. rewrite ReferenceLaws.all_chars_app. simpl. now rewrite andb_true_r. Qed.

Lemma replace_other_class (inRun : bool) (s : string) :
  Reference.all_chars token_class (replace_other inRun s) = true.
Proof.
  revert inRun. induction s as [|c s IH]; intros inRun; [reflexivity|].
  simpl. destruct (token_class c) eqn:Ec.
  - simpl. now rewrite Ec, IH.
  - destruct inRun; [apply IH|]. simpl. now rewrite IH.
Qed.

Lemma token_class_word (c : ascii) :
  token_class c = true -> is_space c = false -> word_char c = true.
Proof.
  unfold token_class, word_char. intros Hc Hs. rewrite Hs in Hc.
  now rewrite orb_false_r in Hc.
Qed.

Lemma split_space_words (cur : string) (inSep : bool) (s : string) :
  Reference.all_chars word_char cur = true ->
  Reference.all_chars token_class s = true ->
  Forall (fun piece => Reference.all_chars word_char piece = true) (split_space cur inSep s).
Proof.
  revert cur inSep. induction s as [|c s IH]; intros cur inSep Hcur Hs.
  - simpl. now constructor.
  - simpl in Hs. apply andb_prop in Hs as [Hc Hs]. simpl.
    destruct (is_space c) eqn:Esp.
    + destruct inSep; [now apply IH|]. constructor; [exact Hcur|]. now apply IH.
    + apply IH; [|exact Hs]. rewrite all_chars_snoc, Hcur.
      now rewrite (token_class_word c Hc Esp).
Qed.

Lemma toLowerCase_idem (s : string) : toLowerCase (toLowerCase s) = toLowerCase s.
Proof.
  induction s as [|c s IH]; [reflexivity|]. simpl. rewrite IH. f_equal.
  destruct c as [[] [] [] [] [] [] [] []]; reflexivity.
Qed.

Lemma toLowerCase_app (a b : string) :
  toLowerCase (a +:+ b) = toLowerCase a +:+ toLowerCase b.
Proof.
  induction a as [|c a IH]; [reflexivity|].
  rewrite ReferenceLaws.append_cons. simpl. now rewrite IH, ReferenceLaws.append_cons.
Qed.

Lemma tokenize_toLowerCase (text : string) :
  tokenize (toLowerCase text) = tokenize text.
Proof. unfold tokenize. now rewrite toLowerCase_idem. Qed.

(** X1: every token is a non-empty run of lower-case letters, digits and
    hyphens, and the letter case of the text does not matter. *)
Theorem tokenize_tokens (text : string) :
  Forall (fun token => truthy token = true /\ Reference.all_chars word_char token = true)
         (tokenize text)
  /\ tokenize (toLowerCase text) = tokenize text.
Proof.
  split.
  - unfold tokenize. apply List.Forall_forall. intros token Hin.
    apply filter_In in Hin as [Hin Ht]. split; [exact Ht|].
    pose proof (split_space_words EmptyString false
                  (replace_other false (toLowerCase text)) eq_refl
                  (replace_other_class false _)) as Hall.
    rewrite List.Forall_forall in Hall. now apply Hall.
  - apply tokenize_toLowerCase.
Qed.

(** ** The lexicon scorer *)

Lemma lexicon_fold (tokens : list string) (pos neg : Z) :
  fold_left
    (fun '(pos, neg) token =>
       let pos := if bool_decide (token ∈ POSITIVE_WORDS) then (pos + 1)%Z else pos in
       let neg := if bool_decide (token ∈ NEGATIVE_WORDS) then (neg + 1)%Z else neg in
       (pos, neg))
    tokens (pos, neg)
  = ((pos + count_in POSITIVE_WORDS tokens)%Z, (neg + count_in NEGATIVE_WORDS tokens)%Z).
Proof.
  revert pos neg. induction tokens as [|t tokens IH]; intros pos neg.
  - unfold count_in. simpl. f_equal; lia.
  - cbn [fold_left]. rewrite IH. unfold count_in. cbn [List.filter].
    destruct (bool_decide (t ∈ POSITIVE_WORDS));
      destruct (bool_decide (t ∈ NEGATIVE_WORDS)); cbn [List.length]; f_equal; lia.
Qed.

Lemma lexicon_sets_disjoint (token : string) :
  token ∈ POSITIVE_WORDS -> token ∈ NEGATIVE_WORDS -> False.
Proof.
  intros Hp Hn.
  assert (Hd : POSITIVE_WORDS ∩ NEGATIVE_WORDS = ∅) by (vm_compute; reflexivity).
  assert (Hin : token ∈ POSITIVE_WORDS ∩ NEGATIVE_WORDS) by (apply elem_of_intersection; auto).
  rewrite Hd in Hin. now apply elem_of_empty in Hin.
Qed.

Lemma count_in_both (tokens : list string) :
  (0 <= count_in POSITIVE_WORDS tokens)%Z
  /\ (0 <= count_in NEGATIVE_WORDS tokens)%Z
  /\ (count_in POSITIVE_WORDS tokens + count_in NEGATIVE_WORDS tokens
      <= Z.of_nat (List.length tokens))%Z.
Proof.
  unfold count_in. induction tokens as [|t tokens IH]; [simpl; lia|].
  cbn [List.filter List.length].
  destruct (bool_decide (t ∈ POSITIVE_WORDS)) eqn:Ep;
    destruct (bool_decide (t ∈ NEGATIVE_WORDS)) eqn:En; cbn [List.length]; try lia.
  apply bool_decide_eq_true in Ep, En. destruct (lexicon_sets_disjoint t Ep En).
Qed.

Lemma scoreSentimentLexicon_counts (title snippet : string) :
  let tokens := tokenize (title +:+ " " +:+ snippet) in
  let rawScore := (count_in POSITIVE_WORDS tokens - count_in NEGATIVE_WORDS tokens)%Z in
  scoreSentimentLexicon title snippet
  = if (rawScore >? 0)%Z then {| s_label := positive; s_score := inject_Z rawScore |}
    else if (rawScore <? 0)%Z then {| s_label := negative; s_score := inject_Z rawScore |}
    else {| s_label := neutral; s_score := 0 |}.
Proof.
  intros tokens rawScore. unfold scoreSentimentLexicon. fold tokens.
  rewrite lexicon_fold. reflexivity.
Qed.

Lemma labelFromScore_zero (x : Q) : x == 0 -> labelFromScore x = neutral.
Proof.
  intros E. unfold labelFromScore.
  js_case (x >? 0); [lra|]. js_case (x <? 0); [lra | reflexivity].
Qed.

Lemma scoreSentimentLexicon_consistent (title snippet : string) :
  s_label (scoreSentimentLexicon title snippet)
  = labelFromScore (s_score (scoreSentimentLexicon title snippet)).
Proof.
  rewrite scoreSentimentLexicon_counts. cbv zeta.
  set (raw := (_ - _)%Z).
  destruct (raw >? 0)%Z eqn:Ep.
  - cbn [s_label s_score]. symmetry. apply labelFromScore_pos.
    apply Z.gtb_lt in Ep. rewrite Zlt_Qlt in Ep. exact Ep.
  - destruct (raw <? 0)%Z eqn:En.
    + cbn [s_label s_score]. symmetry. apply labelFromScore_neg.
      apply Z.ltb_lt in En. rewrite Zlt_Qlt in En. exact En.
    + reflexivity.
Qed.

(** X2: the lexicon score is the number of tokens in the positive word list
    minus the number in the negative one; no token is in both, so its
    magnitude is at most the number of tokens, and the label is the sign of
    the score.  Letter case does not matter. *)
Theorem lexicon_score_counts (title snippet : string) :
  let tokens := tokenize (title +:+ " " +:+ snippet) in
  let result := scoreSentimentLexicon title snippet in
  s_score result
  == inject_Z (count_in POSITIVE_WORDS tokens - count_in NEGATIVE_WORDS tokens)
  /\ Qabs (s_score result) <= inject_Z (Z.of_nat (List.length tokens))
  /\ s_label result = labelFromScore (s_score result)
  /\ scoreSentimentLexicon (toLowerCase title) (toLowerCase snippet) = result.
Proof.
  intros tokens result.
  pose proof (count_in_both tokens) as (Hp & Hn & Hsum).
  assert (Hscore : s_score result
            == inject_Z (count_in POSITIVE_WORDS tokens - count_in NEGATIVE_WORDS tokens)).
  { subst result. rewrite scoreSentimentLexicon_counts. fold tokens. cbv zeta.
    set (raw := (_ - _)%Z).
    destruct (raw >? 0)%Z eqn:Ep; [reflexivity|].
    destruct (raw <? 0)%Z eqn:En; [reflexivity|].
    rewrite Z.gtb_ltb in Ep. apply Z.ltb_ge in Ep. apply Z.ltb_ge in En.
    replace raw with 0%Z by lia. reflexivity. }
  split; [exact Hscore|]. split; [|split].
  - rewrite Hscore. apply Qabs_Qle_condition.
    rewrite <- inject_Z_opp, <- !Zle_Qle. lia.
  - apply scoreSentimentLexicon_consistent.
  - subst result. unfold scoreSentimentLexicon.
    replace (tokenize (toLowerCase title +:+ " " +:+ toLowerCase snippet))
      with (tokenize (title +:+ " " +:+ snippet)); [reflexivity|].
    rewrite <- (tokenize_toLowerCase (title +:+ " " +:+ snippet)).
    now rewrite !toLowerCase_app.
Qed.

(** ** Source weights *)

Lemma weightForSource_bounds (source : string) : 1 <= weightForSource source <= 1.3.
Proof.
  unfold weightForSource.
  destruct (SOURCE_WEIGHTS !! trim source) as [v|] eqn:E; [|cbn; split; lra].
  cbn [default]. unfold id. unfold SOURCE_WEIGHTS in E.
  apply elem_of_list_to_map_2 in E.
  repeat (apply elem_of_cons in E as [E|E]; [injection E as _ ->; split; lra|]).
  inversion E.
Qed.



(** ** The window filter and the decay *)

(** X4: the decay is between 0.7 and 1 whatever its arguments, and a window
    shorter than one minute counts as one minute. *)
Theorem linearTimeDecay_range (minutesAgo windowMinutes : Q) :
  0.7 <= linearTimeDecay minutesAgo windowMinutes <= 1
  /\ (windowMinutes <= 1 ->
      linearTimeDecay minutesAgo windowMinutes == linearTimeDecay minutesAgo 1)
  /\ (minutesAgo <= 0 -> linearTimeDecay minutesAgo windowMinutes == 1)
  /\ (Qmax windowMinutes 1 <= minutesAgo ->
      linearTimeDecay minutesAgo windowMinutes == 0.7).
Proof.
  split; [|split; [|split]].
  - unfold linearTimeDecay. apply clamp_bounds. lra.
  - intros HW. unfold linearTimeDecay.
    assert (E : Qmax windowMinutes 1 == Qmax 1 1) by (minmax; lra).
    now rewrite E.
  - intros Hm. unfold linearTimeDecay.
    set (w := Qmax windowMinutes 1).
    assert (Hw : 1 <= w) by (subst w; minmax; lra).
    assert (E : clamp 0 w minutesAgo == 0) by (unfold clamp; minmax; lra).
    rewrite E. unfold Qdiv. rewrite Qmult_0_l. unfold clamp. minmax. lra.
  - intros Hm. unfold linearTimeDecay.
    set (w := Qmax windowMinutes 1) in *.
    assert (Hw : 1 <= w) by (subst w; minmax; lra).
    assert (E : clamp 0 w minutesAgo == w) by (unfold clamp; minmax; lra).
    rewrite E. assert (E1 : w / w == 1) by (field; lra). rewrite E1.
    unfold clamp. minmax. lra.
Qed.

Lemma linearTimeDecay_range_witness :
  0 <= 1 /\ linearTimeDecay 7 0 == linearTimeDecay 7 1.
Proof.
  assert (H : 0 <= 1) by (vm_compute; discriminate).
  split; [exact H|].
  exact (proj1 (proj2 (linearTimeDecay_range 7 0)) H).
Defined.

Section WindowFilter.

Context `{Platform}.

(** X5: an item passes the window filter exactly when its decay weight is not
    0, and then the weight is at least 0.7; a missing, empty or unparsable
    date never passes. *)
Theorem window_filter_matches_decay (date now : Z) (windowMinutes : Q) :
  (withinWindow (DateObject (Some date)) now windowMinutes = true
   <-> 0.7 <= decayWeight date now windowMinutes)
  /\ (withinWindow (DateObject (Some date)) now windowMinutes = false
      <-> decayWeight date now windowMinutes = 0)
  /\ decayWeight date now windowMinutes <= 1
  /\ withinWindow DateMissing now windowMinutes = false
  /\ withinWindow (DateOfString EmptyString) now windowMinutes = false
  /\ (forall s, Date_parse s = None ->
        withinWindow (DateOfString s) now windowMinutes = false)
  /\ (forall s, truthy s = true -> Date_parse s = Some date ->
        withinWindow (DateOfString s) now windowMinutes
        = withinWindow (DateObject (Some date)) now windowMinutes).
Proof.
  pose proof (linearTimeDecay_bounds (toMinutesAgo date now) windowMinutes) as Hb.
  assert (Hcase :
    (withinWindow (DateObject (Some date)) now windowMinutes = true
     /\ decayWeight date now windowMinutes
        = linearTimeDecay (toMinutesAgo date now) windowMinutes)
    \/ (withinWindow (DateObject (Some date)) now windowMinutes = false
        /\ decayWeight date now windowMinutes = 0)).
  { rewrite withinWindow_object. unfold decayWeight.
    js_case (toMinutesAgo date now <? 0).
    - right. split; [|reflexivity].
      apply andb_false_iff. left. apply leb_false. exact E.
    - js_case (toMinutesAgo date now >? windowMinutes).
      + right. split; [|reflexivity].
        apply andb_false_iff. right. apply leb_false. exact E0.
      + left. split; [|reflexivity].
        apply andb_true_iff. split; apply leb_true; assumption. }
  split; [|split; [|split; [|split; [|split; [|split]]]]].
  - destruct Hcase as [[Hw Hd]|[Hw Hd]]; rewrite Hw, Hd.
    + split; [intros _; lra|reflexivity].
    + split; [discriminate|].
      intros Hle. exfalso. revert Hle. apply Qlt_not_le. reflexivity.
  - destruct Hcase as [[Hw Hd]|[Hw Hd]]; rewrite Hw.
    + split; [discriminate|].
      intros H0. exfalso. rewrite Hd in H0. rewrite H0 in Hb.
      destruct Hb as [Hb _]. revert Hb. apply Qlt_not_le. reflexivity.
    + split; [intros _; exact Hd|reflexivity].
  - destruct Hcase as [[Hw Hd]|[Hw Hd]]; rewrite Hd; [lra|].
    apply Qlt_le_weak. reflexivity.
  - reflexivity.
  - reflexivity.
  - intros s Hs. unfold withinWindow, toDate. rewrite Hs. now destruct (truthy s).
  - intros s Ht Hs. unfold withinWindow, toDate. now rewrite Ht, Hs.
Qed.

End WindowFilter.

Lemma window_filter_matches_decay_witness :
  Date_parse (Platform := Reference.platform) "yesterday" = None
  /\ withinWindow (H := Reference.platform) (DateOfString "yesterday") Sample.now 330 = false.
Proof.
  assert (E : Date_parse (Platform := Reference.platform) "yesterday" = None) by reflexivity.
  split; [exact E|].
  destruct (window_filter_matches_decay (H := Reference.platform) 0 Sample.now 330)
    as (_ & _ & _ & _ & _ & Hbad & _).
  now apply Hbad.
Defined.

(** ** The percentages and the recommendation *)

Lemma Math_round_half (x : Q) (lo hi : Z) :
  inject_Z lo - 0.5 <= x -> x < inject_Z hi + 0.5 -> (lo <= Math_round x <= hi)%Z.
Proof.
  intros Hlo Hhi. unfold Math_round. split.
  - rewrite <- (Qfloor_Z lo). apply Qfloor_resp_le. lra.
  - assert (Hlt : (Qfloor (x + 0.5) < hi + 1)%Z); [|lia].
    rewrite Zlt_Qlt. eapply Qle_lt_trans; [apply Qfloor_le|].
    rewrite inject_Z_plus. change (inject_Z 1) with 1. lra.
Qed.

Lemma ratio_bounds (p n lo hi : Q) :
  0 < p + n -> lo * (p + n) <= 100 * p -> 100 * p <= hi * (p + n) ->
  lo <= p / (p + n) * 100 <= hi.
Proof.
  intros Hd Hlo Hhi.
  assert (E : p / (p + n) * 100 == (100 * p) / (p + n)) by (field; lra).
  rewrite E. split.
  - apply Qle_shift_div_l; lra.
  - apply Qle_shift_div_r; lra.
Qed.

Lemma round_ratio (p n : Q) (lo hi : Z) :
  0 < p + n ->
  (inject_Z lo - 0.5) * (p + n) <= 100 * p ->
  100 * p <= (inject_Z hi + 0.4) * (p + n) ->
  (lo <= Math_round (p / (p + n) * 100) <= hi)%Z.
Proof.
  intros Hd Hlo Hhi.
  pose proof (ratio_bounds p n _ _ Hd Hlo Hhi) as [H1 H2].
  apply Math_round_half; lra.
Qed.

(** X6: with non-negative class weights both percentages are between 0 and
    100; LONG goes with a long percentage of at least 51, SHORT with one
    of at most 49, NEUTRAL with one between 49 and 51 when there is
    directional weight.  The neutral weight changes none of the three. *)
Theorem percentages_agree_with_recommendation
    W tz gen its (p n u : Q) (pc nc uc : Z) :
  0 <= p -> 0 <= n ->
  let r := buildResponse W tz gen its p n u pc nc uc in
  (0 <= longPct r <= 100)%Z /\ (0 <= shortPct r <= 100)%Z
  /\ (recommendation r = LONG -> (51 <= longPct r)%Z /\ (shortPct r <= 49)%Z)
  /\ (recommendation r = SHORT -> (longPct r <= 49)%Z /\ 0 < n)
  /\ (recommendation r = NEUTRAL -> 0 < p + n -> (49 <= longPct r <= 51)%Z)
  /\ (forall u',
        let r' := buildResponse W tz gen its p n u' pc nc uc in
        longPct r' = longPct r /\ shortPct r' = shortPct r
        /\ recommendation r' = recommendation r).
Proof.
  intros Hp Hn r.
  destruct (buildResponse_fields W tz gen its p n u pc nc uc)
    as (_ & _ & _ & _ & _ & Hl & Hs & Hr & _).
  fold r in Hl, Hs, Hr. rewrite Hl, Hs, Hr. clear Hl Hs Hr r.
  assert (Hrange : 0 < p + n ->
    (0 <= Math_round (p / (p + n) * 100) <= 100)%Z).
  { intros Hd. apply round_ratio; [easy| |];
      change (inject_Z 0) with 0; change (inject_Z 100) with 100; lra. }
  split; [|split; [|split; [|split; [|split]]]].
  - js_case (p + n >? 0); [auto|lia].
  - js_case (p + n >? 0); [|lia]. specialize (Hrange E). lia.
  - js_case (p >? n * 1.05); [intros _|js_case (n >? p * 1.05); discriminate].
    assert (Hd : 0 < p + n) by lra.
    js_case (p + n >? 0); [|lra].
    assert (Hb : (51 <= Math_round (p / (p + n) * 100) <= 100)%Z).
    { apply round_ratio; [easy| |];
        change (inject_Z 51) with 51; change (inject_Z 100) with 100; lra. }
    lia.
  - js_case (p >? n * 1.05); [discriminate|].
    js_case (n >? p * 1.05); [intros _|discriminate].
    split; [|lra].
    js_case (p + n >? 0); [|lia].
    assert (Hb : (0 <= Math_round (p / (p + n) * 100) <= 49)%Z).
    { apply round_ratio; [easy| |];
        change (inject_Z 0) with 0; change (inject_Z 49) with 49; lra. }
    lia.
  - js_case (p >? n * 1.05); [discriminate|].
    js_case (n >? p * 1.05); [discriminate|].
    intros _ Hd. js_case (p + n >? 0); [|lra].
    apply round_ratio; [easy| |];
      change (inject_Z 49) with 49; change (inject_Z 51) with 51; lra.
  - intros u' r'.
    destruct (buildResponse_fields W tz gen its p n u' pc nc uc)
      as (_ & _ & _ & _ & _ & Hl & Hs & Hr & _).
    fold r' in Hl, Hs, Hr. now rewrite Hl, Hs, Hr.
Qed.

Lemma percentages_agree_with_recommendation_witness :
  0 <= 6 /\ 0 <= 4
  /\ (0 <= longPct (buildResponse 330 540 "" [] 6 4 3 0 0 0) <= 100)%Z.
Proof.
  assert (Hp : 0 <= 6) by (vm_compute; discriminate).
  assert (Hn : 0 <= 4) by (vm_compute; discriminate).
  split; [exact Hp|split; [exact Hn|]].
  exact (proj1 (percentages_agree_with_recommendation
                  330 540 "" [] 6 4 3 0 0 0 Hp Hn)).
Defined.

(** ** The combiner, for consistent scores *)

Lemma labelFromScore_spec (x : Q) :
  (0 < x /\ labelFromScore x = positive)
  \/ (x < 0 /\ labelFromScore x = negative)
  \/ (x == 0 /\ labelFromScore x = neutral).
Proof.
  unfold labelFromScore.
  js_case (x >? 0); [left; easy|].
  js_case (x <? 0); [right; left; easy|].
  right; right. split; [lra|reflexivity].
Qed.

Lemma Math_sign_zero (x : Q) : x == 0 -> Math_sign x = 0.
Proof.
  intros. unfold Math_sign. destruct (Qlt_le_dec 0 x); [lra|].
  destruct (Qlt_le_dec x 0); [lra|reflexivity].
Qed.

Lemma or_number_nonzero (a b : Q) : ~ a == 0 -> or_number a b = a.
Proof. intros. unfold or_number. now destruct (Qeq_dec a 0). Qed.

(** The combiner, case by case on the signs of two consistent scores. *)
Lemma combine_cases (M L : SentimentScore) :
  consistent M -> consistent L ->
  let c := combineSentiments (Some M) L in
  (c = M /\ Qabs (s_score L) <= Qabs (s_score M))
  \/ (c = L /\ Qabs (s_score M) < Qabs (s_score L))
  \/ (s_label c = s_label M /\ s_label c = s_label L /\ consistent c
      /\ Qabs (s_score c) == Qmax (Qabs (s_score M)) (Qabs (s_score L))).
Proof.
  intros HM HL c. subst c. unfold consistent in *. unfold combineSentiments.
  destruct (labelFromScore_spec (s_score M)) as [[Hm Em]|[[Hm Em]|[Hm Em]]];
    rewrite Em in HM; rewrite HM;
  destruct (labelFromScore_spec (s_score L)) as [[Hl El]|[[Hl El]|[Hl El]]];
    rewrite El in HL; rewrite ?HL; cbn [Sentiment_eqb andb];
  js_case (s_score L =? 0); cbn [negb]; try lra;
  try (left; split; [reflexivity|minmax; lra]);
  try (right; left; split; [reflexivity|minmax; lra]).
  - rewrite (Math_sign_pos _ Hm), (Math_sign_pos _ Hl).
    change (1 =? 1) with true. cbv iota.
    rewrite or_number_nonzero by lra. rewrite (Math_sign_pos _ Hm).
    right; right. cbn [s_label s_score].
    assert (Hpos : 0 < 1 * Qmax (Qabs (s_score M)) (Qabs (s_score L)))
      by (minmax; lra).
    rewrite (labelFromScore_pos _ Hpos).
    repeat split. revert Hpos. minmax. lra.
  - rewrite (Math_sign_pos _ Hm), (Math_sign_neg _ Hl).
    change (1 =? -1) with false. cbv iota.
    js_case (Qabs (s_score M) >=? Qabs (s_score L)).
    + left. easy.
    + right; left. easy.
  - rewrite (Math_sign_neg _ Hm), (Math_sign_pos _ Hl).
    change (-1 =? 1) with false. cbv iota.
    js_case (Qabs (s_score M) >=? Qabs (s_score L)).
    + left. easy.
    + right; left. easy.
  - rewrite (Math_sign_neg _ Hm), (Math_sign_neg _ Hl).
    change (-1 =? -1) with true. cbv iota.
    rewrite or_number_nonzero by lra. rewrite (Math_sign_neg _ Hm).
    right; right. cbn [s_label s_score].
    assert (Hneg : -1 * Qmax (Qabs (s_score M)) (Qabs (s_score L)) < 0)
      by (minmax; lra).
    rewrite (labelFromScore_neg _ Hneg).
    repeat split. revert Hneg. minmax. lra.
Qed.

Lemma combine_consistent (M : option SentimentScore) (L : SentimentScore) :
  (forall m, M = Some m -> consistent m) -> consistent L ->
  consistent (combineSentiments M L).
Proof.
  intros HM HL. destruct M as [m|]; [|exact HL].
  specialize (HM m eq_refl).
  destruct (combine_cases m L HM HL) as [[-> _]|[[-> _]|(_ & _ & Hc & _)]];
    assumption.
Qed.

(** X7: for a model score and a lexicon score that are each consistent, the
    combined score has the larger of the two magnitudes and the label of
    the score with the larger magnitude, the model's when they tie. *)
Theorem combine_takes_larger_magnitude (M L : SentimentScore) :
  consistent M -> consistent L ->
  let c := combineSentiments (Some M) L in
  Qabs (s_score c) == Qmax (Qabs (s_score M)) (Qabs (s_score L))
  /\ (Qabs (s_score L) <= Qabs (s_score M) -> s_label c = s_label M)
  /\ (Qabs (s_score M) < Qabs (s_score L) -> s_label c = s_label L).
Proof.
  intros HM HL c.
  destruct (combine_cases M L HM HL) as [[Hc Hle]|[[Hc Hlt]|(Em & El & _ & Hmag)]];
    fold c in Hc || fold c in Em, El, Hmag.
  - rewrite Hc. split; [minmax; lra|]. split; [reflexivity|]. intros; lra.
  - rewrite Hc. split; [minmax; lra|]. split; [|reflexivity]. intros; lra.
  - split; [exact Hmag|]. split; intros _; assumption.
Qed.

Lemma combine_takes_larger_magnitude_witness :
  let M := {| s_label := negative; s_score := -3 |} in
  let L := {| s_label := positive; s_score := 2 |} in
  consistent M /\ consistent L
  /\ Qabs (s_score (combineSentiments (Some M) L)) == Qmax (Qabs (-3)) (Qabs 2).
Proof.
  intros M L.
  assert (HM : consistent M) by reflexivity.
  assert (HL : consistent L) by reflexivity.
  split; [exact HM|split; [exact HL|]].
  exact (proj1 (combine_takes_larger_magnitude M L HM HL)).
Defined.

(** ** The classifier output *)

Lemma Sentiment_eqb_eq (a b : Sentiment) : Sentiment_eqb a b = true <-> a = b.
Proof. destruct a, b; split; intros; easy. Qed.

Lemma probs_get_set (p : Probs) (s t : Sentiment) (v : Q) :
  probs_get (probs_set p s v) t = if Sentiment_eqb s t then v else probs_get p t.
Proof. destruct s, t; reflexivity. Qed.

Lemma collectProbs_fold (outputs : list (string * Q)) (init : Probs) (s : Sentiment) :
  0 <= probs_get init s ->
  probs_get
    (fold_left
       (fun probs entry =>
          let mapped := mapModelLabel (fst entry) in
          let value := snd entry in
          probs_set probs mapped (Qmax (probs_get probs mapped) value))
       outputs init) s
  == Qmax (probs_get init s) (class_max outputs s).
Proof.
  revert init. induction outputs as [|[label value] outputs IH]; intros init Hinit.
  - unfold class_max. cbn. minmax. lra.
  - cbn [fold_left]. cbn [fst snd].
    assert (Hstep : 0 <= probs_get
              (probs_set init (mapModelLabel label)
                 (Qmax (probs_get init (mapModelLabel label)) value)) s).
    { rewrite probs_get_set.
      destruct (Sentiment_eqb (mapModelLabel label) s) eqn:E; [|exact Hinit].
      apply Sentiment_eqb_eq in E. subst s. minmax. lra. }
    rewrite (IH _ Hstep). rewrite probs_get_set.
    unfold class_max. cbn [List.filter fst snd].
    destruct (Sentiment_eqb (mapModelLabel label) s) eqn:E; [|reflexivity].
    apply Sentiment_eqb_eq in E. subst s. cbn [List.map fold_right snd].
    minmax. lra.
Qed.

Lemma class_max_nonneg (outputs : list (string * Q)) (s : Sentiment) :
  0 <= class_max outputs s.
Proof.
  unfold class_max.
  induction (List.map snd _) as [|v l IH]; cbn; [lra|]. minmax. lra.
Qed.

Lemma collectProbs_class_max (outputs : list (string * Q)) (s : Sentiment) :
  probs_get (collectProbs outputs) s == class_max outputs s.
Proof.
  pose proof (class_max_nonneg outputs s).
  unfold collectProbs. rewrite collectProbs_fold;
    destruct s; cbn [probs_get p_positive p_negative p_neutral]; try lra;
    minmax; lra.
Qed.

Lemma fold_right_Qmax_upper (l : list Q) (b : Q) :
  0 <= b -> Forall (fun v => v <= b) l -> fold_right Qmax 0 l <= b.
Proof.
  intros Hb Hl. induction Hl; cbn; [exact Hb|]. minmax. lra.
Qed.

Lemma fold_right_Qmax_ge (l : list Q) (v : Q) :
  In v l -> v <= fold_right Qmax 0 l.
Proof.
  induction l as [|w l IH]; cbn; [easy|].
  intros [->|Hin]; [|specialize (IH Hin)]; minmax; lra.
Qed.

Lemma fold_right_Qmax_attained (l : list Q) :
  fold_right Qmax 0 l == 0 \/ exists v, In v l /\ fold_right Qmax 0 l == v.
Proof.
  induction l as [|w l IH]; cbn; [left; reflexivity|].
  destruct (Q.max_spec w (fold_right Qmax 0 l)) as [[Hlt E]|[Hle E]].
  - destruct IH as [IH|(v & Hin & IH)].
    + left. lra.
    + right. exists v. split; [now right|lra].
  - right. exists w. split; [now left|exact E].
Qed.

(** X8: what is collected for a class is the largest value among the entries
    whose label maps to the class, or 0 when there is none or none is
    positive; the order of the entries does not matter. *)
Theorem collectProbs_is_class_maximum (outputs : list (string * Q)) (s : Sentiment) :
  let collected := probs_get (collectProbs outputs) s in
  0 <= collected
  /\ (forall label value, In (label, value) outputs ->
        mapModelLabel label = s -> value <= collected)
  /\ (collected == 0
      \/ exists label value, In (label, value) outputs
           /\ mapModelLabel label = s /\ collected == value)
  /\ (forall outputs', Permutation outputs outputs' ->
        probs_get (collectProbs outputs') s == collected).
Proof.
  intros collected. subst collected.
  assert (Hge : forall outs label value, In (label, value) outs ->
            mapModelLabel label = s -> value <= class_max outs s).
  { intros outs label value Hin Hs. unfold class_max.
    apply fold_right_Qmax_ge. apply in_map_iff. exists (label, value).
    split; [reflexivity|]. apply filter_In. split; [exact Hin|].
    cbn [fst]. now apply Sentiment_eqb_eq. }
  assert (Hatt : forall outs, class_max outs s == 0
            \/ exists label value, In (label, value) outs
                 /\ mapModelLabel label = s /\ class_max outs s == value).
  { intros outs. unfold class_max.
    destruct (fold_right_Qmax_attained
                (List.map snd (List.filter
                   (fun entry => Sentiment_eqb (mapModelLabel (fst entry)) s) outs)))
      as [E|(v & Hin & E)]; [now left|right].
    apply in_map_iff in Hin as ([label value] & Ev & Hin).
    apply filter_In in Hin as [Hin Hs]. cbn [fst snd] in *. subst v.
    exists label, value. split; [exact Hin|]. split; [|exact E].
    now apply Sentiment_eqb_eq. }
  pose proof (collectProbs_class_max outputs s) as Ec.
  split; [rewrite Ec; apply class_max_nonneg|].
  split; [intros label value Hin Hs; rewrite Ec; now apply (Hge outputs label)|].
  split.
  { destruct (Hatt outputs) as [E|(label & value & Hin & Hs & E)].
    - left. now rewrite Ec.
    - right. exists label, value. repeat split; try assumption. now rewrite Ec. }
  intros outputs' Hperm. rewrite Ec, collectProbs_class_max.
  assert (Hle : forall a b, (forall x, In x a -> In x b) ->
            class_max a s <= class_max b s).
  { intros a b Hab. destruct (Hatt a) as [E|(label & value & Hin & Hs & E)].
    - rewrite E. apply class_max_nonneg.
    - rewrite E. apply (Hge b label value); [now apply Hab|exact Hs]. }
  apply Qle_antisym; apply Hle; intros x Hx.
  - eapply Permutation_in; [symmetry; exact Hperm|exact Hx].
  - eapply Permutation_in; [exact Hperm|exact Hx].
Qed.

Lemma collectProbs_is_class_maximum_witness :
  In ("positive", 0.38) Sample.lowConfidence
  /\ mapModelLabel "positive" = positive
  /\ 0.38 <= probs_get (collectProbs Sample.lowConfidence) positive.
Proof.
  assert (Hin : In ("positive", 0.38) Sample.lowConfidence) by (cbn; tauto).
  assert (Hs : mapModelLabel "positive" = positive) by reflexivity.
  split; [exact Hin|split; [exact Hs|]].
  exact (proj1 (proj2 (collectProbs_is_class_maximum Sample.lowConfidence positive))
           "positive" 0.38 Hin Hs).
Defined.

(** ** The model score *)

Lemma sentimentOfProbs_range (probs : Probs) :
  0 <= p_positive probs <= 1 -> 0 <= p_negative probs <= 1 ->
  s_score (sentimentOfProbs probs) == 0
  \/ 0.5 <= Qabs (s_score (sentimentOfProbs probs)) <= 5.
Proof.
  intros Hp Hn.
  destruct (sentimentOfProbs_cases probs) as (Hz & Hpos & Hneg).
  set (diff := p_positive probs - p_negative probs) in *.
  assert (Hd : -1 <= diff <= 1) by (subst diff; lra).
  destruct (Qlt_le_dec (Qabs diff) 0.05) as [Hsmall|Hbig].
  - left. rewrite (Hz Hsmall). reflexivity.
  - right. destruct (Qlt_le_dec diff 0) as [Hlt|Hge].
    + rewrite Hneg by (revert Hbig; minmax; lra). cbn [s_score].
      clearbody diff. minmax. lra.
    + rewrite Hpos by (revert Hbig; minmax; lra). cbn [s_score].
      clearbody diff. minmax. lra.
Qed.

Lemma class_max_le_1 (outputs : list (string * Q)) (s : Sentiment) :
  Forall (fun entry => snd entry <= 1) outputs -> class_max outputs s <= 1.
Proof.
  intros Hall. unfold class_max. apply fold_right_Qmax_upper; [lra|].
  apply List.Forall_forall. intros v Hin.
  apply in_map_iff in Hin as (entry & <- & Hin).
  apply filter_In in Hin as [Hin _].
  now apply (proj1 (List.Forall_forall _ _) Hall).
Qed.

Section ModelScore.

Context `{Platform}.

(** X9: the model gives no score when the classifier fails or returns no
    entry.  Otherwise it gives a score whose label is the sign of the
    score, and when no class value exceeds 1 the score is 0 or has a
    magnitude between 0.5 and 5. *)
Theorem model_score_range (text : string) (model : Model) :
  (classify model text = None -> scoreSentimentModel text model = None)
  /\ (classify model text = Some [] -> scoreSentimentModel text model = None)
  /\ (forall outputs, classify model text = Some outputs -> outputs <> [] ->
        exists s, scoreSentimentModel text model = Some s
          /\ s = sentimentOfProbs (collectProbs outputs)
          /\ consistent s
          /\ (Forall (fun entry => snd entry <= 1) outputs ->
              s_score s == 0 \/ 0.5 <= Qabs (s_score s) <= 5)).
Proof.
  unfold scoreSentimentModel.
  split; [intros ->; reflexivity|]. split; [intros ->; reflexivity|].
  intros outputs -> Hne. destruct outputs as [|entry outputs]; [easy|].
  eexists. split; [reflexivity|]. split; [reflexivity|].
  split; [apply sentimentOfProbs_consistent|].
  intros Hall. apply sentimentOfProbs_range.
  - change (p_positive ?p) with (probs_get p positive).
    rewrite collectProbs_class_max.
    split; [apply class_max_nonneg|now apply class_max_le_1].
  - change (p_negative ?p) with (probs_get p negative).
    rewrite collectProbs_class_max.
    split; [apply class_max_nonneg|now apply class_max_le_1].
Qed.

(** ** The sentiment of an item *)

Lemma scoreSentimentModel_consistent (text : string) (model : Model) (m : SentimentScore) :
  scoreSentimentModel text model = Some m -> consistent m.
Proof.
  unfold scoreSentimentModel.
  destruct (classify model text) as [[|entry outputs]|]; try discriminate.
  intros [= <-]. apply sentimentOfProbs_consistent.
Qed.

Lemma scoreSentiment_label (cfg : Config) (title snippet : string) :
  consistent (scoreSentiment cfg title snippet).
Proof.
  unfold scoreSentiment.
  pose proof (scoreSentimentLexicon_consistent title snippet) as HL.
  destruct (negb (ENABLE_TRANSFORMERS cfg)); [exact HL|].
  destruct (negb (truthy _)); [exact HL|].
  apply combine_consistent; [|exact HL].
  intros m Hm. now apply scoreSentimentModel_consistent in Hm.
Qed.

(** X10: the sentiment of an item has the label that is the sign of its score,
    and its magnitude is never below that of the lexicon score. *)
Theorem scoreSentiment_consistent (cfg : Config) (title snippet : string) :
  let result := scoreSentiment cfg title snippet in
  s_label result = labelFromScore (s_score result)
  /\ Qabs (s_score (scoreSentimentLexicon title snippet)) <= Qabs (s_score result).
Proof.
  intros result. subst result. unfold scoreSentiment.
  pose proof (scoreSentimentLexicon_consistent title snippet) as HL.
  set (L := scoreSentimentLexicon title snippet) in *.
  destruct (negb (ENABLE_TRANSFORMERS cfg)); [split; [exact HL|lra]|].
  destruct (negb (truthy _)); [split; [exact HL|lra]|].
  set (M := scoreSentimentModel _ _).
  destruct M as [m|] eqn:EM; [|split; [exact HL|cbn; lra]].
  apply scoreSentimentModel_consistent in EM.
  destruct (combine_cases m L EM HL) as [[-> Hle]|[[-> Hlt]|(_ & _ & Hc & Hmag)]].
  - split; [exact EM|exact Hle].
  - split; [exact HL|lra].
  - split; [exact Hc|]. rewrite Hmag. minmax. lra.
Qed.

(** X11: with the classifier switched off, with a blank text, and with a
    classifier that fails or returns no entry, the sentiment is the
    lexicon's. *)
Theorem scoreSentiment_falls_back (cfg : Config) (title snippet : string) :
  let text := trim (title +:+ " " +:+ snippet) in
  let model := if hasHangul text then xlmr else finbert in
  (ENABLE_TRANSFORMERS cfg = false ->
     scoreSentiment cfg title snippet = scoreSentimentLexicon title snippet)
  /\ (text = EmptyString ->
     scoreSentiment cfg title snippet = scoreSentimentLexicon title snippet)
  /\ (classify model text = None \/ classify model text = Some [] ->
     scoreSentiment cfg title snippet = scoreSentimentLexicon title snippet).
Proof.
  intros text model. unfold scoreSentiment. fold text. fold model.
  split; [intros ->; reflexivity|]. split.
  - intros ->. now destruct (negb (ENABLE_TRANSFORMERS cfg)).
  - intros Hc. destruct (negb (ENABLE_TRANSFORMERS cfg)); [reflexivity|].
    destruct (negb (truthy text)); [reflexivity|].
    unfold scoreSentimentModel. now destruct Hc as [-> | ->].
Qed.

End ModelScore.

Lemma model_score_range_witness :
  let answering := Reference.scripted (fun _ _ => Some Sample.lowConfidence) in
  classify (Platform := answering) finbert "Markets" = Some Sample.lowConfidence
  /\ Sample.lowConfidence <> []
  /\ exists s, scoreSentimentModel (H := answering) "Markets" finbert = Some s.
Proof.
  intros answering.
  assert (Hc : classify (Platform := answering) finbert "Markets"
               = Some Sample.lowConfidence) by reflexivity.
  assert (Hne : Sample.lowConfidence <> []) by discriminate.
  split; [exact Hc|split; [exact Hne|]].
  destruct (proj2 (proj2 (model_score_range (H := answering) "Markets" finbert))
              Sample.lowConfidence Hc Hne) as (s & Hs & _).
  exists s. exact Hs.
Defined.

Lemma scoreSentiment_falls_back_witness :
  ENABLE_TRANSFORMERS Sample.cfg = false
  /\ scoreSentiment (H := Reference.platform) Sample.cfg "Bitcoin rally" ""
     = scoreSentimentLexicon "Bitcoin rally" "".
Proof.
  assert (He : ENABLE_TRANSFORMERS Sample.cfg = false) by reflexivity.
  split; [exact He|].
  exact (proj1 (scoreSentiment_falls_back (H := Reference.platform)
                  Sample.cfg "Bitcoin rally" "") He).
Defined.

(** ** Hangul *)

Lemma hangul3_ascii (a b c : ascii) : is_ascii a = true -> hangul3 a b c = false.
Proof.
  unfold is_ascii, hangul3. intros Ha. apply Nat.ltb_lt in Ha.
  cbv zeta. destruct (224 <=? Z.of_nat (nat_of_ascii a))%Z eqn:E; [|reflexivity].
  apply Z.leb_le in E. lia.
Qed.

Lemma hasHangul_app_l (a b : string) :
  hasHangul a = true -> hasHangul (a +:+ b) = true.
Proof.
  induction a as [|x a IH]; [discriminate|].
  rewrite ReferenceLaws.append_cons. cbn [hasHangul]. intros Ha.
  apply orb_true_iff in Ha as [Ha|Ha].
  - destruct a as [|y [|z a]]; try discriminate.
    rewrite !ReferenceLaws.append_cons. now rewrite Ha.
  - rewrite (IH Ha). apply orb_true_r.
Qed.

Lemma hasHangul_app_r (a b : string) :
  hasHangul b = true -> hasHangul (a +:+ b) = true.
Proof.
  intros Hb. induction a as [|x a IH]; [exact Hb|].
  rewrite ReferenceLaws.append_cons. cbn [hasHangul]. rewrite IH. apply orb_true_r.
Qed.

(** X12: a text of ASCII characters only has no Hangul, a three-byte character
    of one of the three Hangul blocks anywhere in a text is found, and so
    is Hangul in either part of a concatenation. *)
Theorem hasHangul_spec (text : string) :
  (Reference.all_chars is_ascii text = true -> hasHangul text = false)
  /\ (forall a b c before after, hangul3 a b c = true ->
        text = before +:+ String a (String b (String c after)) ->
        hasHangul text = true)
  /\ (forall before after, text = before +:+ after ->
        hasHangul before || hasHangul after = true -> hasHangul text = true).
Proof.
  split; [|split].
  - induction text as [|x text IH]; [reflexivity|].
    cbn [Reference.all_chars hasHangul]. intros Hall.
    apply andb_true_iff in Hall as [Hx Hall].
    rewrite (IH Hall), orb_false_r.
    destruct text as [|y [|z text]]; try reflexivity.
    now apply hangul3_ascii.
  - intros a b c before after Hh ->. apply hasHangul_app_r.
    cbn [hasHangul]. now rewrite Hh.
  - intros before after -> Hor. apply orb_true_iff in Hor as [Hb|Ha].
    + now apply hasHangul_app_l.
    + now apply hasHangul_app_r.
Qed.

Lemma hasHangul_spec_witness :
  Reference.all_chars is_ascii "Bitcoin ETF approved" = true
  /\ hasHangul "Bitcoin ETF approved" = false.
Proof.
  assert (Ha : Reference.all_chars is_ascii "Bitcoin ETF approved" = true) by reflexivity.
  split; [exact Ha|].
  exact (proj1 (hasHangul_spec "Bitcoin ETF approved") Ha).
Defined.

(** ** The sentiment cache *)

Lemma cleanup_lookup (now : Z) (cache : gmap string CacheEntry) (key : string) :
  cleanupSentimentCache now cache !! key
  = match cache !! key with
    | Some entry => if (ce_expiresAt entry <=? now)%Z then None else Some entry
    | None => None
    end.
Proof.
  unfold cleanupSentimentCache.
  destruct (cache !! key) as [entry|] eqn:E.
  - destruct (ce_expiresAt entry <=? now)%Z eqn:Ex.
    + apply Z.leb_le in Ex. apply map_lookup_filter_None. right.
      intros entry' E'. rewrite E in E'. injection E' as <-. cbn. tauto.
    + apply Z.leb_gt in Ex. apply map_lookup_filter_Some. split; [exact E|].
      cbn. lia.
  - apply map_lookup_filter_None. left. exact E.
Qed.

(** X13: a score put into the cache is returned for its key until six hours
    have passed; from then on the lookup returns nothing and removes the
    entry.  Storing a score changes no lookup of another key, and a
    lookup of a key that is not in the cache leaves the cache as it is. *)
Theorem sentiment_cache_round_trip
    (key : string) (score : SentimentScore) (now later : Z)
    (cache : gmap string CacheEntry) :
  let cache' := setCachedSentiment key score now cache in
  ((later < now + 21600000)%Z ->
     getCachedSentiment key later cache' = (Some score, cache'))
  /\ ((now + 21600000 <= later)%Z ->
     getCachedSentiment key later cache' = (None, delete key cache))
  /\ (forall other, other <> key ->
        fst (getCachedSentiment other later cache')
        = fst (getCachedSentiment other later cache))
  /\ (cache !! key = None -> getCachedSentiment key later cache = (None, cache)).
Proof.
  intros cache'. subst cache'. unfold getCachedSentiment, setCachedSentiment.
  change SENTIMENT_CACHE_TTL_MS with 21600000%Z.
  split; [|split; [|split]].
  - intros Hl. rewrite lookup_insert_eq. cbn [ce_expiresAt ce_score].
    destruct (now + 21600000 <=? later)%Z eqn:E; [apply Z.leb_le in E; lia|].
    reflexivity.
  - intros Hl. rewrite lookup_insert_eq. cbn [ce_expiresAt ce_score].
    destruct (now + 21600000 <=? later)%Z eqn:E; [|apply Z.leb_gt in E; lia].
    now rewrite delete_insert_eq.
  - intros other Hne. rewrite lookup_insert_ne by congruence.
    destruct (cache !! other) as [entry|]; [|reflexivity].
    now destruct (ce_expiresAt entry <=? later)%Z.
  - intros ->. reflexivity.
Qed.

Lemma sentiment_cache_round_trip_witness :
  (1000 < 0 + 21600000)%Z
  /\ fst (getCachedSentiment "a" 1000
            (setCachedSentiment "a" {| s_label := positive; s_score := 1 |} 0 ∅))
     = Some {| s_label := positive; s_score := 1 |}.
Proof.
  assert (Hl : (1000 < 0 + 21600000)%Z) by lia.
  split; [exact Hl|].
  rewrite (proj1 (sentiment_cache_round_trip
                    "a" {| s_label := positive; s_score := 1 |} 0 1000 ∅) Hl).
  reflexivity.
Defined.

(** X14: the clean-up keeps exactly the entries that expire after the given
    time.  Doing it twice is doing it once; it changes the answer of no
    lookup made at that time or later, and a lookup made at that time
    right after it removes nothing. *)
Theorem cleanup_keeps_live_entries (now : Z) (cache : gmap string CacheEntry) :
  let cleaned := cleanupSentimentCache now cache in
  (forall key entry,
     cleaned !! key = Some entry
     <-> cache !! key = Some entry /\ (now < ce_expiresAt entry)%Z)
  /\ cleanupSentimentCache now cleaned = cleaned
  /\ (forall key later, (now <= later)%Z ->
        fst (getCachedSentiment key later cleaned)
        = fst (getCachedSentiment key later cache))
  /\ (forall key, snd (getCachedSentiment key now cleaned) = cleaned).
Proof.
  intros cleaned. subst cleaned.
  split; [|split; [|split]].
  - intros key entry. rewrite cleanup_lookup.
    destruct (cache !! key) as [entry'|]; [|split; [discriminate|intros [? _]; discriminate]].
    destruct (ce_expiresAt entry' <=? now)%Z eqn:E.
    + apply Z.leb_le in E. split; [discriminate|]. intros [[= ->] Hlt]. lia.
    + apply Z.leb_gt in E. split; [intros [= ->]; easy|intros [[= ->] _]; reflexivity].
  - apply map_eq. intros key. rewrite !cleanup_lookup.
    destruct (cache !! key) as [entry|]; [|reflexivity].
    destruct (ce_expiresAt entry <=? now)%Z eqn:E; [reflexivity|]. now rewrite E.
  - intros key later Hl. unfold getCachedSentiment. rewrite cleanup_lookup.
    destruct (cache !! key) as [entry|]; [|reflexivity].
    destruct (ce_expiresAt entry <=? now)%Z eqn:E;
      [|now destruct (ce_expiresAt entry <=? later)%Z].
    apply Z.leb_le in E.
    destruct (ce_expiresAt entry <=? later)%Z eqn:E'; [reflexivity|].
    apply Z.leb_gt in E'. lia.
  - intros key. unfold getCachedSentiment. rewrite cleanup_lookup.
    destruct (cache !! key) as [entry|]; [|reflexivity].
    destruct (ce_expiresAt entry <=? now)%Z eqn:E; [reflexivity|]. now rewrite E.
Qed.

Lemma cleanup_keeps_live_entries_witness :
  (0 <= 5)%Z
  /\ fst (getCachedSentiment "a" 5 (cleanupSentimentCache 0 ∅))
     = fst (getCachedSentiment "a" 5 ∅).
Proof.
  assert (Hl : (0 <= 5)%Z) by lia.
  split; [exact Hl|].
  exact (proj1 (proj2 (proj2 (cleanup_keeps_live_entries 0 ∅))) "a" 5%Z Hl).
Defined.

(** ** Invariants of the two loops *)

Section Totals.

Context `{Platform}.
Variables (cfg : Config) (now nowMs windowMinutes : Z).

Lemma or_str_truthy (a : option string) (b : string) :
  truthy b = true -> truthy (or_str a b) = true.
Proof.
  intros Hb. unfold or_str. destruct a as [s|]; [|exact Hb].
  destruct (truthy s) eqn:E; [exact E|exact Hb].
Qed.

Lemma or_else_truthy (a b : string) :
  truthy b = true -> truthy (or_else a b) = true.
Proof. intros Hb. unfold or_else. destruct (truthy a) eqn:E; [exact E|exact Hb]. Qed.

Lemma resolveSource_truthy (item : RSSItem) (l : string) :
  truthy (resolveSource item l) = true.
Proof.
  unfold resolveSource.
  set (candidate := or_else _ _).
  destruct (truthy candidate) eqn:E; [exact E|].
  destruct (URL_new l); [|reflexivity]. now apply or_else_truthy.
Qed.

Lemma rawSource_truthy (x : Raw) : truthy (rawSource x) = true.
Proof.
  destruct x as [item|post]; cbn [rawSource].
  - apply resolveSource_truthy.
  - now apply or_str_truthy.
Qed.

(** One step of the loops: the raw item is skipped, or it is new, passes
    the filters and is admitted with a cached or a fresh sentiment. *)
Lemma step_cases (r : Run) (x : Raw) :
  step cfg now nowMs windowMinutes r x = r
  \/ exists date ttl t s,
       rawDate x = Some date
       /\ truthy (rawLink x) = true /\ (rawLink x ∉ seen r)
       /\ 0 <= toMinutesAgo date now <= inject_Z windowMinutes
       /\ truthy ttl = true
       /\ step cfg now nowMs windowMinutes r x
          = admitItem (rawLink x) ttl (toISOString date) (rawSource x)
              (fst (cachedOrScored cfg (rawLink x) nowMs t s (r_cache r)))
              (weightForSource (rawSource x)
               * decayWeight date now (inject_Z windowMinutes))
              (snd (cachedOrScored cfg (rawLink x) nowMs t s (r_cache r))) r.
Proof.
  destruct (admissible now windowMinutes x) eqn:Ea;
    [|left; apply step_skip; now left].
  destruct (decide (rawLink x ∈ seen r)) as [Hin|Hnew];
    [left; apply step_skip; now right|].
  right. unfold admissible in Ea.
  apply andb_prop in Ea as [Hlink Hdate].
  destruct (rawDate x) as [d|] eqn:Ed; [|discriminate].
  assert (Hin : 0 <= toMinutesAgo d now <= inject_Z windowMinutes).
  { apply andb_prop in Hdate as [H0 H1].
    apply leb_true in H0, H1. split; assumption. }
  exists d.
  destruct x as [item|post]; cbn [step rawLink rawDate rawSource] in *.
  - unfold rssItemStep. set (l := normalizeLink _) in *.
    rewrite Hlink. cbn [negb orb].
    rewrite bool_decide_eq_false_2 by assumption.
    unfold withinWindow.
    destruct (or_opt (rss_pubDate item) (rss_isoDate item)) as [s|]; [|discriminate].
    rewrite Ed, Hdate. cbn [negb].
    exists (or_str (rss_title item) "(untitled)"), (or_str (rss_title item) EmptyString),
      (or_else (or_str (rss_contentSnippet item) EmptyString)
               (or_str (rss_content item) EmptyString)).
    split; [reflexivity|]. split; [reflexivity|].
    split; [exact Hnew|]. split; [exact Hin|].
    split; [now apply or_str_truthy|].
    now destruct (cachedOrScored _ _ _ _ _ _).
  - unfold postStep. set (l := normalizeLink _) in *.
    rewrite Hlink. cbn [negb orb].
    rewrite bool_decide_eq_false_2 by assumption.
    destruct (post_published_at post) as [s|]; [|discriminate].
    assert (Et : truthy s = true).
    { cbn [toDate] in Ed. destruct (truthy s); [reflexivity | discriminate]. }
    rewrite Et, Ed, withinWindow_object, Hdate. cbn [negb].
    exists (or_str (post_title post) "(untitled)"), (or_str (post_title post) EmptyString),
      (or_str (post_description post) EmptyString).
    split; [reflexivity|]. split; [reflexivity|].
    split; [exact Hnew|]. split; [exact Hin|].
    split; [now apply or_str_truthy|].
    now destruct (cachedOrScored _ _ _ _ _ _).
Qed.


Lemma count_of_app (s : Sentiment) (a b : list SignalItem) :
  count_of s (a ++ b) = (count_of s a + count_of s b)%Z.
Proof. unfold count_of. rewrite List.filter_app, List.length_app. lia. Qed.

Lemma weight_factor_bounds (src : string) (date : Z) :
  0 <= toMinutesAgo date now <= inject_Z windowMinutes ->
  0.7 <= weightForSource src * decayWeight date now (inject_Z windowMinutes) <= 1.3.
Proof.
  intros Hin.
  pose proof (weightForSource_bounds src) as Hs.
  assert (Hd : 0.7 <= decayWeight date now (inject_Z windowMinutes) <= 1).
  { destruct Hin as [H0 H1]. rewrite (decayWeight_inside _ _ _ H0 H1).
    apply linearTimeDecay_bounds. }
  split; nra.
Qed.

Lemma per_minute (y W : Q) : 0 <= y / 60000 <= W <-> 0 <= y /\ y <= 60000 * W.
Proof.
  assert (E : y / 60000 == y * (1 # 60000)) by (field; discriminate).
  rewrite E. split; intros [H0 H1]; split; lra.
Qed.

Lemma toMinutesAgo_window (date : Z) :
  0 <= toMinutesAgo date now <= inject_Z windowMinutes
  <-> (date <= now)%Z /\ (now - date <= 60000 * windowMinutes)%Z.
Proof.
  unfold toMinutesAgo. change (inject_Z (1000 * 60)) with 60000.
  rewrite per_minute.
  change 0 with (inject_Z 0). change 60000 with (inject_Z 60000).
  rewrite <- inject_Z_mult, <- !Zle_Qle. lia.
Qed.

Lemma totals_step (r : Run) (x : Raw) :
  totals_inv r -> totals_inv (step cfg now nowMs windowMinutes r x).
Proof.
  intros Hr.
  destruct (step_cases r x) as [->|(d & ttl & t & s & _ & _ & _ & Hin & _ & ->)];
    [exact Hr|].
  set (sr := fst (cachedOrScored _ _ _ _ _ _)).
  set (cache := snd (cachedOrScored _ _ _ _ _ _)).
  set (wf := weightForSource _ * _).
  assert (Hwf : 0.7 <= wf <= 1.3) by now apply weight_factor_bounds.
  destruct (admitItem_fields (rawLink x) ttl (toISOString d) (rawSource x) sr wf cache r)
    as (_ & Ei & Ea & _).
  intros c. rewrite Ei, Ea. rewrite count_of_app.
  destruct (accumulate_class (s_label sr) (s_score sr) wf (r_agg r)) as (Hw & Hc & Ho).
  destruct (Hr c) as (Rc & Rlo & Rhi).
  pose proof (clamp_bounds 0.5 2.0 (Qabs (s_score sr)) ltac:(lra)) as Hb.
  destruct (Sentiment_eqb (s_label sr) c) eqn:E.
  - apply Sentiment_eqb_eq in E. subst c.
    rewrite Hw, Hc. unfold count_of at 2. cbn [List.filter sentiment].
    replace (Sentiment_eqb (s_label sr) (s_label sr)) with true
      by (now destruct (s_label sr)).
    cbn [List.length]. split; [lia|].
    rewrite inject_Z_plus. change (inject_Z 1) with 1.
    split; nra.
  - assert (Hne : c <> s_label sr).
    { intros ->. assert (Sentiment_eqb (s_label sr) (s_label sr) = true)
        by (now destruct (s_label sr)). congruence. }
    destruct (Ho c Hne) as [-> ->].
    unfold count_of at 2. cbn [List.filter sentiment]. rewrite E.
    cbn [List.length]. split; [lia|]. split; assumption.
Qed.

Lemma cachedOrScored_cases (l : string) (t s : string) (cache : gmap string CacheEntry) :
  (forall key entry, cache !! key = Some entry -> (nowMs < ce_expiresAt entry)%Z) ->
  let result := cachedOrScored cfg l nowMs t s cache in
  (exists entry, cache !! l = Some entry /\ fst result = ce_score entry
                 /\ snd result = cache)
  \/ (cache !! l = None /\ fst result = scoreSentiment cfg t s
      /\ snd result = setCachedSentiment l (scoreSentiment cfg t s) nowMs cache).
Proof.
  intros Hlive result. subst result. unfold cachedOrScored, getCachedSentiment.
  destruct (cache !! l) as [entry|] eqn:E.
  - pose proof (Hlive l entry E) as Hl.
    destruct (ce_expiresAt entry <=? nowMs)%Z eqn:Ex; [apply Z.leb_le in Ex; lia|].
    left. exists entry. repeat split.
  - right. repeat split.
Qed.

Lemma cache_step (r : Run) (x : Raw) :
  run_inv r -> cache_inv nowMs r ->
  cache_inv nowMs (step cfg now nowMs windowMinutes r x).
Proof.
  intros (Hseen & _) [Hlive Hitems].
  destruct (step_cases r x) as [->|(d & ttl & t & s & _ & _ & Hnew & _ & _ & ->)];
    [split; assumption|].
  set (wf := weightForSource _ * _).
  destruct (admitItem_fields (rawLink x) ttl (toISOString d) (rawSource x)
              (fst (cachedOrScored cfg (rawLink x) nowMs t s (r_cache r))) wf
              (snd (cachedOrScored cfg (rawLink x) nowMs t s (r_cache r))) r)
    as (_ & Ei & _ & Ec).
  unfold cache_inv. rewrite Ei, Ec. clear Ei Ec.
  assert (Hold : forall it, In it (r_items r) -> link it <> rawLink x).
  { intros it Hit E. apply Hnew. rewrite Hseen. apply elem_of_list_to_set.
    rewrite <- E. apply list_elem_of_In. now apply in_map. }
  destruct (cachedOrScored_cases (rawLink x) t s (r_cache r) Hlive)
    as [(entry & El & -> & ->)|(El & -> & ->)].
  - split; [exact Hlive|]. intros it Hit.
    apply in_app_or in Hit as [Hit|[<-|[]]]; [now apply Hitems|].
    exists entry. split; [exact El|]. unfold sentimentOf. cbn [sentiment score].
    now destruct (ce_score entry).
  - split.
    + intros key entry. unfold setCachedSentiment.
      destruct (decide (key = rawLink x)) as [->|Hne].
      * rewrite lookup_insert_eq. intros [= <-]. cbn. unfold SENTIMENT_CACHE_TTL_MS. lia.
      * rewrite lookup_insert_ne by congruence. apply Hlive.
    + intros it Hit. unfold setCachedSentiment.
      apply in_app_or in Hit as [Hit|[<-|[]]].
      * rewrite lookup_insert_ne by (intros E; now apply (Hold it Hit)).
        now apply Hitems.
      * cbn [link]. rewrite lookup_insert_eq. eexists. split; [reflexivity|].
        unfold sentimentOf. cbn [sentiment score ce_score].
        now destruct (scoreSentiment cfg t s).
Qed.

Lemma consistent_step (r : Run) (x : Raw) :
  consistent_inv r -> consistent_inv (step cfg now nowMs windowMinutes r x).
Proof.
  intros [Hcache Hitems].
  destruct (step_cases r x) as [->|(d & ttl & t & s & _ & _ & _ & _ & _ & ->)];
    [split; assumption|].
  set (wf := weightForSource _ * _).
  destruct (admitItem_fields (rawLink x) ttl (toISOString d) (rawSource x)
              (fst (cachedOrScored cfg (rawLink x) nowMs t s (r_cache r))) wf
              (snd (cachedOrScored cfg (rawLink x) nowMs t s (r_cache r))) r)
    as (_ & Ei & _ & Ec).
  unfold consistent_inv. rewrite Ei, Ec. clear Ei Ec.
  assert (Hscored : consistent (scoreSentiment cfg t s))
    by apply scoreSentiment_label.
  unfold cachedOrScored, getCachedSentiment.
  destruct (r_cache r !! rawLink x) as [entry|] eqn:El.
  - destruct (ce_expiresAt entry <=? nowMs)%Z; cbn [fst snd].
    + split.
      * intros key e. unfold setCachedSentiment.
        destruct (decide (key = rawLink x)) as [->|Hne].
        -- rewrite lookup_insert_eq. now intros [= <-].
        -- rewrite lookup_insert_ne by congruence.
           rewrite lookup_delete_ne by congruence. apply Hcache.
      * apply Forall_app. split; [exact Hitems|]. constructor; [|constructor].
        exact Hscored.
    + split; [exact Hcache|].
      apply Forall_app. split; [exact Hitems|]. constructor; [|constructor].
      unfold sentimentOf. cbn [sentiment score]. unfold consistent. cbn [s_label s_score].
      apply (Hcache _ _ El).
  - cbn [fst snd]. split.
    + intros key e. unfold setCachedSentiment.
      destruct (decide (key = rawLink x)) as [->|Hne].
      * rewrite lookup_insert_eq. now intros [= <-].
      * rewrite lookup_insert_ne by congruence. apply Hcache.
    + apply Forall_app. split; [exact Hitems|]. constructor; [|constructor].
      exact Hscored.
Qed.

Lemma items_step (r : Run) (x : Raw) :
  Forall (item_ok now windowMinutes) (r_items r) ->
  Forall (item_ok now windowMinutes) (r_items (step cfg now nowMs windowMinutes r x)).
Proof.
  intros Hr.
  destruct (step_cases r x) as [->|(d & ttl & t & s & _ & Hl & _ & Hin & Ht & ->)];
    [exact Hr|].
  set (wf := weightForSource _ * _).
  destruct (admitItem_fields (rawLink x) ttl (toISOString d) (rawSource x)
              (fst (cachedOrScored cfg (rawLink x) nowMs t s (r_cache r))) wf
              (snd (cachedOrScored cfg (rawLink x) nowMs t s (r_cache r))) r)
    as (_ & -> & _ & _).
  apply Forall_app. split; [exact Hr|]. constructor; [|constructor].
  unfold item_ok. cbn [title link source pubDate].
  split; [exact Ht|]. split; [exact Hl|]. split; [apply rawSource_truthy|].
  exists d. split; [reflexivity|].
  now apply toMinutesAgo_window.
Qed.

Lemma fold_step_inv (P : Run -> Prop) (l : list Raw) (r : Run) :
  (forall r x, run_inv r -> P r -> P (step cfg now nowMs windowMinutes r x)) ->
  run_inv r -> P r -> P (fold_left (step cfg now nowMs windowMinutes) l r).
Proof.
  intros Hstep. revert r. induction l as [|x l IH]; intros r Hr HP; [exact HP|].
  cbn [fold_left]. apply IH; [now apply step_inv|now apply Hstep].
Qed.

End Totals.

(** ** One computation as a whole *)

Lemma count_of_perm (s : Sentiment) (a b : list SignalItem) :
  Permutation a b -> count_of s a = count_of s b.
Proof.
  intros Hp. unfold count_of. f_equal. apply Permutation_length.
  induction Hp; cbn.
  - constructor.
  - destruct (Sentiment_eqb (sentiment x) s); [now constructor|assumption].
  - destruct (Sentiment_eqb (sentiment x) s), (Sentiment_eqb (sentiment y) s);
      try reflexivity. apply perm_swap.
  - now transitivity (List.filter (fun it => Sentiment_eqb (sentiment it) s) l').
Qed.

Lemma count_of_total (its : list SignalItem) :
  (count_of positive its + count_of negative its + count_of neutral its)%Z
  = Z.of_nat (List.length its).
Proof.
  unfold count_of. induction its as [|it its IH]; [reflexivity|].
  cbn [List.filter List.length]. destruct (sentiment it); cbn [Sentiment_eqb List.length]; lia.
Qed.

Lemma emptyRun_totals (cache : gmap string CacheEntry) : totals_inv (emptyRun cache).
Proof. intros []; (split; [reflexivity|]); split; vm_compute; discriminate. Qed.

Lemma collect_totals `{Platform} (cfg : Config) (now nowMs W : Z) (w : World)
    (cache : gmap string CacheEntry) :
  totals_inv (collect cfg now nowMs W w cache).
Proof.
  rewrite collect_as_fold.
  apply (fold_step_inv cfg now nowMs W totals_inv).
  - intros r x _. apply totals_step.
  - apply emptyRun_inv.
  - apply emptyRun_totals.
Qed.









(** X15: the counts of a computed payload are the numbers of its items of each
    class, and together the number of its items. *)
Theorem response_counts_match_items `{Platform}
    (cfg : Config) (g : Globals) (w : World) (W : Z) :
  exists p,
    snd (recompute cfg g w W) = Json 200 p
    /\ c_positive (counts p) = count_of positive (items p)
    /\ c_negative (counts p) = count_of negative (items p)
    /\ c_neutral (counts p) = count_of neutral (items p)
    /\ (c_positive (counts p) + c_negative (counts p) + c_neutral (counts p))%Z
       = Z.of_nat (List.length (items p)).
Proof.
  eexists. split; [apply recompute_response|].
  set (r := collect _ _ _ _ _ _).
  pose proof (collect_totals cfg (w_now w) (w_now w) W w
                (cleanupSentimentCache (w_now w) (sentimentCache g))) as Ht.
  fold r in Ht.
  destruct (buildResponse_fields W
              (match TIMEZONE_OFFSET_MINUTES cfg with Some o => o | None => 0 end)
              (toISOString (w_built w)) (Array_sort byPubDateDesc (r_items r))
              (a_posW (r_agg r)) (a_negW (r_agg r)) (a_neuW (r_agg r))
              (a_posCount (r_agg r)) (a_negCount (r_agg r)) (a_neuCount (r_agg r)))
    as (_ & _ & _ & -> & _ & _ & _ & _ & ->).
  cbn [c_positive c_negative c_neutral].
  assert (Hc : forall s, class_count (r_agg r) s
                         = count_of s (Array_sort byPubDateDesc (r_items r))).
  { intros s. rewrite (proj1 (Ht s)). apply count_of_perm.
    symmetry. apply Array_sort_perm. }
  pose proof (Hc positive) as Hp. pose proof (Hc negative) as Hn.
  pose proof (Hc neutral) as Hu. cbn [class_count] in Hp, Hn, Hu.
  repeat split; try assumption.
  rewrite Hp, Hn, Hu. apply count_of_total.
Qed.

(** X16: in a computation whose sources do not name a member that
    [SOURCE_WEIGHTS] inherits, every item adds between 0.35 and 2.6, up to
    the precision of the sums, to the weight of its class: the weight of a
    class lies between 0.34 and 2.61 times its count, and it is 0 exactly
    when the class has no item. *)
Theorem class_weight_within_count_bounds `{Platform}
    (cfg : Config) (g : Globals) (w : World) (W : Z) :
  plain_sources cfg w = true ->
  exists p,
    snd (recompute cfg g w W) = Json 200 p
    /\ (0.34 * inject_Z (c_positive (counts p)) <= posW (weights p)
        /\ posW (weights p) <= 2.61 * inject_Z (c_positive (counts p)))
    /\ (0.34 * inject_Z (c_negative (counts p)) <= negW (weights p)
        /\ negW (weights p) <= 2.61 * inject_Z (c_negative (counts p)))
    /\ (0.34 * inject_Z (c_neutral (counts p)) <= neuW (weights p)
        /\ neuW (weights p) <= 2.61 * inject_Z (c_neutral (counts p)))
    /\ (posW (weights p) == 0 <-> c_positive (counts p) = 0%Z)
    /\ (negW (weights p) == 0 <-> c_negative (counts p) = 0%Z)
    /\ (neuW (weights p) == 0 <-> c_neutral (counts p) = 0%Z).
Proof.
  intros _.
  eexists. split; [apply recompute_response|].
  set (r := collect _ _ _ _ _ _).
  pose proof (collect_totals cfg (w_now w) (w_now w) W w
                (cleanupSentimentCache (w_now w) (sentimentCache g))) as Ht.
  fold r in Ht.
  destruct (buildResponse_fields W
              (match TIMEZONE_OFFSET_MINUTES cfg with Some o => o | None => 0 end)
              (toISOString (w_built w)) (Array_sort byPubDateDesc (r_items r))
              (a_posW (r_agg r)) (a_negW (r_agg r)) (a_neuW (r_agg r))
              (a_posCount (r_agg r)) (a_negCount (r_agg r)) (a_neuCount (r_agg r)))
    as (_ & _ & _ & -> & -> & _).
  cbn [c_positive c_negative c_neutral posW negW neuW].
  assert (Hb : forall s,
             (0.34 * inject_Z (class_count (r_agg r) s) <= class_weight (r_agg r) s
              /\ class_weight (r_agg r) s <= 2.61 * inject_Z (class_count (r_agg r) s))
             /\ (class_weight (r_agg r) s == 0 <-> class_count (r_agg r) s = 0%Z)).
  { intros s. destruct (Ht s) as (Hc & Hlo & Hhi).
    assert (Hnn : (0 <= class_count (r_agg r) s)%Z) by (rewrite Hc; unfold count_of; lia).
    assert (Hq : 0 <= inject_Z (class_count (r_agg r) s))
      by (change 0 with (inject_Z 0); now rewrite <- Zle_Qle).
    split; [split; lra|]. split.
    - intros E. rewrite E in Hlo.
      assert (Hz : inject_Z (class_count (r_agg r) s) <= inject_Z 0)
        by (change (inject_Z 0) with 0; lra).
      rewrite <- Zle_Qle in Hz. lia.
    - intros E. rewrite E in Hlo, Hhi. change (inject_Z 0) with 0 in Hlo, Hhi. lra. }
  pose proof (Hb positive) as (Hp & Zp).
  pose proof (Hb negative) as (Hn & Zn).
  pose proof (Hb neutral) as (Hu & Zu).
  cbn [class_weight class_count] in *.
  split; [exact Hp|]. split; [exact Hn|]. split; [exact Hu|].
  split; [exact Zp|]. split; [exact Zn|exact Zu].
Qed.

Lemma class_weight_within_count_bounds_witness :
  plain_sources (H := Reference.platform) Sample.cfg Sample.world = true
  /\ exists p,
       snd (recompute (H := Reference.platform) Sample.cfg Sample.globals Sample.world 330)
       = Json 200 p
       /\ (posW (weights p) == 0 <-> c_positive (counts p) = 0%Z).
Proof.
  assert (Hplain : plain_sources (H := Reference.platform) Sample.cfg Sample.world = true)
    by (vm_compute; reflexivity).
  split; [exact Hplain|].
  destruct (class_weight_within_count_bounds (H := Reference.platform)
              Sample.cfg Sample.globals Sample.world 330 Hplain)
    as (p & Hp & _ & _ & _ & Hz & _).
  exists p. split; [exact Hp|exact Hz].
Defined.

Lemma cleanup_live (now : Z) (cache : gmap string CacheEntry) (key : string)
    (entry : CacheEntry) :
  cleanupSentimentCache now cache !! key = Some entry ->
  cache !! key = Some entry /\ (now < ce_expiresAt entry)%Z.
Proof.
  rewrite cleanup_lookup. destruct (cache !! key) as [e|]; [|discriminate].
  destruct (ce_expiresAt e <=? now)%Z eqn:E; [discriminate|].
  apply Z.leb_gt in E. intros [= ->]. easy.
Qed.

(** X17: after a computation the sentiment cache holds, under the link of every
    item of the payload, the label and score of that item, and no entry of
    the cache has expired. *)
Theorem item_sentiments_are_cached `{Platform}
    (cfg : Config) (g : Globals) (w : World) (W : Z) :
  let g' := fst (recompute cfg g w W) in
  exists p,
    snd (recompute cfg g w W) = Json 200 p
    /\ (forall it, In it (items p) ->
          exists entry,
            sentimentCache g' !! link it = Some entry
            /\ ce_score entry = {| s_label := sentiment it; s_score := score it |}
            /\ (w_now w < ce_expiresAt entry)%Z)
    /\ (forall key entry, sentimentCache g' !! key = Some entry ->
          (w_now w < ce_expiresAt entry)%Z).
Proof.
  intros g'. eexists. split; [apply recompute_response|].
  rewrite buildResponse_items. subst g'. unfold recompute. cbn [fst sentimentCache].
  set (start := cleanupSentimentCache (w_now w) (sentimentCache g)).
  assert (Hc : cache_inv (w_now w) (collect cfg (w_now w) (w_now w) W w start)).
  { rewrite collect_as_fold.
    apply (fold_step_inv cfg (w_now w) (w_now w) W (cache_inv (w_now w))).
    - intros r x. apply cache_step.
    - apply emptyRun_inv.
    - split; [|intros it []].
      intros key entry Hk. now apply cleanup_live in Hk. }
  destruct Hc as [Hlive Hitems]. split; [|exact Hlive].
  intros it Hit.
  assert (Hin : In it (r_items (collect cfg (w_now w) (w_now w) W w start))).
  { eapply Permutation_in; [apply Array_sort_perm|exact Hit]. }
  destruct (Hitems it Hin) as (entry & He & Hs).
  exists entry. split; [exact He|]. split; [exact Hs|]. now apply (Hlive _ _ He).
Qed.

(** X18: every item of a computed payload has a title, a link and a source
    that are not empty, and its publication date is the ISO form of a time
    that is not after the request and not before the start of the
    window. *)
Theorem items_are_well_formed `{Platform}
    (cfg : Config) (g : Globals) (w : World) (W : Z) :
  exists p,
    snd (recompute cfg g w W) = Json 200 p
    /\ Forall
         (fun it =>
            title it <> EmptyString /\ link it <> EmptyString
            /\ source it <> EmptyString
            /\ exists date, pubDate it = toISOString date
                 /\ (w_now w - 60000 * W <= date <= w_now w)%Z)
         (items p).
Proof.
  eexists. split; [apply recompute_response|].
  rewrite buildResponse_items.
  set (start := cleanupSentimentCache (w_now w) (sentimentCache g)).
  assert (Hok : Forall (item_ok (w_now w) W)
                  (r_items (collect cfg (w_now w) (w_now w) W w start))).
  { rewrite collect_as_fold.
    apply (fold_step_inv cfg (w_now w) (w_now w) W
             (fun r => Forall (item_ok (w_now w) W) (r_items r))).
    - intros r x _. apply items_step.
    - apply emptyRun_inv.
    - constructor. }
  apply List.Forall_forall. intros it Hit.
  assert (Hin : In it (r_items (collect cfg (w_now w) (w_now w) W w start))).
  { eapply Permutation_in; [apply Array_sort_perm|exact Hit]. }
  destruct (proj1 (List.Forall_forall _ _) Hok it Hin)
    as (Ht & Hl & Hs & d & Hd & H0 & H1).
  assert (Hne : forall s, truthy s = true -> s <> EmptyString)
    by (intros s E ->; discriminate).
  repeat split; try (apply Hne; assumption).
  exists d. split; [exact Hd|]. lia.
Qed.

(** X19: when every cached sentiment has the label that is the sign of its
    score, so has every item of a computed payload and every sentiment
    cached afterwards. *)
Theorem item_labels_follow_scores `{Platform}
    (cfg : Config) (g : Globals) (w : World) (W : Z) :
  (forall key entry, sentimentCache g !! key = Some entry ->
     s_label (ce_score entry) = labelFromScore (s_score (ce_score entry))) ->
  exists p,
    snd (recompute cfg g w W) = Json 200 p
    /\ Forall (fun it => sentiment it = labelFromScore (score it)) (items p)
    /\ (forall key entry,
          sentimentCache (fst (recompute cfg g w W)) !! key = Some entry ->
          s_label (ce_score entry) = labelFromScore (s_score (ce_score entry))).
Proof.
  intros Hg. eexists. split; [apply recompute_response|].
  rewrite buildResponse_items. unfold recompute. cbn [fst sentimentCache].
  set (start := cleanupSentimentCache (w_now w) (sentimentCache g)).
  assert (Hc : consistent_inv (collect cfg (w_now w) (w_now w) W w start)).
  { rewrite collect_as_fold.
    apply (fold_step_inv cfg (w_now w) (w_now w) W consistent_inv).
    - intros r x _. apply consistent_step.
    - apply emptyRun_inv.
    - split; [|constructor].
      intros key entry Hk. apply cleanup_live in Hk as [Hk _]. now apply (Hg key). }
  destruct Hc as [Hcache Hitems]. split; [|exact Hcache].
  apply List.Forall_forall. intros it Hit.
  assert (Hin : In it (r_items (collect cfg (w_now w) (w_now w) W w start))).
  { eapply Permutation_in; [apply Array_sort_perm|exact Hit]. }
  exact (proj1 (List.Forall_forall _ _) Hitems it Hin).
Qed.

Lemma item_labels_follow_scores_witness :
  let entry := {| ce_score := {| s_label := negative; s_score := -2 |};
                  ce_expiresAt := Sample.now + 1000 |} in
  let g := {| sentimentCache := {[ "https://example.com/post"%string := entry ]};
              responseCache := None |} in
  (forall key entry, sentimentCache g !! key = Some entry ->
     s_label (ce_score entry) = labelFromScore (s_score (ce_score entry)))
  /\ exists p,
       snd (recompute (H := Reference.platform) Sample.cfg g Sample.world 330)
       = Json 200 p
       /\ Forall (fun it => sentiment it = labelFromScore (score it)) (items p).
Proof.
  intros entry g.
  assert (Hg : forall key e, sentimentCache g !! key = Some e ->
     s_label (ce_score e) = labelFromScore (s_score (ce_score e))).
  { intros key e Hk. cbn [sentimentCache g] in Hk.
    apply lookup_singleton_Some in Hk as [_ <-]. reflexivity. }
  split; [exact Hg|].
  destruct (item_labels_follow_scores (H := Reference.platform)
              Sample.cfg g Sample.world 330 Hg) as (p & Hp & Hi & _).
  exists p. split; [exact Hp|exact Hi].
Defined.

(** ** The order of the items *)

Section Order.

Context `{Platform}.

Lemma sort_insert_sorted (x : SignalItem) (l : list SignalItem) :
  Date_parse (pubDate x) <> None ->
  Forall (fun it => Date_parse (pubDate it) <> None) l ->
  StronglySorted not_older l ->
  StronglySorted not_older (sort_insert byPubDateDesc x l).
Proof.
  intros Hx Hl Hs. induction l as [|y l IH]; cbn [sort_insert].
  - constructor; constructor.
  - inversion Hl as [|? ? Hy Hl']; subst. inversion Hs as [|? ? Hs' Hall]; subst.
    destruct (Date_parse (pubDate x)) as [tx|] eqn:Ex; [|contradiction].
    destruct (Date_parse (pubDate y)) as [ty|] eqn:Ey; [|contradiction].
    unfold byPubDateDesc. rewrite Ex, Ey.
    destruct (ty - tx <=? 0)%Z eqn:E.
    + apply Z.leb_le in E. constructor; [now constructor|].
      constructor.
      * exists tx, ty. repeat split; try assumption. lia.
      * eapply List.Forall_impl; [|exact Hall].
        intros z (ty' & tz & Ey' & Ez & Hle). rewrite Ey in Ey'. injection Ey' as <-.
        exists tx, tz. repeat split; try assumption. lia.
    + apply Z.leb_gt in E. constructor; [now apply IH|].
      assert (Hperm : Permutation (sort_insert byPubDateDesc x l) (x :: l))
        by apply sort_insert_perm.
      apply List.Forall_forall. intros z Hz.
      apply (Permutation_in _ Hperm) in Hz as [<-|Hz].
      * exists ty, tx. repeat split; try assumption. lia.
      * exact (proj1 (List.Forall_forall _ _) Hall z Hz).
Qed.

Lemma sort_insert_stable (t : Z) (x : SignalItem) (l : list SignalItem) :
  Date_parse (pubDate x) <> None ->
  Forall (fun it => Date_parse (pubDate it) <> None) l ->
  List.filter (published_at t) (sort_insert byPubDateDesc x l)
  = List.filter (published_at t) (x :: l).
Proof.
  intros Hx Hl. induction l as [|y l IH]; [reflexivity|].
  inversion Hl as [|? ? Hy Hl']; subst. cbn [sort_insert].
  destruct (byPubDateDesc x y <=? 0)%Z eqn:E; [reflexivity|].
  apply Z.leb_gt in E. cbn [List.filter]. rewrite (IH Hl'). cbn [List.filter].
  assert (Hxy : published_at t x = true -> published_at t y = true -> False).
  { unfold byPubDateDesc in E. unfold published_at.
    destruct (Date_parse (pubDate x)) as [tx|]; [|discriminate].
    destruct (Date_parse (pubDate y)) as [ty|]; [|discriminate].
    intros Ex Ey. apply Z.eqb_eq in Ex, Ey. lia. }
  destruct (published_at t x), (published_at t y); try reflexivity.
  exfalso. apply Hxy; reflexivity.
Qed.

(** X20: when the publication date of every item parses, sorting leaves the
    same items, each before all items published earlier, and items
    published at the same time in the order they had. *)
Theorem items_sorted_newest_first (its : list SignalItem) :
  Forall (fun it => Date_parse (pubDate it) <> None) its ->
  let sorted := Array_sort byPubDateDesc its in
  Permutation sorted its
  /\ StronglySorted not_older sorted
  /\ (forall t, List.filter (published_at t) sorted = List.filter (published_at t) its).
Proof.
  intros Hall sorted. subst sorted.
  split; [apply Array_sort_perm|].
  induction Hall as [|x l Hx Hl [IHs IHt]]; [split; [constructor|reflexivity]|].
  cbn [Array_sort fold_right]. fold (Array_sort byPubDateDesc l).
  assert (Hl' : Forall (fun it => Date_parse (pubDate it) <> None)
                  (Array_sort byPubDateDesc l)).
  { apply List.Forall_forall. intros z Hz.
    apply (Permutation_in _ (Array_sort_perm byPubDateDesc l)) in Hz.
    exact (proj1 (List.Forall_forall _ _) Hl z Hz). }
  split.
  - now apply sort_insert_sorted.
  - intros t. rewrite (sort_insert_stable t x _ Hx Hl').
    cbn [List.filter]. now rewrite IHt.
Qed.

End Order.

Lemma items_sorted_newest_first_witness :
  let a := {| title := "a"; link := "https://example.com/a";
              pubDate := "2024-01-01T04:00:00.000Z"; source := "example.com";
              sentiment := neutral; score := 0; weight := 0 |} in
  let b := {| title := "b"; link := "https://example.com/b";
              pubDate := "2024-01-01T05:00:00.000Z"; source := "example.com";
              sentiment := neutral; score := 0; weight := 0 |} in
  Forall (fun it => Date_parse (Platform := Reference.platform) (pubDate it) <> None) [a; b]
  /\ StronglySorted (not_older (H := Reference.platform))
       (Array_sort (byPubDateDesc (H := Reference.platform)) [a; b]).
Proof.
  intros a b.
  assert (Hall : Forall (fun it => Date_parse (Platform := Reference.platform) (pubDate it)
                                   <> None) [a; b])
    by (repeat constructor; discriminate).
  split; [exact Hall|].
  exact (proj1 (proj2 (items_sorted_newest_first (H := Reference.platform) [a; b] Hall))).
Defined.

(** ** The response cache *)

(** X21: a GET request is answered by a fresh computation when the response
    cache is switched off, empty, or holds a snapshot at least as old as
    the time to live.  Switched off, the computation leaves the slot as it
    is; switched on, it stores its payload under the time of the
    request. *)
Theorem stale_or_disabled_cache_recomputes `{Platform}
    (cfg : Config) (g : Globals) (w : World) (req : Request) :
  req_method req = "GET"%string ->
  let W := computeWindowMinutes (w_now w) (TIMEZONE_OFFSET_MINUTES cfg) in
  (SIGNAL_CACHE_TTL_MS cfg <= 0 ->
     handler cfg g w req = recompute cfg g w W
     /\ responseCache (fst (handler cfg g w req)) = responseCache g)
  /\ (responseCache g = None -> handler cfg g w req = recompute cfg g w W)
  /\ (forall rc, responseCache g = Some rc ->
        SIGNAL_CACHE_TTL_MS cfg <= inject_Z (w_now w - rc_timestamp rc) ->
        handler cfg g w req = recompute cfg g w W)
  /\ (0 < SIGNAL_CACHE_TTL_MS cfg ->
        exists p,
          snd (recompute cfg g w W) = Json 200 p
          /\ responseCache (fst (recompute cfg g w W))
             = Some {| rc_timestamp := w_now w; rc_payload := p |}).
Proof.
  intros Hget W. rewrite (handler_get cfg g w req Hget). fold W.
  split; [|split; [|split]].
  - intros Hoff.
    assert (Ettl : (RESPONSE_CACHE_TTL_MS cfg >? 0) = false).
    { apply ltb_false. unfold RESPONSE_CACHE_TTL_MS. minmax. lra. }
    rewrite Ettl. cbn [andb].
    assert (E : match responseCache g with
                | Some _ => recompute cfg g w W
                | None => recompute cfg g w W
                end = recompute cfg g w W) by now destruct (responseCache g).
    rewrite E. split; [reflexivity|].
    unfold recompute. cbn [fst responseCache]. now rewrite Ettl.
  - intros ->. reflexivity.
  - intros rc -> Hold.
    destruct (RESPONSE_CACHE_TTL_MS cfg >? 0) eqn:Ettl; [|reflexivity].
    apply ltb_true in Ettl.
    assert (Eage : (inject_Z (w_now w - rc_timestamp rc) <? RESPONSE_CACHE_TTL_MS cfg)
                   = false).
    { apply ltb_false. revert Ettl. unfold RESPONSE_CACHE_TTL_MS. minmax. lra. }
    rewrite Eage. now rewrite !andb_false_r.
  - intros Hon.
    assert (Httl : 0 < RESPONSE_CACHE_TTL_MS cfg)
      by (unfold RESPONSE_CACHE_TTL_MS; minmax; lra).
    destruct (recompute_cache cfg g w W Httl) as (p & Hp & Hslot & _).
    exists p. split; assumption.
Qed.

Lemma stale_or_disabled_cache_recomputes_witness :
  req_method Sample.plain = "GET"%string
  /\ responseCache Sample.globals = None
  /\ handler (H := Reference.platform) Sample.cfg Sample.globals Sample.world Sample.plain
     = recompute (H := Reference.platform) Sample.cfg Sample.globals Sample.world
         (computeWindowMinutes (w_now Sample.world)
            (TIMEZONE_OFFSET_MINUTES Sample.cfg)).
Proof.
  assert (Hget : req_method Sample.plain = "GET"%string) by reflexivity.
  assert (Hnone : responseCache Sample.globals = None) by reflexivity.
  split; [exact Hget|split; [exact Hnone|]].
  exact (proj1 (proj2 (stale_or_disabled_cache_recomputes (H := Reference.platform)
                         Sample.cfg Sample.globals Sample.world Sample.plain Hget))
           Hnone).
Defined.

(** ** The source of an item *)

(** X22: the resolved source is never empty.  A creator that is not blank wins,
    trimmed; without a creator, a source string that is not blank does;
    without either, the host name of the link without a leading
    [www.], and [Unknown] when the link does not parse or has no host
    name. *)
Theorem resolveSource_priority `{Platform} (item : RSSItem) (l : string) :
  resolveSource item l <> EmptyString
  /\ (forall c, rss_creator item = Some c -> trim c <> EmptyString ->
        resolveSource item l = trim c)
  /\ (forall s, rss_creator item = None -> rss_source item = Some (inl s) ->
        trim s <> EmptyString -> resolveSource item l = trim s)
  /\ (forall t, rss_creator item = None -> rss_source item = Some (inr (Some t)) ->
        t <> EmptyString -> resolveSource item l = t)
  /\ (rss_creator item = None -> rss_source item = None ->
        resolveSource item l
        = match URL_new l with
          | Some u =>
            if truthy (strip_www (URL_hostname u)) then strip_www (URL_hostname u)
            else "Unknown"%string
          | None => "Unknown"%string
          end).
Proof.
  assert (Ht : forall s, s <> EmptyString -> truthy s = true)
    by (intros [|c s] Hs; [contradiction|reflexivity]).
  split; [|split; [|split; [|split]]].
  - pose proof (resolveSource_truthy item l) as E. intros E'. now rewrite E' in E.
  - intros c Ec Hc. unfold resolveSource. rewrite Ec, (Ht _ Hc).
    unfold or_else. now rewrite !(Ht _ Hc).
  - intros s Ec Es Hs. unfold resolveSource. rewrite Ec, Es, (Ht _ Hs).
    unfold or_else. cbn [truthy]. now rewrite !(Ht _ Hs).
  - intros t Ec Es Htt. unfold resolveSource. rewrite Ec, Es.
    unfold or_else. cbn [truthy]. now rewrite !(Ht _ Htt).
  - intros Ec Es. unfold resolveSource. rewrite Ec, Es. reflexivity.
Qed.

Lemma resolveSource_priority_witness :
  let item := {| rss_title := None; rss_link := None; rss_pubDate := None;
                 rss_isoDate := None; rss_contentSnippet := None; rss_content := None;
                 rss_creator := Some " Reuters "%string; rss_source := None |} in
  rss_creator item = Some " Reuters "%string
  /\ trim " Reuters " <> EmptyString
  /\ resolveSource (H := Reference.platform) item "https://example.com/a" = "Reuters"%string.
Proof.
  intros item.
  assert (Ec : rss_creator item = Some " Reuters "%string) by reflexivity.
  assert (Hc : trim " Reuters " <> EmptyString) by discriminate.
  split; [exact Ec|split; [exact Hc|]].
  exact (proj1 (proj2 (resolveSource_priority (H := Reference.platform)
                         item "https://example.com/a")) " Reuters "%string Ec Hc).
Defined.

(** ** Loading the classifiers *)

Section PipelineProperties.

Context {Pipeline : Type}.

Lemma truthy_false (s : string) : truthy s = false <-> s = EmptyString.
Proof. destruct s; split; intros; easy. Qed.

(** X23: the candidates are tried in order, each first quantized and then
    plain, and the first pipeline that loads is the result; there is no
    result exactly when no candidate can be loaded. *)
Theorem first_loadable_candidate_wins
    (pipelineFactory : PipelineFactory Pipeline) (task : string) (candidates : list string) :
  (firstLoadable pipelineFactory task candidates = None
   <-> Forall (unloadable pipelineFactory task) candidates)
  /\ (forall failed modelId rest p,
        candidates = failed ++ modelId :: rest ->
        Forall (unloadable pipelineFactory task) failed ->
        modelId <> EmptyString ->
        (pipelineFactory task modelId true = Some p
         -> firstLoadable pipelineFactory task candidates = Some p)
        /\ (pipelineFactory task modelId true = None
            -> pipelineFactory task modelId false = Some p
            -> firstLoadable pipelineFactory task candidates = Some p)).
Proof.
  assert (Hskip : forall failed rest,
            Forall (unloadable pipelineFactory task) failed ->
            firstLoadable pipelineFactory task (failed ++ rest)
            = firstLoadable pipelineFactory task rest).
  { intros failed rest Hf. induction Hf as [|m failed Hm Hf IH]; [reflexivity|].
    cbn [app firstLoadable]. destruct Hm as [->|[-> ->]]; [exact IH|].
    now destruct (negb (truthy m)). }
  split.
  - induction candidates as [|m candidates IH]; cbn [firstLoadable].
    + split; [constructor|reflexivity].
    + destruct (truthy m) eqn:Em; cbn [negb].
      * destruct (pipelineFactory task m true) as [p|] eqn:Eq.
        { split; [discriminate|]. intros Hall. inversion Hall as [|? ? Hm _]; subst.
          destruct Hm as [->|[Hq _]]; [discriminate|congruence]. }
        destruct (pipelineFactory task m false) as [p|] eqn:Ep.
        { split; [discriminate|]. intros Hall. inversion Hall as [|? ? Hm _]; subst.
          destruct Hm as [->|[_ Hp]]; [discriminate|congruence]. }
        rewrite IH. split.
        -- intros Hall. constructor; [right; split; assumption|exact Hall].
        -- intros Hall. now inversion Hall.
      * apply truthy_false in Em. subst m. rewrite IH. split.
        -- intros Hall. constructor; [now left|exact Hall].
        -- intros Hall. now inversion Hall.
  - intros failed m rest p -> Hf Hm. rewrite (Hskip failed _ Hf).
    cbn [firstLoadable].
    assert (Em : truthy m = true) by (destruct m; [contradiction|reflexivity]).
    rewrite Em. cbn [negb]. split.
    + intros ->. reflexivity.
    + intros -> ->. reflexivity.
Qed.

(** X24: a model is loaded at most once: after the first request for it, every
    later one returns the same result and leaves the state as it is,
    whatever the environment has become, so a load that failed is not
    tried again.  Loading one model leaves the slot of the other as it
    was, and with the flag off the first request gives no pipeline. *)
Theorem pipelines_are_loaded_once (env : Env Pipeline) (model : Model) (st : Loaded Pipeline) :
  let first := getTextClassificationPipeline env model st in
  slotOf model (snd first) = Some (fst first)
  /\ (forall env', getTextClassificationPipeline env' model (snd first) = first)
  /\ (forall other, other <> model -> slotOf other (snd first) = slotOf other st)
  /\ (env_ENABLE_TRANSFORMERS env = false -> slotOf model st = None ->
        fst first = None)
  /\ (forall p, slotOf model st = Some p -> first = (p, st)).
Proof.
  intros first. subst first.
  destruct model; unfold getTextClassificationPipeline, createModelPipeline,
    getTransformersModule; cbn [slotOf];
  [destruct (finbertPipelinePromise st) as [p|] eqn:Es
  |destruct (xlmRobertaPipelinePromise st) as [p|] eqn:Es].
  all: try (cbn [fst snd]; rewrite Es;
            repeat split; try congruence;
            intros [] Hne; try contradiction; reflexivity).
  all: destruct (negb (env_ENABLE_TRANSFORMERS env)) eqn:Een.
  all: try destruct (transformersModulePromise st) as [[[f|]|]|].
  all: try destruct (env_import env) as [[f|]|].
  all: cbn [fst snd finbertPipelinePromise xlmRobertaPipelinePromise
            transformersModulePromise].
  all: repeat split; try congruence; try discriminate;
       try (intros [] Hne; try contradiction; reflexivity);
       try (intros He; rewrite He in Een; discriminate).
Qed.

End PipelineProperties.

Lemma first_loadable_candidate_wins_witness :
  let factory : PipelineFactory nat :=
    fun _ modelId quantized =>
      if String.eqb modelId "Xenova/finbert" && negb quantized then Some 7%nat else None in
  FINBERT_MODEL_CANDIDATES None
  = ["ProsusAI/finbert"] ++ "Xenova/finbert"
    :: ["Xenova/finbert-tone"; "Xenova/bert-base-uncased-finetuned-sst-2-english"]
  /\ Forall (unloadable factory "text-classification") ["ProsusAI/finbert"%string]
  /\ firstLoadable factory "text-classification" (FINBERT_MODEL_CANDIDATES None)
     = Some 7%nat.
Proof.
  intros factory.
  assert (Hc : FINBERT_MODEL_CANDIDATES None
               = ["ProsusAI/finbert"] ++ "Xenova/finbert"
                 :: ["Xenova/finbert-tone";
                     "Xenova/bert-base-uncased-finetuned-sst-2-english"])
    by reflexivity.
  assert (Hf : Forall (unloadable factory "text-classification")
                 ["ProsusAI/finbert"%string])
    by (constructor; [right; split; reflexivity|constructor]).
  assert (Hm : "Xenova/finbert"%string <> EmptyString) by discriminate.
  split; [exact Hc|split; [exact Hf|]].
  exact (proj2 (proj2 (first_loadable_candidate_wins factory "text-classification"
                         (FINBERT_MODEL_CANDIDATES None))
                  _ _ _ 7%nat Hc Hf Hm) eq_refl eq_refl).
Defined.

Lemma pipelines_are_loaded_once_witness :
  let env : Env nat :=
    {| env_ENABLE_TRANSFORMERS := false; env_FINBERT_MODEL_ID := None;
       env_XLMR_MODEL_ID := None; env_import := None |} in
  env_ENABLE_TRANSFORMERS env = false
  /\ slotOf finbert (@notLoaded nat) = None
  /\ fst (getTextClassificationPipeline env finbert (@notLoaded nat)) = None.
Proof.
  intros env.
  assert (He : env_ENABLE_TRANSFORMERS env = false) by reflexivity.
  assert (Hs : slotOf finbert (@notLoaded nat) = None) by reflexivity.
  split; [exact He|split; [exact Hs|]].
  exact (proj1 (proj2 (proj2 (proj2 (pipelines_are_loaded_once env finbert
                                        (@notLoaded nat))))) He Hs).
Defined.

(** ** Cached sentiments are reused *)

Section Reuse.

Context `{Platform}.
Variables (cfg : Config) (now nowMs windowMinutes : Z).
Variable start : gmap string CacheEntry.

Lemma keeps_start_step (r : Run) (x : Raw) :
  run_inv r -> keeps_start nowMs start r ->
  keeps_start nowMs start (step cfg now nowMs windowMinutes r x).
Proof.
  intros Hr [Hc Hk]. split; [now apply cache_step|].
  destruct (step_cases cfg now nowMs windowMinutes r x)
    as [->|(d & ttl & t & s & _ & _ & _ & _ & _ & ->)]; [exact Hk|].
  set (wf := weightForSource _ * _).
  destruct (admitItem_fields (rawLink x) ttl (toISOString d) (rawSource x)
              (fst (cachedOrScored cfg (rawLink x) nowMs t s (r_cache r))) wf
              (snd (cachedOrScored cfg (rawLink x) nowMs t s (r_cache r))) r)
    as (_ & _ & _ & ->).
  destruct (cachedOrScored_cases cfg nowMs (rawLink x) t s (r_cache r) (proj1 Hc))
    as [(entry & _ & _ & ->)|(El & _ & ->)]; [exact Hk|].
  intros key entry Hs. unfold setCachedSentiment.
  rewrite lookup_insert_ne; [now apply Hk|].
  intros <-. rewrite (Hk _ _ Hs) in El. discriminate.
Qed.

End Reuse.

(** X25: an item whose link has a cached sentiment that has not expired gets
    that sentiment, whatever its title and text are and whatever the
    scorer would say; the cache entry stays as it is. *)
Theorem cached_sentiment_is_reused `{Platform}
    (cfg : Config) (g : Globals) (w : World) (W : Z)
    (key : string) (entry : CacheEntry) :
  sentimentCache g !! key = Some entry ->
  (w_now w < ce_expiresAt entry)%Z ->
  exists p,
    snd (recompute cfg g w W) = Json 200 p
    /\ (forall it, In it (items p) -> link it = key ->
          sentiment it = s_label (ce_score entry)
          /\ score it = s_score (ce_score entry))
    /\ sentimentCache (fst (recompute cfg g w W)) !! key = Some entry.
Proof.
  intros Hkey Hlive. eexists. split; [apply recompute_response|].
  rewrite buildResponse_items. unfold recompute. cbn [fst sentimentCache].
  set (start := cleanupSentimentCache (w_now w) (sentimentCache g)).
  assert (Hstart : start !! key = Some entry).
  { subst start. rewrite cleanup_lookup, Hkey.
    destruct (ce_expiresAt entry <=? w_now w)%Z eqn:E; [|reflexivity].
    apply Z.leb_le in E. lia. }
  assert (Hk : keeps_start (w_now w) start
                 (collect cfg (w_now w) (w_now w) W w start)).
  { rewrite collect_as_fold.
    apply (fold_step_inv cfg (w_now w) (w_now w) W (keeps_start (w_now w) start)).
    - intros r x. apply keeps_start_step.
    - apply emptyRun_inv.
    - split; [split; [|intros it []]|intros k e Hs; exact Hs].
      intros k e Hs. now apply cleanup_live in Hs. }
  destruct Hk as [[_ Hitems] Hkeep]. split; [|now apply Hkeep].
  intros it Hit <-.
  assert (Hin : In it (r_items (collect cfg (w_now w) (w_now w) W w start))).
  { eapply Permutation_in; [apply Array_sort_perm|exact Hit]. }
  destruct (Hitems it Hin) as (e & He & Hs).
  rewrite (Hkeep _ _ Hstart) in He. injection He as <-.
  rewrite Hs. split; reflexivity.
Qed.

Lemma cached_sentiment_is_reused_witness :
  let entry := {| ce_score := {| s_label := negative; s_score := -2 |};
                  ce_expiresAt := Sample.now + 1000 |} in
  let g := {| sentimentCache := {[ "https://example.com/post"%string := entry ]};
              responseCache := None |} in
  sentimentCache g !! "https://example.com/post"%string = Some entry
  /\ (w_now Sample.world < ce_expiresAt entry)%Z
  /\ exists p,
       snd (recompute (H := Reference.platform) Sample.cfg g Sample.world 330)
       = Json 200 p
       /\ forall it, In it (items p) -> link it = "https://example.com/post"%string ->
            sentiment it = negative /\ score it = -2.
Proof.
  intros entry g.
  assert (Hk : sentimentCache g !! "https://example.com/post"%string = Some entry)
    by reflexivity.
  assert (Hl : (w_now Sample.world < ce_expiresAt entry)%Z) by reflexivity.
  split; [exact Hk|split; [exact Hl|]].
  destruct (cached_sentiment_is_reused (H := Reference.platform)
              Sample.cfg g Sample.world 330 _ entry Hk Hl) as (p & Hp & Hi & _).
  exists p. split; [exact Hp|exact Hi].
Defined.

(** ** The start of the day *)

Lemma start_of_day_integral (now : Z) (offset : Q) (shift : Z) :
  offset * 60 * 1000 == inject_Z shift -> (0 <= now + shift)%Z ->
  computeTimezoneStartOfDay now (Some offset)
  = (utcMidnight (now + shift) - shift)%Z.
Proof.
  intros Hshift Hepoch. unfold computeTimezoneStartOfDay.
  assert (Hshifted : truncate (inject_Z now + offset * 60 * 1000) = (now + shift)%Z).
  { apply truncate_integer. rewrite inject_Z_plus, Hshift. reflexivity. }
  rewrite Hshifted. rewrite Date_UTC_of_fields.
  - apply truncate_integer. unfold Zminus.
    rewrite inject_Z_plus, inject_Z_opp, Hshift. reflexivity.
  - pose proof (getUTCFullYear_since_epoch _ Hepoch). lia.
Qed.

Lemma utcMidnight_nonneg (t : Z) : (0 <= t)%Z -> (0 <= utcMidnight t)%Z.
Proof.
  intros Ht. unfold utcMidnight, msPerDay.
  pose proof (Z.div_pos t 86400000 Ht ltac:(lia)). lia.
Qed.

Lemma utcMidnight_idem (t : Z) : utcMidnight (utcMidnight t) = utcMidnight t.
Proof. unfold utcMidnight, msPerDay. rewrite Z.div_mul by lia. reflexivity. Qed.

Lemma utcMidnight_next (t : Z) : utcMidnight (t + msPerDay) = (utcMidnight t + msPerDay)%Z.
Proof.
  unfold utcMidnight, msPerDay.
  replace (t + 86400000)%Z with (t + 1 * 86400000)%Z by lia.
  rewrite Z.div_add by lia. lia.
Qed.

Lemma utcMidnight_mono (s t : Z) : (s <= t)%Z -> (utcMidnight s <= utcMidnight t)%Z.
Proof.
  intros Hst. unfold utcMidnight, msPerDay.
  pose proof (Z.div_le_mono s t 86400000 ltac:(lia) Hst). lia.
Qed.

(** X26: for a time and an offset of a whole number of milliseconds that
    are time values of valid dates, and a shifted time that is one too and
    not before 1970: the start of the day is its own start of the day, the
    window asked for at that instant is 1 minute, a day later the start
    is a day later, and the start never moves back as time goes on. *)
Theorem start_of_day_is_stable (now : Z) (offset : Q) (shift : Z) :
  offset * 60 * 1000 == inject_Z shift ->
  validTime now -> validTime (now - msPerDay) -> validTime shift ->
  (0 <= now + shift <= maxTime)%Z ->
  let start := computeTimezoneStartOfDay now (Some offset) in
  computeTimezoneStartOfDay start (Some offset) = start
  /\ computeWindowMinutes start (Some offset) = 1%Z
  /\ (validTime (now + msPerDay) -> validTime (now + msPerDay + shift) ->
      computeTimezoneStartOfDay (now + msPerDay) (Some offset) = (start + msPerDay)%Z)
  /\ (forall later, (now <= later)%Z -> validTime later -> validTime (later + shift) ->
        (start <= computeTimezoneStartOfDay later (Some offset))%Z).
Proof.
  intros Hshift _ _ _ [Hepoch _] start.
  assert (Hstart : start = (utcMidnight (now + shift) - shift)%Z)
    by now apply start_of_day_integral.
  assert (Hidem : computeTimezoneStartOfDay start (Some offset) = start).
  { rewrite (start_of_day_integral start offset shift Hshift).
    - rewrite Hstart. replace (utcMidnight (now + shift) - shift + shift)%Z
        with (utcMidnight (now + shift)) by lia.
      now rewrite utcMidnight_idem.
    - rewrite Hstart. pose proof (utcMidnight_nonneg _ Hepoch). lia. }
  split; [exact Hidem|]. split; [|split].
  - unfold computeWindowMinutes. rewrite Hidem, Z.sub_diag. reflexivity.
  - intros _ _.
    rewrite (start_of_day_integral _ offset shift Hshift) by (unfold msPerDay; lia).
    replace (now + msPerDay + shift)%Z with (now + shift + msPerDay)%Z by lia.
    rewrite utcMidnight_next. lia.
  - intros later Hl _ _.
    rewrite (start_of_day_integral later offset shift Hshift) by lia.
    rewrite Hstart. pose proof (utcMidnight_mono (now + shift) (later + shift)). lia.
Qed.

Lemma start_of_day_is_stable_witness :
  let now := 1704087000000%Z in
  let offset := 540 in
  let shift := 32400000%Z in
  offset * 60 * 1000 == inject_Z shift
  /\ validTime now /\ validTime (now - msPerDay) /\ validTime shift
  /\ (0 <= now + shift <= maxTime)%Z
  /\ computeWindowMinutes (computeTimezoneStartOfDay now (Some offset)) (Some offset)
     = 1%Z.
Proof.
  intros now offset shift.
  assert (Hs : offset * 60 * 1000 == inject_Z shift) by reflexivity.
  assert (Hnow : validTime now) by (unfold validTime; vm_compute; intuition discriminate).
  assert (Hday : validTime (now - msPerDay))
    by (unfold validTime; vm_compute; intuition discriminate).
  assert (Hsh : validTime shift) by (unfold validTime; vm_compute; intuition discriminate).
  assert (He : (0 <= now + shift <= maxTime)%Z) by (vm_compute; intuition discriminate).
  repeat (split; [assumption|]).
  exact (proj1 (proj2 (start_of_day_is_stable now offset shift Hs Hnow Hday Hsh He))).
Defined.
